(** * The media output engine of libobs (libobs/obs-output.c)

    A shallow embedding of the packet interleaver, the caption injector, the
    pause controller, the reconnect controller and the stop path of
    [obs-output.c], with the properties of the output specification stated
    and settled against it.

    Conventions.
    - An [obs_output_t *] that passed [obs_output_valid] is a value of
      [obs_output]; a possibly-NULL handle is an [option obs_output].
    - Unsigned machine integers ([uint64_t], [uint32_t], [size_t]) are [Z]
      with the wrap-around written out.  Signed machine integers
      ([int64_t], [int]) are [Z] without wrap-around: signed overflow is
      undefined in C, so the model describes the executions free of it.
    - [double] is the binary64 primitive float; [float], which only occurs
      as the reconnect back-off factor, is binary32 (see [float32]).
    - A thread the output creates ([end_data_capture_thread],
      [reconnect_thread]) is a function of its own, applied to the state at
      the point where the thread runs; the function that creates it returns
      with the thread yet to run, unless [pthread_create] fails.
    - What the output asks of its collaborators (signal handler, sink,
      thread API) is appended to two logs kept in the state, [signals] and
      [sink]. *)

From Stdlib Require Import String ZArith List Sorted Bool Lia Floats Uint63.
Import ListNotations.
Open Scope Z_scope.

(** ** Machine integers *)

Definition wrap_u64 (z : Z) : Z := z mod 2 ^ 64.
Definition wrap_u32 (z : Z) : Z := z mod 2 ^ 32.

(** Conversion of an [int64_t] to [double]. *)
Definition double_of_int64 (z : Z) : float :=
  if z =? - 2 ^ 63 then PrimFloat.opp (PrimFloat.of_uint63 (Uint63.of_Z (2 ^ 62)) * 2)%float
  else if z <? 0 then PrimFloat.opp (PrimFloat.of_uint63 (Uint63.of_Z (- z)))
  else PrimFloat.of_uint63 (Uint63.of_Z z).

(** [float] is binary32: a [spec_float] of precision 24 and maximal
    exponent 128, with the operations of the floating-point specification,
    which round to nearest, ties to even. *)
Definition float32 : Type := spec_float.

Definition float32_valid (x : float32) : bool :=
  SpecFloat.valid_binary 24 128 x.

(** Conversion of a [uint32_t] to [float]. *)
Definition float32_of_uint32 (z : Z) : float32 :=
  SpecFloat.binary_normalize 24 128 z 0 false.

Definition float32_mul (x y : float32) : float32 :=
  SpecFloat.SFmul 24 128 x y.

(** The integer part of a finite [float], the fractional part discarded. *)
Definition float32_trunc (x : float32) : option Z :=
  match x with
  | S754_zero _ => Some 0
  | S754_finite s m e => Some (SpecFloat.cond_Zopp s (Z.shiftl (Zpos m) e))
  | S754_infinity _ | S754_nan => None
  end.

(** Conversion of a [float] to [uint32_t].  C leaves the conversion undefined
    when the integer part does not fit; the model reduces it modulo 2^32 and
    takes 0 for an infinity or a NaN. *)
Definition uint32_of_float32 (x : float32) : Z :=
  match float32_trunc x with
  | Some z => wrap_u32 z
  | None => 0
  end.

(** 1.0f and 1.5f. *)
Definition float32_1 : float32 := S754_finite false 8388608 (-23).
Definition float32_1_5 : float32 := S754_finite false 12582912 (-23).

(** ** Constants of the headers *)

(** Modelled from the spec: [MAX_AUDIO_MIXES] is declared in a header that is
    not among the sources; the specification gives 8 mixes. *)
Definition MAX_AUDIO_MIXES : nat := 8%nat.
Definition DARRAY_INVALID : Z := 2 ^ 64 - 1.

Definition OBS_OUTPUT_VIDEO : Z := 1.
Definition OBS_OUTPUT_AUDIO : Z := 2.
Definition OBS_OUTPUT_ENCODED : Z := 4.
Definition OBS_OUTPUT_SERVICE : Z := 8.
Definition OBS_OUTPUT_MULTI_TRACK : Z := 16.
Definition OBS_OUTPUT_CAN_PAUSE : Z := 32.

Definition OBS_OUTPUT_SUCCESS : Z := 0.
Definition OBS_OUTPUT_BAD_PATH : Z := -1.
Definition OBS_OUTPUT_CONNECT_FAILED : Z := -2.
Definition OBS_OUTPUT_INVALID_STREAM : Z := -3.
Definition OBS_OUTPUT_ERROR : Z := -4.
Definition OBS_OUTPUT_DISCONNECTED : Z := -5.

Definition RECONNECT_RETRY_MAX_MSEC : Z := 15 * 60 * 1000.

Definition has_flag (flags bit : Z) : bool := negb (Z.land flags bit =? 0).

(** ** Data *)

Inductive obs_encoder_type := OBS_ENCODER_AUDIO | OBS_ENCODER_VIDEO.

Definition obs_encoder_type_eqb (a b : obs_encoder_type) : bool :=
  match a, b with
  | OBS_ENCODER_AUDIO, OBS_ENCODER_AUDIO => true
  | OBS_ENCODER_VIDEO, OBS_ENCODER_VIDEO => true
  | _, _ => false
  end.

(** One SEI message as [add_caption] assembles it. *)
Inductive sei_message :=
| sei_cea708 (cc_data : list (Z * Z)) (* cea708_add_cc_data (type bits, word) *)
| sei_caption_frame (text : string).  (* sei_from_caption_frame *)

(** The payload of a packet: the encoder's bytes, then whatever
    [add_caption] appended. *)
Inductive chunk :=
| payload (bytes : list Z)
| nal_start                      (* the four bytes 0 0 0 1 *)
| sei (messages : list sei_message).

Record encoder_packet := {
  data : list chunk;
  pts : Z;
  dts : Z;
  timebase_num : Z;
  timebase_den : Z;
  type : obs_encoder_type;
  keyframe : bool;
  dts_usec : Z;
  priority : Z;
  track_idx : nat;
  encoder : option nat   (* address of the encoder that produced the packet *)
}.

Definition set_packet_data (v : list chunk) (p : encoder_packet) :=
  {| data := v; pts := pts p; dts := dts p; timebase_num := timebase_num p;
     timebase_den := timebase_den p; type := type p; keyframe := keyframe p;
     dts_usec := dts_usec p; priority := priority p;
     track_idx := track_idx p; encoder := encoder p |}.

Definition set_packet_track_idx (v : nat) (p : encoder_packet) :=
  {| data := data p; pts := pts p; dts := dts p; timebase_num := timebase_num p;
     timebase_den := timebase_den p; type := type p; keyframe := keyframe p;
     dts_usec := dts_usec p; priority := priority p;
     track_idx := v; encoder := encoder p |}.

Definition set_packet_ts (new_dts new_pts new_dts_usec : Z) (p : encoder_packet) :=
  {| data := data p; pts := new_pts; dts := new_dts;
     timebase_num := timebase_num p; timebase_den := timebase_den p;
     type := type p; keyframe := keyframe p; dts_usec := new_dts_usec;
     priority := priority p; track_idx := track_idx p;
     encoder := encoder p |}.

Record pause_data := {
  last_video_ts : Z;
  ts_start : Z;
  ts_end : Z;
  ts_offset : Z
}.

Module obs_encoder.

Record t := {
  addr : nat;          (* the address of the encoder object *)
  paused : bool;
  pause : pause_data
}.

End obs_encoder.

Record caption_text := {
  text : string;
  display_duration : float
}.

Inductive event :=
| signal (name : string)           (* do_output_signal (output, name) *)
| signal_stop_code (code : Z)      (* "stop", with the code signal_stop read *)
| signal_reconnect_timeout (timeout_sec : Z)   (* "reconnect" *)
| reconnect_thread_created (msec : Z). (* pthread_create of reconnect_thread,
                                          which waits reconnect_retry_cur_msec *)

Record obs_output := {
  info_flags : Z;          (* info.flags *)
  context_data : bool;     (* context.data is not NULL *)
  active : bool;
  reconnecting : bool;
  delay_active : bool;
  delay_capturing : bool;
  data_active : bool;
  paused : bool;
  end_data_capture_thread_active : bool;
  stopping_event : bool;         (* manual-reset event, true while signalled *)
  reconnect_stop_event : bool;   (* manual-reset event, true while signalled *)
  reconnect_thread_active : bool;
  stop_code : Z;                 (* int *)
  reconnect_retry_sec : Z;       (* int *)
  reconnect_retry_max : Z;       (* int *)
  reconnect_retries : Z;         (* int *)
  reconnect_retry_cur_msec : Z;  (* uint32_t *)
  reconnect_retry_exp : float32; (* float *)
  delay_restart_refs : Z;        (* long *)
  active_delay_ns : Z;           (* uint64_t *)
  mixer_mask : Z;                (* size_t *)
  pause : pause_data;
  video_encoder : option obs_encoder.t;
  audio_encoders : list (option obs_encoder.t);
  interleaved_packets : list encoder_packet;
  received_audio : bool;
  received_video : bool;
  highest_audio_ts : Z;          (* int64_t *)
  highest_video_ts : Z;          (* int64_t *)
  video_offset : Z;              (* int64_t *)
  audio_offsets : list Z;        (* int64_t [MAX_AUDIO_MIXES] *)
  total_frames : Z;              (* int *)
  caption_head : list caption_text;  (* linked list, head first *)
  caption_data : list (Z * Z * Z);   (* circlebuf, three bytes per entry *)
  caption_timestamp : float;         (* double *)
  last_caption_timestamp : float;    (* the file-scope double *)
  signals : list event;              (* oldest first *)
  sink : list encoder_packet         (* info.encoded_packet calls, oldest first *)
}.

(** Field assignment.  [assign f] builds the output whose field [f] is the
    new value and whose other fields are those of the old output. *)
Ltac keep_or_set f g v o := first [ constr_eq f g; exact v | exact (g o) ].

Ltac assign f :=
  let v := fresh "v" in
  let o := fresh "o" in
  intros v o;
  constructor;
  [ keep_or_set f info_flags v o | keep_or_set f context_data v o
  | keep_or_set f active v o | keep_or_set f reconnecting v o
  | keep_or_set f delay_active v o | keep_or_set f delay_capturing v o
  | keep_or_set f data_active v o | keep_or_set f paused v o
  | keep_or_set f end_data_capture_thread_active v o
  | keep_or_set f stopping_event v o | keep_or_set f reconnect_stop_event v o
  | keep_or_set f reconnect_thread_active v o | keep_or_set f stop_code v o
  | keep_or_set f reconnect_retry_sec v o
  | keep_or_set f reconnect_retry_max v o
  | keep_or_set f reconnect_retries v o
  | keep_or_set f reconnect_retry_cur_msec v o
  | keep_or_set f reconnect_retry_exp v o
  | keep_or_set f delay_restart_refs v o | keep_or_set f active_delay_ns v o
  | keep_or_set f mixer_mask v o | keep_or_set f pause v o
  | keep_or_set f video_encoder v o | keep_or_set f audio_encoders v o
  | keep_or_set f interleaved_packets v o | keep_or_set f received_audio v o
  | keep_or_set f received_video v o | keep_or_set f highest_audio_ts v o
  | keep_or_set f highest_video_ts v o | keep_or_set f video_offset v o
  | keep_or_set f audio_offsets v o | keep_or_set f total_frames v o
  | keep_or_set f caption_head v o | keep_or_set f caption_data v o
  | keep_or_set f caption_timestamp v o
  | keep_or_set f last_caption_timestamp v o
  | keep_or_set f signals v o | keep_or_set f sink v o ].

Definition set_active : bool -> obs_output -> obs_output.
Proof. assign active. Defined.
Definition set_reconnecting : bool -> obs_output -> obs_output.
Proof. assign reconnecting. Defined.
Definition set_delay_active : bool -> obs_output -> obs_output.
Proof. assign delay_active. Defined.
Definition set_delay_capturing : bool -> obs_output -> obs_output.
Proof. assign delay_capturing. Defined.
Definition set_data_active : bool -> obs_output -> obs_output.
Proof. assign data_active. Defined.
Definition set_paused : bool -> obs_output -> obs_output.
Proof. assign paused. Defined.
Definition set_end_data_capture_thread_active : bool -> obs_output -> obs_output.
Proof. assign end_data_capture_thread_active. Defined.
Definition set_stopping_event : bool -> obs_output -> obs_output.
Proof. assign stopping_event. Defined.
Definition set_reconnect_stop_event : bool -> obs_output -> obs_output.
Proof. assign reconnect_stop_event. Defined.
Definition set_reconnect_thread_active : bool -> obs_output -> obs_output.
Proof. assign reconnect_thread_active. Defined.
Definition set_stop_code : Z -> obs_output -> obs_output.
Proof. assign stop_code. Defined.
Definition set_reconnect_retry_sec : Z -> obs_output -> obs_output.
Proof. assign reconnect_retry_sec. Defined.
Definition set_reconnect_retry_max : Z -> obs_output -> obs_output.
Proof. assign reconnect_retry_max. Defined.
Definition set_reconnect_retries : Z -> obs_output -> obs_output.
Proof. assign reconnect_retries. Defined.
Definition set_reconnect_retry_cur_msec : Z -> obs_output -> obs_output.
Proof. assign reconnect_retry_cur_msec. Defined.
Definition set_delay_restart_refs : Z -> obs_output -> obs_output.
Proof. assign delay_restart_refs. Defined.
Definition set_active_delay_ns : Z -> obs_output -> obs_output.
Proof. assign active_delay_ns. Defined.
Definition set_mixer_mask : Z -> obs_output -> obs_output.
Proof. assign mixer_mask. Defined.
Definition set_pause : pause_data -> obs_output -> obs_output.
Proof. assign pause. Defined.
Definition set_video_encoder : option obs_encoder.t -> obs_output -> obs_output.
Proof. assign video_encoder. Defined.
Definition set_audio_encoders : list (option obs_encoder.t) -> obs_output -> obs_output.
Proof. assign audio_encoders. Defined.
Definition set_interleaved_packets : list encoder_packet -> obs_output -> obs_output.
Proof. assign interleaved_packets. Defined.
Definition set_received_audio : bool -> obs_output -> obs_output.
Proof. assign received_audio. Defined.
Definition set_received_video : bool -> obs_output -> obs_output.
Proof. assign received_video. Defined.
Definition set_highest_audio_ts : Z -> obs_output -> obs_output.
Proof. assign highest_audio_ts. Defined.
Definition set_highest_video_ts : Z -> obs_output -> obs_output.
Proof. assign highest_video_ts. Defined.
Definition set_video_offset : Z -> obs_output -> obs_output.
Proof. assign video_offset. Defined.
Definition set_audio_offsets : list Z -> obs_output -> obs_output.
Proof. assign audio_offsets. Defined.
Definition set_total_frames : Z -> obs_output -> obs_output.
Proof. assign total_frames. Defined.
Definition set_caption_head : list caption_text -> obs_output -> obs_output.
Proof. assign caption_head. Defined.
Definition set_caption_data : list (Z * Z * Z) -> obs_output -> obs_output.
Proof. assign caption_data. Defined.
Definition set_caption_timestamp : float -> obs_output -> obs_output.
Proof. assign caption_timestamp. Defined.
Definition set_last_caption_timestamp : float -> obs_output -> obs_output.
Proof. assign last_caption_timestamp. Defined.
Definition set_signals : list event -> obs_output -> obs_output.
Proof. assign signals. Defined.
Definition set_sink : list encoder_packet -> obs_output -> obs_output.
Proof. assign sink. Defined.

(** [obs_output_valid]: the handle is not NULL. *)
Definition obs_output_valid (output : option obs_output) : bool :=
  match output with Some _ => true | None => false end.

(** [do_output_signal]. *)
Definition do_output_signal (name : string) (output : obs_output) : obs_output :=
  set_signals (signals output ++ [signal name]) output.

(** ** Packet interleaver *)

Definition is_video (p : encoder_packet) : bool :=
  obs_encoder_type_eqb (type p) OBS_ENCODER_VIDEO.

Definition pointer_eqb (a b : option nat) : bool :=
  match a, b with
  | Some x, Some y => Nat.eqb x y
  | None, None => true
  | _, _ => false
  end.

(** Modelled from the spec: [packet_dts_usec] is an inline helper of a header
    that is not among the sources; the glossary gives dts_usec as
    dts * 1e6 * num / den, here with the truncating division of C. *)
Definition packet_dts_usec (p : encoder_packet) : Z :=
  Z.quot (dts p * 1000000 * timebase_num p) (timebase_den p).

Fixpoint count_bound_encoders (encoders : list (option obs_encoder.t))
    (fuel : nat) : nat :=
  match fuel, encoders with
  | S fuel', Some _ :: rest => S (count_bound_encoders rest fuel')
  | _, _ => 0%nat
  end.

Definition num_audio_mixes (output : obs_output) : nat :=
  if has_flag (info_flags output) OBS_OUTPUT_MULTI_TRACK
  then count_bound_encoders (audio_encoders output) MAX_AUDIO_MIXES
  else 1%nat.

(** The loop of [get_track_index]: the slot found, or [None] when the loop
    ends without one and the function reaches [assert(false)]. *)
Fixpoint get_track_index_from (encoders : list (option obs_encoder.t))
    (pkt_encoder : option nat) (i : nat) : option nat :=
  match encoders with
  | [] => None                        (* assert(false) *)
  | e :: rest =>
      if pointer_eqb pkt_encoder (option_map obs_encoder.addr e) then Some i
      else get_track_index_from rest pkt_encoder (S i)
  end.

Definition get_track_index_checked (output : obs_output)
    (pkt : encoder_packet) : option nat :=
  get_track_index_from (firstn MAX_AUDIO_MIXES (audio_encoders output))
    (encoder pkt) 0.

(** [get_track_index].  Where the assertion is reached a build with
    assertions aborts; the value is the [return 0] that follows it in a
    build without them (NDEBUG). *)
Definition get_track_index (output : obs_output) (pkt : encoder_packet) : nat :=
  match get_track_index_checked output pkt with
  | Some i => i
  | None => 0%nat                     (* return 0 *)
  end.

Definition check_received (output : obs_output) (out : encoder_packet)
  : obs_output :=
  match type out with
  | OBS_ENCODER_VIDEO =>
      if negb (received_video output) then set_received_video true output
      else output
  | OBS_ENCODER_AUDIO =>
      if negb (received_audio output) then set_received_audio true output
      else output
  end.

Definition apply_interleaved_packet_offset (output : obs_output)
    (out : encoder_packet) : encoder_packet :=
  let offset :=
    match type out with
    | OBS_ENCODER_VIDEO => video_offset output
    | OBS_ENCODER_AUDIO => nth (track_idx out) (audio_offsets output) 0
    end in
  let out := set_packet_ts (dts out - offset) (pts out - offset) (dts_usec out) out in
  set_packet_ts (dts out) (pts out) (packet_dts_usec out) out.

Definition has_higher_opposing_ts (output : obs_output)
    (packet : encoder_packet) : bool :=
  match type packet with
  | OBS_ENCODER_VIDEO => highest_audio_ts output >? dts_usec packet
  | OBS_ENCODER_AUDIO => highest_video_ts output >? dts_usec packet
  end.

Definition set_higher_ts (output : obs_output) (packet : encoder_packet)
  : obs_output :=
  match type packet with
  | OBS_ENCODER_VIDEO =>
      if highest_video_ts output <? dts_usec packet
      then set_highest_video_ts (dts_usec packet) output else output
  | OBS_ENCODER_AUDIO =>
      if highest_audio_ts output <? dts_usec packet
      then set_highest_audio_ts (dts_usec packet) output else output
  end.

(** The test of the two search loops: the packet has the wanted type and, for
    audio, the wanted track. *)
Definition packet_matches (packet : encoder_packet) (type' : obs_encoder_type)
    (audio_idx : nat) : bool :=
  obs_encoder_type_eqb (type packet) type' &&
  negb (obs_encoder_type_eqb type' OBS_ENCODER_AUDIO &&
        negb (Nat.eqb (track_idx packet) audio_idx)).

Fixpoint find_first_from (packets : list encoder_packet)
    (type' : obs_encoder_type) (audio_idx : nat) (i : Z) : Z :=
  match packets with
  | [] => -1
  | packet :: rest =>
      if packet_matches packet type' audio_idx then i
      else find_first_from rest type' audio_idx (i + 1)
  end.

Definition find_first_packet_type_idx (output : obs_output)
    (type' : obs_encoder_type) (audio_idx : nat) : Z :=
  find_first_from (interleaved_packets output) type' audio_idx 0.

(** The downward loop [for (i = num; i > 0; i--)] over [array[i - 1]]:
    [rev_packets] lists the packets from the last one down. *)
Fixpoint find_last_from (rev_packets : list encoder_packet)
    (type' : obs_encoder_type) (audio_idx : nat) (i : Z) : Z :=
  match rev_packets with
  | [] => -1
  | packet :: rest =>
      if packet_matches packet type' audio_idx then i - 1
      else find_last_from rest type' audio_idx (i - 1)
  end.

Definition find_last_packet_type_idx (output : obs_output)
    (type' : obs_encoder_type) (audio_idx : nat) : Z :=
  find_last_from (rev (interleaved_packets output)) type' audio_idx
    (Z.of_nat (length (interleaved_packets output))).

(** A pointer into the packet array, NULL being [None]. *)
Definition packet_at (output : obs_output) (idx : Z) : option encoder_packet :=
  if idx <? 0 then None
  else nth_error (interleaved_packets output) (Z.to_nat idx).

Definition find_first_packet_type (output : obs_output)
    (type' : obs_encoder_type) (audio_idx : nat) : option encoder_packet :=
  packet_at output (find_first_packet_type_idx output type' audio_idx).

Definition find_last_packet_type (output : obs_output)
    (type' : obs_encoder_type) (audio_idx : nat) : option encoder_packet :=
  packet_at output (find_last_packet_type_idx output type' audio_idx).

(** The loop of [get_interleaved_start_idx].  [first_video_idx] stands for the
    pointer [first_video]: a packet is [first_video] when it sits at that
    index.  Both callers have found a video packet before the call; with no
    video packet the source dereferences NULL, which the model leaves out
    ([first_video_ts] is then 0). *)
Fixpoint get_interleaved_start_loop (packets : list encoder_packet)
    (first_video_idx first_video_ts : Z) (i closest_diff video_idx idx : Z)
  : Z * Z :=
  match packets with
  | [] => (video_idx, idx)
  | packet :: rest =>
      match type packet with
      | OBS_ENCODER_VIDEO =>
          get_interleaved_start_loop rest first_video_idx first_video_ts
            (i + 1) closest_diff
            (if i =? first_video_idx then i else video_idx) idx
      | OBS_ENCODER_AUDIO =>
          let diff := Z.abs (dts_usec packet - first_video_ts) in
          if diff <? closest_diff
          then get_interleaved_start_loop rest first_video_idx first_video_ts
                 (i + 1) diff video_idx i
          else get_interleaved_start_loop rest first_video_idx first_video_ts
                 (i + 1) closest_diff video_idx idx
      end
  end.

Definition get_interleaved_start_idx (output : obs_output) : Z :=
  let closest_diff := 2 ^ 63 - 1 in
  let first_video_idx := find_first_packet_type_idx output OBS_ENCODER_VIDEO 0 in
  let first_video_ts :=
    match packet_at output first_video_idx with
    | Some first_video => dts_usec first_video
    | None => 0
    end in
  let '(video_idx, idx) :=
    get_interleaved_start_loop (interleaved_packets output)
      first_video_idx first_video_ts 0 closest_diff DARRAY_INVALID 0 in
  if video_idx <? idx then video_idx else idx.

(** The loop of [prune_premature_packets] over the audio mixes; [None] is the
    early [return -1]. *)
Fixpoint prune_premature_loop (output : obs_output) (video : encoder_packet)
    (mixes : list nat) (max_idx max_diff diff : Z) : option (Z * Z * Z) :=
  match mixes with
  | [] => Some (max_idx, max_diff, diff)
  | i :: rest =>
      let audio_idx := find_first_packet_type_idx output OBS_ENCODER_AUDIO i in
      match packet_at output audio_idx with
      | None => None
      | Some audio =>
          let max_idx := if audio_idx >? max_idx then audio_idx else max_idx in
          let diff := dts_usec audio - dts_usec video in
          let max_diff := if diff >? max_diff then diff else max_diff in
          prune_premature_loop output video rest max_idx max_diff diff
      end
  end.

Definition prune_premature_packets (output : obs_output) : obs_output * Z :=
  let audio_mixes := num_audio_mixes output in
  let video_idx := find_first_packet_type_idx output OBS_ENCODER_VIDEO 0 in
  match packet_at output video_idx with
  | None => (set_received_video false output, -1)
  | Some video =>
      let max_idx := video_idx in
      let duration_usec :=
        Z.quot (timebase_num video * 1000000) (timebase_den video) in
      match prune_premature_loop output video (seq 0 audio_mixes)
              max_idx 0 0 with
      | None => (set_received_audio false output, -1)
      | Some (max_idx, max_diff, diff) =>
          (output, if diff >? duration_usec then max_idx + 1 else 0)
      end
  end.

Definition discard_to_idx (output : obs_output) (idx : Z) : obs_output :=
  set_interleaved_packets
    (skipn (Z.to_nat idx) (interleaved_packets output)) output.

Definition prune_interleaved_packets (output : obs_output)
  : obs_output * bool :=
  let '(output, prune_start) := prune_premature_packets output in
  if prune_start =? -1 then (output, false)
  else
    let start_idx :=
      if negb (prune_start =? 0) then prune_start
      else get_interleaved_start_idx output in
    (if negb (start_idx =? 0) then discard_to_idx output start_idx else output,
     true).

(** [get_audio_and_video_packets]: the first video packet and the first packet
    of every audio mix, [None] when the function returns false. *)
Fixpoint first_audio_packets (output : obs_output) (mixes : list nat)
  : option (list encoder_packet) :=
  match mixes with
  | [] => Some []
  | i :: rest =>
      match find_first_packet_type output OBS_ENCODER_AUDIO i with
      | None => None
      | Some a =>
          match first_audio_packets output rest with
          | None => None
          | Some l => Some (a :: l)
          end
      end
  end.

Definition get_audio_and_video_packets (output : obs_output)
    (audio_mixes : nat)
  : obs_output * option (encoder_packet * list encoder_packet) :=
  let video := find_first_packet_type output OBS_ENCODER_VIDEO 0 in
  let output :=
    match video with
    | None => set_received_video false output
    | Some _ => output
    end in
  match first_audio_packets output (seq 0 audio_mixes) with
  | None => (set_received_audio false output, None)
  | Some audio =>
      match video with
      | None => (output, None)
      | Some v => (output, Some (v, audio))
      end
  end.

(** [audio_offsets[i] = audio[i]->dts] for every mix [i]. *)
Fixpoint store_audio_offsets (offsets : list Z) (audio : list encoder_packet)
  : list Z :=
  match audio, offsets with
  | [], _ => offsets
  | a :: audio', [] => []             (* no slot: more mixes than array cells *)
  | a :: audio', _ :: offsets' => dts a :: store_audio_offsets offsets' audio'
  end.

(** [last_audio[i]->dts_usec < video->dts_usec] for some mix [i]. *)
Definition audio_ends_before_video (output : obs_output)
    (video : encoder_packet) (audio_mixes : nat) : bool :=
  existsb
    (fun i =>
       match find_last_packet_type output OBS_ENCODER_AUDIO i with
       | Some last_audio => dts_usec last_audio <? dts_usec video
       | None => false
       end)
    (seq 0 audio_mixes).

Definition initialize_interleaved_packets (output : obs_output)
  : obs_output * bool :=
  let audio_mixes := num_audio_mixes output in
  match get_audio_and_video_packets output audio_mixes with
  | (output, None) => (output, false)
  | (output, Some (video, audio)) =>
      (* ensure that there is audio past the first video packet *)
      if audio_ends_before_video output video audio_mixes
      then (set_received_audio false output, false)
      else
        (* clear out excess starting audio if it hasn't been already *)
        let start_idx := get_interleaved_start_idx output in
        let refetched :=
          if negb (start_idx =? 0)
          then get_audio_and_video_packets
                 (discard_to_idx output start_idx) audio_mixes
          else (output, Some (video, audio)) in
        match refetched with
        | (output, None) => (output, false)
        | (output, Some (video, audio)) =>
            (* get new offsets *)
            let output := set_video_offset (pts video) output in
            let output :=
              set_audio_offsets
                (store_audio_offsets (audio_offsets output) audio) output in
            (* subtract offsets from highest TS offset variables *)
            let output :=
              match audio with
              | audio0 :: _ =>
                  set_highest_audio_ts
                    (highest_audio_ts output - dts_usec audio0) output
              | [] => output
              end in
            let output :=
              set_highest_video_ts
                (highest_video_ts output - dts_usec video) output in
            (* apply new offsets to all existing packet DTS/PTS values *)
            (set_interleaved_packets
               (map (apply_interleaved_packet_offset output)
                  (interleaved_packets output)) output,
             true)
        end
  end.

(** The index at which the loop of [insert_interleaved_packet] stops. *)
Fixpoint insert_interleaved_idx (packets : list encoder_packet)
    (out : encoder_packet) : nat :=
  match packets with
  | [] => 0%nat
  | cur_packet :: rest =>
      if (dts_usec out =? dts_usec cur_packet) && is_video out then 0%nat
      else if dts_usec out <? dts_usec cur_packet then 0%nat
      else S (insert_interleaved_idx rest out)
  end.

Definition da_insert {A : Type} (l : list A) (idx : nat) (x : A) : list A :=
  firstn idx l ++ x :: skipn idx l.

Definition insert_packet (packets : list encoder_packet)
    (out : encoder_packet) : list encoder_packet :=
  da_insert packets (insert_interleaved_idx packets out) out.

Definition insert_interleaved_packet (output : obs_output)
    (out : encoder_packet) : obs_output :=
  set_interleaved_packets
    (insert_packet (interleaved_packets output) out) output.

Definition resort_interleaved_packets (output : obs_output) : obs_output :=
  let old_array := interleaved_packets output in
  fold_left insert_interleaved_packet old_array
    (set_interleaved_packets [] output).

Fixpoint discard_unused_idx (packets : list encoder_packet) (ts : Z) : Z :=
  match packets with
  | [] => 0
  | p :: rest =>
      if dts_usec p >=? ts then 0 else 1 + discard_unused_idx rest ts
  end.

Definition discard_unused_audio_packets (output : obs_output) (ts : Z)
  : obs_output :=
  let idx := discard_unused_idx (interleaved_packets output) ts in
  if negb (idx =? 0) then discard_to_idx output idx else output.

(** ** Caption injector and emission *)

Section Interleaver.

(** [eia608_parity_varify] belongs to the caption library. *)
Variable eia608_parity_varify : Z -> bool.

(** The [while] loop of [add_caption] that drains the raw queue. *)
Fixpoint drain_caption_data (queue : list (Z * Z * Z)) : list (Z * Z) :=
  match queue with
  | [] => []
  | (b0, b1, b2) :: rest =>
      if negb (Z.land b0 3 =? 0) then drain_caption_data rest
      else
        let captionData := (Z.shiftl b1 8 + b2) mod 2 ^ 16 in
        if captionData =? 32896 then drain_caption_data rest    (* 0x8080 *)
        else if captionData =? 0 then drain_caption_data rest
        else if negb (eia608_parity_varify captionData)
             then drain_caption_data rest
        else (Z.land b0 3, captionData) :: drain_caption_data rest
  end.

Definition add_caption (output : obs_output) (out : encoder_packet)
  : obs_output * encoder_packet * bool :=
  if priority out >? 1 then (output, out, false)
  else
    let '(output, messages) :=
      match caption_data output with
      | _ :: _ =>
          (set_caption_data [] output,
           [sei_cea708 (drain_caption_data (caption_data output))])
      | [] =>
          match caption_head output with
          | head :: next =>
              (set_caption_head next output, [sei_caption_frame (text head)])
          | [] => (output, [])
          end
      end in
    (output, set_packet_data (data out ++ [nal_start; sei messages]) out, true).

Definition frame_timestamp_of (out : encoder_packet) : float :=
  (double_of_int64 (pts out * timebase_num out)
   / double_of_int64 (timebase_den out))%float.

(** The part of [send_interleaved] under [caption_mutex]. *)
Definition send_interleaved_captions (output : obs_output)
    (out : encoder_packet) : obs_output * encoder_packet :=
  let frame_timestamp := frame_timestamp_of out in
  let '(output, out) :=
    match caption_head output with
    | head :: _ =>
        if PrimFloat.leb (caption_timestamp output) frame_timestamp then
          let display_duration := display_duration head in
          let '(output, out, added) := add_caption output out in
          if added
          then (set_caption_timestamp
                  (frame_timestamp + display_duration)%float output, out)
          else (output, out)
        else (output, out)
    | [] => (output, out)
    end in
  match caption_data output with
  | _ :: _ =>
      if PrimFloat.ltb (last_caption_timestamp output) frame_timestamp then
        let output := set_last_caption_timestamp frame_timestamp output in
        let '(output, out, _) := add_caption output out in
        (output, out)
      else (output, out)
  | [] => (output, out)
  end.

(** [send_interleaved].  The source reads [array[0]] first; every caller has a
    packet in the buffer at that point, and on an empty buffer the model
    sends nothing. *)
Definition send_interleaved (output : obs_output) : obs_output :=
  match interleaved_packets output with
  | [] => output
  | out :: rest =>
      if negb (has_higher_opposing_ts output out) then output
      else
        let output := set_interleaved_packets rest output in
        let '(output, out) :=
          match type out with
          | OBS_ENCODER_VIDEO =>
              send_interleaved_captions
                (set_total_frames (total_frames output + 1) output) out
          | OBS_ENCODER_AUDIO => (output, out)
          end in
        set_sink (sink output ++ [out]) output
  end.

Definition interleave_packets (output : obs_output)
    (packet : encoder_packet) : obs_output :=
  if negb (active output) then output
  else
    let packet :=
      match type packet with
      | OBS_ENCODER_AUDIO =>
          set_packet_track_idx (get_track_index output packet) packet
      | OBS_ENCODER_VIDEO => packet
      end in
    (* if first video frame is not a keyframe, discard until received *)
    if negb (received_video output) && is_video packet
       && negb (keyframe packet)
    then discard_unused_audio_packets output (dts_usec packet)
    else
      let was_started := received_audio output && received_video output in
      let out := packet in
      let out :=
        if was_started then apply_interleaved_packet_offset output out
        else out in
      let output :=
        if was_started then output else check_received output packet in
      let output := insert_interleaved_packet output out in
      let output := set_higher_ts output out in
      if received_audio output && received_video output then
        if negb was_started then
          match prune_interleaved_packets output with
          | (output, true) =>
              match initialize_interleaved_packets output with
              | (output, true) =>
                  send_interleaved (resort_interleaved_packets output)
              | (output, false) => output
              end
          | (output, false) => output
          end
        else send_interleaved output
      else output.

End Interleaver.

(** [CAPTION_LINE_BYTES] is declared in a header that is not among the
    sources; the text API takes it as a parameter. *)
Section CaptionText.

Variable CAPTION_LINE_BYTES : nat.

(** [caption_text_new] appended to the list: [snprintf] keeps at most
    [CAPTION_LINE_BYTES] bytes of the text. *)
Definition caption_text_new (text' : string) (display_duration' : float)
    (captions : list caption_text) : list caption_text :=
  captions
  ++ [{| text := substring 0 CAPTION_LINE_BYTES text';
         display_duration := display_duration' |}].

Definition obs_output_output_caption_text2 (output : option obs_output)
    (text' : string) (display_duration' : float) : option obs_output :=
  match output with
  | None => None
  | Some o =>
      if negb (active o) then Some o
      else Some (set_caption_head
                   (caption_text_new text' display_duration' (caption_head o))
                   o)
  end.

Definition obs_output_output_caption_text1 (output : option obs_output)
    (text' : string) : option obs_output :=
  match output with
  | None => None
  | Some _ => obs_output_output_caption_text2 output text' 2%float
  end.

End CaptionText.

(** ** Pause controller *)

Definition set_ts_start (v : Z) (p : pause_data) : pause_data :=
  {| last_video_ts := last_video_ts p; ts_start := v; ts_end := ts_end p;
     ts_offset := ts_offset p |}.

Definition end_pause (pause : pause_data) (ts : Z) : pause_data :=
  if ts_end pause =? 0 then
    {| last_video_ts := last_video_ts pause; ts_start := ts_start pause;
       ts_end := ts;
       ts_offset := wrap_u64 (ts_offset pause + wrap_u64 (ts - ts_start pause)) |}
  else pause.

Definition pause_can_start (pause : pause_data) : bool :=
  (ts_start pause =? 0) && (ts_end pause =? 0).

Definition pause_can_stop (pause : pause_data) : bool :=
  negb (ts_start pause =? 0) && (ts_end pause =? 0).

Definition encoder_set_pause (paused' : bool) (pause' : pause_data)
    (e : obs_encoder.t) : obs_encoder.t :=
  {| obs_encoder.addr := obs_encoder.addr e; obs_encoder.paused := paused';
     obs_encoder.pause := pause' |}.

Section Pause.

(** [obs->video.video_frame_interval_ns] and the value [os_gettime_ns ()]
    returns at the call. *)
Variable video_frame_interval_ns : Z.
Variable os_gettime_ns : Z.

Definition get_closest_v_ts (pause : pause_data) : Z :=
  let interval := video_frame_interval_ns in
  let i2 := wrap_u64 (interval * 2) in
  let ts := os_gettime_ns in
  wrap_u64
    (last_video_ts pause +
     wrap_u64
       (wrap_u64 (wrap_u64 (ts - last_video_ts pause) + i2) / interval
        * interval)).

(** [aenc[i] && !check (&aenc[i]->pause)] for some [i]. *)
Definition some_audio_encoder_fails (check : pause_data -> bool)
    (aenc : list (option obs_encoder.t)) : bool :=
  existsb
    (fun a =>
       match a with
       | Some e => negb (check (obs_encoder.pause e))
       | None => false
       end) aenc.

(** [obs_encoded_output_pause]; [None] when the video encoder is NULL, which
    the source dereferences.  The encoders bound to the output are distinct
    objects. *)
Definition obs_encoded_output_pause (output : obs_output) (pause' : bool)
  : option (obs_output * bool) :=
  match video_encoder output with
  | None => None
  | Some venc =>
      let aenc := audio_encoders output in
      let closest_v_ts := get_closest_v_ts (obs_encoder.pause venc) in
      if pause' then
        if negb (pause_can_start (obs_encoder.pause venc))
        then Some (output, false)
        else if some_audio_encoder_fails pause_can_start aenc
        then Some (output, false)
        else
          let start e :=
            encoder_set_pause true
              (set_ts_start closest_v_ts (obs_encoder.pause e)) e in
          Some (set_audio_encoders (map (option_map start) aenc)
                  (set_video_encoder (Some (start venc)) output), true)
      else
        if negb (pause_can_stop (obs_encoder.pause venc))
        then Some (output, false)
        else if some_audio_encoder_fails pause_can_stop aenc
        then Some (output, false)
        else
          let stop e :=
            encoder_set_pause false
              (end_pause (obs_encoder.pause e) closest_v_ts) e in
          Some (set_audio_encoders (map (option_map stop) aenc)
                  (set_video_encoder (Some (stop venc)) output), true)
  end.

Definition obs_raw_output_pause (output : obs_output) (pause' : bool)
  : obs_output * bool :=
  let closest_v_ts := get_closest_v_ts (pause output) in
  if pause' then
    let success := pause_can_start (pause output) in
    (if success
     then set_pause (set_ts_start closest_v_ts (pause output)) output
     else output, success)
  else
    let success := pause_can_stop (pause output) in
    (if success
     then set_pause (end_pause (pause output) closest_v_ts) output
     else output, success).

(** [obs_output_pause] on a possibly-NULL handle; the outer [None] is the
    NULL video encoder of [obs_encoded_output_pause]. *)
Definition obs_output_pause (output : option obs_output) (pause' : bool)
  : option (option obs_output * bool) :=
  match output with
  | None => Some (None, false)
  | Some o =>
      if Z.land (info_flags o) OBS_OUTPUT_CAN_PAUSE =? 0
      then Some (Some o, false)
      else if negb (active o) then Some (Some o, false)
      else if Bool.eqb (paused o) pause' then Some (Some o, true)
      else
        let result :=
          if negb (Z.land (info_flags o) OBS_OUTPUT_ENCODED =? 0)
          then obs_encoded_output_pause o pause'
          else Some (obs_raw_output_pause o pause') in
        match result with
        | None => None
        | Some (o, true) =>
            Some (Some (do_output_signal (if pause' then "pause" else "unpause")
                          (set_paused pause' o)), true)
        | Some (o, false) => Some (Some o, false)
        end
  end.

End Pause.

(** ** Mixer setters *)

(** [(size_t)a << n].  C leaves the shift undefined for a count of 64 or
    more; the model takes the count modulo 64, as the shift instruction of
    the 64-bit targets does. *)
Definition shl_size_t (a n : Z) : Z := wrap_u64 (Z.shiftl a (n mod 64)).

Definition obs_output_set_mixer (output : option obs_output) (mixer_idx : Z)
  : option obs_output :=
  match output with
  | None => None
  | Some o =>
      if negb (active o)
      then Some (set_mixer_mask (shl_size_t 1 mixer_idx) o)
      else Some o
  end.

Definition obs_output_set_mixers (output : option obs_output) (mixers : Z)
  : option obs_output :=
  match output with
  | None => None
  | Some o => Some (set_mixer_mask mixers o)
  end.

(** ** Stop path and reconnect controller *)

Definition signal_stop (output : obs_output) : obs_output :=
  set_signals (signals output ++ [signal_stop_code (stop_code output)]) output.

Definition signal_reconnect (output : obs_output) : obs_output :=
  set_signals
    (signals output
     ++ [signal_reconnect_timeout (reconnect_retry_cur_msec output / 1000)])
    output.

Section Stop.

(** [obs_output_cleanup_delay] belongs to the delay buffer, which is not among
    the sources: it is taken as a function of the two delay counters of the
    output, [active_delay_ns] and [delay_restart_refs]. *)
Variable obs_output_cleanup_delay : Z -> Z -> Z * Z.

(** What [pthread_create] returns when asked to start
    [end_data_capture_thread], what it returns when asked to start
    [reconnect_thread], and what the sink's [start] returns. *)
Variable end_thread_create_ret : Z.
Variable pthread_create_ret : Z.
Variable info_start : bool.

(** [end_data_capture_thread], the body of the worker.  Stopping the encoders
    or the raw feeds and deactivating the service act on the collaborators
    only. *)
Definition end_data_capture_thread (output : obs_output) : obs_output :=
  let output :=
    if negb (active_delay_ns output =? 0) then
      let '(ns, refs) :=
        obs_output_cleanup_delay (active_delay_ns output)
          (delay_restart_refs output) in
      set_delay_restart_refs refs (set_active_delay_ns ns output)
    else output in
  let output := do_output_signal "deactivate" output in
  let output := set_active false output in
  let output := set_stopping_event true output in
  set_end_data_capture_thread_active false output.

(** [pthread_join] on the worker: a worker that was created and has not run
    yet ([end_data_capture_thread_active] is still set) runs to completion. *)
Definition join_end_data_capture_thread (output : obs_output) : obs_output :=
  if end_data_capture_thread_active output
  then end_data_capture_thread output
  else output.

(** [obs_output_end_data_capture_internal].  When [pthread_create] succeeds
    the function returns with the worker created and yet to run; when it
    fails the function runs the body of the worker itself. *)
Definition obs_output_end_data_capture_internal (output : obs_output)
    (signal' : bool) : obs_output :=
  if negb (active output) || negb (data_active output) then
    if signal' then
      let output := signal_stop output in
      let output := set_stop_code OBS_OUTPUT_SUCCESS output in
      set_stopping_event true output
    else output
  else
    let delayed := delay_active output in
    let output :=
      if delayed then set_delay_capturing false output else output in
    if delayed && negb (delay_restart_refs output =? 0) then
      set_stopping_event true output
    else
      let output :=
        if delayed then set_delay_active false output else output in
      let output := set_data_active false output in
      let output := join_end_data_capture_thread output in
      let output := set_end_data_capture_thread_active true output in
      let output :=
        if negb (end_thread_create_ret =? 0)
        then end_data_capture_thread output
        else output in
      if signal' then
        let output := signal_stop output in
        set_stop_code OBS_OUTPUT_SUCCESS output
      else output.

Definition obs_output_end_data_capture (output : obs_output) : obs_output :=
  obs_output_end_data_capture_internal output true.

Definition output_reconnect (output : obs_output) : obs_output :=
  let output :=
    if negb (reconnecting output) then
      set_reconnect_retries 0
        (set_reconnect_retry_cur_msec
           (wrap_u32 (reconnect_retry_sec output * 1000)) output)
    else output in
  if reconnect_retries output >=? reconnect_retry_max output then
    let output := set_stop_code OBS_OUTPUT_DISCONNECTED output in
    let output := set_reconnecting false output in
    let output :=
      if delay_active output then set_delay_active false output
      else output in
    obs_output_end_data_capture output
  else
    let output :=
      if negb (reconnecting output)
      then set_reconnect_stop_event false (set_reconnecting true output)
      else output in
    let output :=
      if negb (reconnect_retries output =? 0) then
        let msec :=
          wrap_u32
            (uint32_of_float32
               (float32_mul
                  (float32_of_uint32 (reconnect_retry_cur_msec output))
                  (reconnect_retry_exp output))) in
        set_reconnect_retry_cur_msec
          (if msec >? RECONNECT_RETRY_MAX_MSEC
           then RECONNECT_RETRY_MAX_MSEC else msec) output
      else output in
    let output := set_reconnect_retries (reconnect_retries output + 1) output in
    let output := set_stop_code OBS_OUTPUT_DISCONNECTED output in
    let output :=
      if pthread_create_ret =? 0
      then set_signals
             (signals output
              ++ [reconnect_thread_created (reconnect_retry_cur_msec output)])
             output
      else output in
    if pthread_create_ret <? 0 then set_reconnecting false output
    else signal_reconnect output.

Definition can_reconnect (output : obs_output) (code : Z) : bool :=
  let reconnect_active := negb (reconnect_retry_max output =? 0) in
  (reconnecting output && negb (code =? OBS_OUTPUT_SUCCESS))
  || (reconnect_active && (code =? OBS_OUTPUT_DISCONNECTED)).

Definition obs_output_signal_stop (output : option obs_output) (code : Z)
  : option obs_output :=
  match output with
  | None => None
  | Some output =>
      let output := set_stop_code code output in
      if can_reconnect output code then
        let output :=
          if delay_active output
          then set_delay_restart_refs (delay_restart_refs output + 1) output
          else output in
        let output := obs_output_end_data_capture_internal output false in
        Some (output_reconnect output)
      else
        let output :=
          if delay_active output then set_delay_active false output
          else output in
        Some (obs_output_end_data_capture output)
  end.

(** [obs_output_actual_start]; the wait on [stopping_event] has returned: a
    worker that was to signal the event has run. *)
Definition obs_output_actual_start (output : obs_output)
  : obs_output * bool :=
  let output := set_stop_code 0 output in
  let success := if context_data output then info_start else false in
  let output :=
    if negb (delay_restart_refs output =? 0)
    then set_delay_restart_refs (delay_restart_refs output - 1) output
    else output in
  let output := set_caption_timestamp 0%float output in
  (set_caption_data [] output, success).

(** [reconnect_thread] once its timed wait on [reconnect_stop_event] is over:
    the wait timed out unless the event was signalled. *)
Definition reconnect_thread (output : obs_output) : obs_output :=
  let output := set_reconnect_thread_active true output in
  let output :=
    if negb (reconnect_stop_event output)
    then fst (obs_output_actual_start output)
    else output in
  let output :=
    if negb (reconnect_stop_event output) then output   (* pthread_detach *)
    else set_reconnecting false output in
  set_reconnect_thread_active false output.

End Stop.

(** ** Order of the interleave buffer *)

(** [out] belongs before [cur]: the two tests that end the loop of
    [insert_interleaved_packet]. *)
Definition goes_before (out cur : encoder_packet) : Prop :=
  dts_usec out < dts_usec cur
  \/ (type out = OBS_ENCODER_VIDEO /\ dts_usec out = dts_usec cur).

(** The order the buffer is kept in: by [dts_usec], and at equal [dts_usec]
    no audio packet before a video packet. *)
Definition packet_le (p q : encoder_packet) : Prop :=
  dts_usec p < dts_usec q
  \/ (dts_usec p = dts_usec q
      /\ (type p = OBS_ENCODER_VIDEO \/ type q = OBS_ENCODER_AUDIO)).

Definition ordered (packets : list encoder_packet) : Prop :=
  StronglySorted packet_le packets.

(** The order as a test. *)
Definition packet_leb (p q : encoder_packet) : bool :=
  (dts_usec p <? dts_usec q)
  || ((dts_usec p =? dts_usec q) && (is_video p || negb (is_video q))).

Fixpoint orderedb (packets : list encoder_packet) : bool :=
  match packets with
  | [] => true
  | p :: rest => forallb (packet_leb p) rest && orderedb rest
  end.

(** ** Scenarios of the specification *)

Definition no_pause : pause_data :=
  {| last_video_ts := 0; ts_start := 0; ts_end := 0; ts_offset := 0 |}.

Definition encoder_at (a : nat) : obs_encoder.t :=
  {| obs_encoder.addr := a; obs_encoder.paused := false;
     obs_encoder.pause := no_pause |}.

(** An active encoded audio and video output with one audio track, as
    [obs_output_begin_data_capture] leaves it: the packet data reset, nothing
    received, nothing sent. *)
Definition started_output : obs_output :=
  {| info_flags := OBS_OUTPUT_VIDEO + OBS_OUTPUT_AUDIO + OBS_OUTPUT_ENCODED;
     context_data := true;
     active := true; reconnecting := false; delay_active := false;
     delay_capturing := false; data_active := true; paused := false;
     end_data_capture_thread_active := false; stopping_event := false;
     reconnect_stop_event := false; reconnect_thread_active := false;
     stop_code := 0;
     reconnect_retry_sec := 2; reconnect_retry_max := 20;
     reconnect_retries := 0; reconnect_retry_cur_msec := 0;
     reconnect_retry_exp := float32_1_5;
     delay_restart_refs := 0; active_delay_ns := 0;
     mixer_mask := 1;
     pause := no_pause;
     video_encoder := Some (encoder_at 100);
     audio_encoders :=
       [Some (encoder_at 1); None; None; None; None; None; None; None];
     interleaved_packets := [];
     received_audio := false; received_video := false;
     highest_audio_ts := 0; highest_video_ts := 0;
     video_offset := 0; audio_offsets := [0; 0; 0; 0; 0; 0; 0; 0];
     total_frames := 0;
     caption_head := []; caption_data := [];
     caption_timestamp := 0%float; last_caption_timestamp := 0%float;
     signals := []; sink := [] |}.

(** A packet as an encoder hands it over: [dts_usec] derived from [dts]. *)
Definition packet_of (type' : obs_encoder_type) (dts' pts' num den : Z)
    (keyframe' : bool) (encoder' : nat) : encoder_packet :=
  {| data := [payload []]; pts := pts'; dts := dts';
     timebase_num := num; timebase_den := den; type := type';
     keyframe := keyframe';
     dts_usec := Z.quot (dts' * 1000000 * num) den;
     priority := 0; track_idx := 0%nat; encoder := Some encoder' |}.

(** Video packets of the encoder at 100, time base 1/30 (one frame is
    33333 microseconds); audio packets of the encoder at [e], time base
    1/1000. *)
Definition video_packet (dts' pts' : Z) : encoder_packet :=
  packet_of OBS_ENCODER_VIDEO dts' pts' 1 30 true 100.

Definition audio_packet_of (e : nat) (track : nat) (dts' : Z) : encoder_packet :=
  set_packet_track_idx track
    (packet_of OBS_ENCODER_AUDIO dts' dts' 1 1000 true e).

Definition audio_packet (dts' : Z) : encoder_packet := audio_packet_of 1 0 dts'.

(** No parity failure: the raw caption queue is empty in the scenarios. *)
Definition parity_ok (cc_data : Z) : bool := true.

(** The timestamps of a packet list, with the packet types. *)
Definition timeline (packets : list encoder_packet)
  : list (obs_encoder_type * Z) :=
  map (fun p => (type p, dts_usec p)) packets.

(** S2: audio at -200000, -100000 and 0, video at 0 and 33333, in the order
    [insert_interleaved_packet] gives them, at the moment both streams have
    been received. *)
Definition s2_packets : list encoder_packet :=
  [audio_packet (-200); audio_packet (-100); audio_packet 0;
   video_packet 0 0; video_packet 1 1].

Definition s2_output : obs_output :=
  set_received_audio true
    (set_received_video true
       (set_highest_video_ts 33333
          (resort_interleaved_packets
             (set_interleaved_packets s2_packets started_output)))).

(** S2 after the pruning, with audio received up to 23 ms: the video packet
    and the audio packet at 0 head the buffer. *)
Definition s2_tie : obs_output :=
  set_highest_audio_ts 23000 (discard_to_idx s2_output 2).

(** The same five packets laid out as the scenario numbers them, the first
    video packet at index 3. *)
Definition s2_output_as_numbered : obs_output :=
  set_received_audio true
    (set_received_video true
       (set_highest_video_ts 33333
          (set_interleaved_packets s2_packets started_output))).

(** The callback run over a list of arriving packets. *)
Definition interleave_all (output : obs_output)
    (arrivals : list encoder_packet) : obs_output :=
  fold_left (interleave_packets parity_ok) arrivals output.

(** A multi-track output with two audio encoders, at 1 and at 2. *)
Definition two_track_output : obs_output :=
  set_audio_encoders
    [Some (encoder_at 1); Some (encoder_at 2); None; None; None; None; None;
     None]
    {| info_flags :=
         OBS_OUTPUT_VIDEO + OBS_OUTPUT_AUDIO + OBS_OUTPUT_ENCODED
         + OBS_OUTPUT_MULTI_TRACK;
       context_data := context_data started_output;
       active := true; reconnecting := false; delay_active := false;
       delay_capturing := false; data_active := true; paused := false;
       end_data_capture_thread_active := false; stopping_event := false;
       reconnect_stop_event := false; reconnect_thread_active := false;
       stop_code := 0;
       reconnect_retry_sec := 2; reconnect_retry_max := 20;
       reconnect_retries := 0; reconnect_retry_cur_msec := 0;
       reconnect_retry_exp := float32_1_5;
       delay_restart_refs := 0; active_delay_ns := 0;
       mixer_mask := 1;
       pause := no_pause;
       video_encoder := Some (encoder_at 100);
       audio_encoders := [];
       interleaved_packets := [];
       received_audio := false; received_video := false;
       highest_audio_ts := 0; highest_video_ts := 0;
       video_offset := 0; audio_offsets := [0; 0; 0; 0; 0; 0; 0; 0];
       total_frames := 0;
       caption_head := []; caption_data := [];
       caption_timestamp := 0%float; last_caption_timestamp := 0%float;
       signals := []; sink := [] |}.

(** Two tracks whose first packets lie 100 ms (track 0) and 10 ms (track 1)
    after the first video packet: the packets in arrival order, and the
    output at the moment the third one has been inserted and both streams
    count as received. *)
Definition late_track_arrivals : list encoder_packet :=
  [video_packet 0 0; audio_packet_of 2 0 10; audio_packet_of 1 0 100].

Definition late_track_output : obs_output :=
  set_received_audio true
    (set_received_video true
       (set_highest_audio_ts 100000
          (set_interleaved_packets
             [video_packet 0 0; audio_packet_of 2 1 10;
              audio_packet_of 1 0 100]
             two_track_output))).

(** The pruning decision in the words of the specification: [max_diff], the
    largest distance of a track's first audio packet from the first video
    packet, is what is compared with the duration of one video frame. *)
Definition prune_start_by_max_diff (output : obs_output) : Z :=
  let video_idx := find_first_packet_type_idx output OBS_ENCODER_VIDEO 0 in
  match packet_at output video_idx with
  | None => -1
  | Some video =>
      let duration_usec :=
        Z.quot (timebase_num video * 1000000) (timebase_den video) in
      match prune_premature_loop output video
              (seq 0 (num_audio_mixes output)) video_idx 0 0 with
      | None => -1
      | Some (max_idx, max_diff, _) =>
          if max_diff >? duration_usec then max_idx + 1 else 0
      end
  end.

(** A run with one audio track in which the first video packet is presented
    two frames after it is decoded (dts 100, pts 102), as with B-frames.
    Three video packets arrive, then seven audio packets 23 ms apart, then
    the fourth video packet. *)
Definition early_audio_arrivals : list encoder_packet :=
  [video_packet 100 102; video_packet 101 103; video_packet 102 104;
   audio_packet 3340; audio_packet 3363; audio_packet 3386;
   audio_packet 3409; audio_packet 3432; audio_packet 3455;
   audio_packet 3478; video_packet 103 105].

(** The [dts] of the packets of one encoder, in arrival order. *)
Definition dts_of_encoder (e : nat) (arrivals : list encoder_packet) : list Z :=
  map dts (filter (fun p => pointer_eqb (encoder p) (Some e)) arrivals).

Fixpoint nondecreasing (l : list Z) : bool :=
  match l with
  | x :: (y :: _) as rest => (x <=? y) && nondecreasing rest
  | _ => true
  end.

(** An active raw (not encoded) output that can pause. *)
Definition raw_output : obs_output :=
  {| info_flags := OBS_OUTPUT_VIDEO + OBS_OUTPUT_AUDIO + OBS_OUTPUT_CAN_PAUSE;
     context_data := true;
     active := true; reconnecting := false; delay_active := false;
     delay_capturing := false; data_active := true; paused := false;
     end_data_capture_thread_active := false; stopping_event := false;
     reconnect_stop_event := false; reconnect_thread_active := false;
     stop_code := 0;
     reconnect_retry_sec := 2; reconnect_retry_max := 20;
     reconnect_retries := 0; reconnect_retry_cur_msec := 0;
     reconnect_retry_exp := float32_1_5;
     delay_restart_refs := 0; active_delay_ns := 0;
     mixer_mask := 1;
     pause := no_pause;
     video_encoder := None;
     audio_encoders := [None; None; None; None; None; None; None; None];
     interleaved_packets := [];
     received_audio := false; received_video := false;
     highest_audio_ts := 0; highest_video_ts := 0;
     video_offset := 0; audio_offsets := [0; 0; 0; 0; 0; 0; 0; 0];
     total_frames := 0;
     caption_head := []; caption_data := [];
     caption_timestamp := 0%float; last_caption_timestamp := 0%float;
     signals := []; sink := [] |}.

(** S4: the last video frame at 1_000_000_000 ns, a frame interval of
    33_333_333 ns, the pause requested at 1_050_000_000 ns. *)
Definition s4_interval : Z := 33333333.
Definition s4_now : Z := 1050000000.

Definition s4_output : obs_output :=
  set_pause
    {| last_video_ts := 1000000000; ts_start := 0; ts_end := 0;
       ts_offset := 0 |} raw_output.

(** The retries a signal log schedules: the waits of the reconnect threads
    it created, oldest first. *)
Definition scheduled_delays (log : list event) : list Z :=
  flat_map
    (fun e => match e with reconnect_thread_created msec => [msec] | _ => [] end)
    log.

(** The retries already made, as [output_reconnect] counts them: it starts
    from 0 unless the output is reconnecting. *)
Definition retries_made (output : obs_output) : Z :=
  if reconnecting output then reconnect_retries output else 0.

(** The stop finalized, in the words of the specification: the stop code
    stored, the delay switched off, [obs_output_end_data_capture] called. *)
Definition finalize_stop (cleanup : Z -> Z -> Z * Z) (end_thread_ret : Z)
    (output : obs_output) (code : Z) : obs_output :=
  let output := set_stop_code code output in
  let output :=
    if delay_active output then set_delay_active false output else output in
  obs_output_end_data_capture cleanup end_thread_ret output.

(** The clean-up of the delay buffer as the scenarios need it: it leaves
    both delay counters at 0. *)
Definition delay_cleared (ns refs : Z) : Z * Z := (0, 0).

(** S5: at most 3 retries, 2 seconds, factor 1.5.  A notification is the
    sink calling [obs_output_signal_stop] with [OBS_OUTPUT_DISCONNECTED],
    thread creation succeeding; between two notifications the worker that
    ends the data capture, if the notification created one, runs, and then
    the reconnect thread wakes up and restarts the sink. *)
Definition s5_output : obs_output := set_reconnect_retry_max 3 started_output.

Definition disconnect_notified (output : obs_output) : obs_output :=
  match obs_output_signal_stop delay_cleared 0 0 (Some output)
          OBS_OUTPUT_DISCONNECTED with
  | Some output' => output'
  | None => output
  end.

Definition s5_retry (output : obs_output) : obs_output :=
  reconnect_thread true
    (join_end_data_capture_thread delay_cleared (disconnect_notified output)).

Definition s5_after_three_retries : obs_output :=
  s5_retry (s5_retry (s5_retry s5_output)).

Definition s5_given_up : obs_output :=
  disconnect_notified s5_after_three_retries.

(** An output with an active 5 second delay and a retry maximum of -1, as
    [obs_output_set_reconnect_settings] stores it unchecked. *)
Definition negative_max_output : obs_output :=
  set_reconnect_retry_max (-1)
    (set_delay_active true
       (set_delay_capturing true
          (set_active_delay_ns 5000000000 started_output))).

(** S6: video frames at 10.0, 10.5, 11.0 and 12.0 seconds (pts 300, 315, 330
    and 360 in the time base 1/30) wait in the buffer of an initialized
    output whose audio has reached 13 seconds; "HELLO" and then "WORLD" are
    queued, each to be displayed for 2.0 seconds. *)
Definition s6_buffered : obs_output :=
  set_received_audio true
    (set_received_video true
       (set_highest_audio_ts 13000000
          (set_highest_video_ts 12000000
             (set_interleaved_packets
                [video_packet 300 300; video_packet 315 315;
                 video_packet 330 330; video_packet 360 360]
                started_output)))).

Definition s6_output : obs_output :=
  match obs_output_output_caption_text1 128 (Some s6_buffered) "HELLO" with
  | Some o =>
      match obs_output_output_caption_text2 128 (Some o) "WORLD" 2%float with
      | Some o' => o'
      | None => o
      end
  | None => s6_buffered
  end.

(** The output after [n] calls of [send_interleaved]. *)
Fixpoint s6_sent (n : nat) : obs_output :=
  match n with
  | O => s6_output
  | S k => send_interleaved parity_ok (s6_sent k)
  end.

(** ** More of the output: runs, counters, mixers, encoders *)

(** The callback run over a list of arriving packets, whatever the parity
    check of the caption library. *)
Definition interleave_run (eia608_parity_varify : Z -> bool)
    (output : obs_output) (arrivals : list encoder_packet) : obs_output :=
  fold_left (interleave_packets eia608_parity_varify) arrivals output.

(** How many packets of a list are video packets. *)
Definition count_video (packets : list encoder_packet) : Z :=
  Z.of_nat (length (filter is_video packets)).

(** The packet as the callback inserts it once both streams have been
    received: the track resolved for audio, the offsets subtracted. *)
Definition inserted_packet (output : obs_output) (packet : encoder_packet)
  : encoder_packet :=
  apply_interleaved_packet_offset output
    match type packet with
    | OBS_ENCODER_AUDIO =>
        set_packet_track_idx (get_track_index output packet) packet
    | OBS_ENCODER_VIDEO => packet
    end.

(** The high-water mark of a packet type. *)
Definition highest_ts (output : obs_output) (type' : obs_encoder_type) : Z :=
  match type' with
  | OBS_ENCODER_VIDEO => highest_video_ts output
  | OBS_ENCODER_AUDIO => highest_audio_ts output
  end.

(** The state in which emission is monotone: the output is active and past
    initialization, the buffer is ordered, no buffered packet lies above the
    high-water mark of its type, nothing sent lies above either mark or above
    a buffered packet, and what was sent does not decrease. *)
Definition emission_invariant (output : obs_output) : Prop :=
  active output = true
  /\ received_audio output = true
  /\ received_video output = true
  /\ ordered (interleaved_packets output)
  /\ Forall (fun b => dts_usec b <= highest_ts output (type b))
       (interleaved_packets output)
  /\ Forall (fun s => dts_usec s <= highest_video_ts output
                      /\ dts_usec s <= highest_audio_ts output)
       (sink output)
  /\ Forall (fun s => Forall (fun b => dts_usec s <= dts_usec b)
                        (interleaved_packets output))
       (sink output)
  /\ StronglySorted Z.le (map dts_usec (sink output)).

(** Arrivals in time: every packet, as it is inserted, is not earlier than
    the high-water mark of its type at that moment. *)
Fixpoint arrivals_in_time (eia608_parity_varify : Z -> bool)
    (output : obs_output) (arrivals : list encoder_packet) : Prop :=
  match arrivals with
  | [] => True
  | p :: rest =>
      highest_ts output (type p) <= dts_usec (inserted_packet output p)
      /\ arrivals_in_time eia608_parity_varify
           (interleave_packets eia608_parity_varify output p) rest
  end.

(** An output initialized on a video and an audio packet that start
    together, and packets that then arrive in time. *)
Definition aligned_output : obs_output :=
  interleave_run parity_ok started_output [video_packet 0 0; audio_packet 0].

Definition timely_arrivals : list encoder_packet :=
  [audio_packet 23; video_packet 1 1; audio_packet 46; video_packet 2 2;
   audio_packet 69].

(** The position of the first packet of a list that has the wanted type and
    track, counted from the head. *)
Fixpoint first_match (packets : list encoder_packet)
    (type' : obs_encoder_type) (audio_idx : nat) : option nat :=
  match packets with
  | [] => None
  | packet :: rest =>
      if packet_matches packet type' audio_idx then Some 0%nat
      else option_map S (first_match rest type' audio_idx)
  end.

(** A packet has the wanted type and, if that is audio, the wanted track. *)
Definition wanted (type' : obs_encoder_type) (audio_idx : nat)
    (packet : encoder_packet) : Prop :=
  type packet = type'
  /\ (type' = OBS_ENCODER_AUDIO -> track_idx packet = audio_idx).

(** The encoder a slot holds, if any, and the encoders an output is bound
    to: the video encoder, then the audio encoders by slot. *)
Definition bound_encoder (slot : option obs_encoder.t) : list obs_encoder.t :=
  match slot with
  | Some e => [e]
  | None => []
  end.

Definition bound_encoders (output : obs_output) : list obs_encoder.t :=
  bound_encoder (video_encoder output)
  ++ flat_map bound_encoder (audio_encoders output).

(** ** Mixer and encoder getters *)

(** The loop of [get_first_mixer] over the mixer indices. *)
Fixpoint get_first_mixer_from (mixer_mask' : Z) (idxs : list nat) : Z :=
  match idxs with
  | [] => 0
  | i :: rest =>
      if negb (Z.land (wrap_u64 (Z.shiftl 1 (Z.of_nat i))) mixer_mask' =? 0)
      then Z.of_nat i
      else get_first_mixer_from mixer_mask' rest
  end.

Definition get_first_mixer (output : obs_output) : Z :=
  get_first_mixer_from (mixer_mask output) (seq 0 MAX_AUDIO_MIXES).

Definition obs_output_get_mixer (output : option obs_output) : Z :=
  match output with
  | None => 0
  | Some o => get_first_mixer o
  end.

(** [audio_encoders[idx]], NULL beyond the array of the model. *)
Definition audio_encoder_at (output : obs_output) (idx : nat)
  : option obs_encoder.t :=
  nth idx (audio_encoders output) None.

(** The index test [obs_output_set_audio_encoder] and
    [obs_output_get_audio_encoder] share. *)
Definition audio_encoder_idx_valid (output : obs_output) (idx : nat) : bool :=
  if has_flag (info_flags output) OBS_OUTPUT_MULTI_TRACK
  then Nat.ltb idx MAX_AUDIO_MIXES
  else Nat.eqb idx 0.

Definition da_set {A : Type} (l : list A) (idx : nat) (x : A) : list A :=
  firstn idx l ++ x :: skipn (S idx) l.

(** [obs_output_set_audio_encoder].  [encoder_type] is [encoder->info.type]
    of the encoder passed, which the encoder record of the model does not
    carry; attaching the output to the encoder and detaching it act on the
    encoders only. *)
Definition obs_output_set_audio_encoder (output : option obs_output)
    (encoder : option obs_encoder.t) (encoder_type : obs_encoder_type)
    (idx : nat) : option obs_output :=
  match output with
  | None => None
  | Some o =>
      if match encoder with
         | Some _ => negb (obs_encoder_type_eqb encoder_type OBS_ENCODER_AUDIO)
         | None => false
         end
      then Some o
      else if active o then Some o
      else if negb (audio_encoder_idx_valid o idx) then Some o
      else if pointer_eqb (option_map obs_encoder.addr (audio_encoder_at o idx))
                (option_map obs_encoder.addr encoder)
      then Some o
      else Some (set_audio_encoders (da_set (audio_encoders o) idx encoder) o)
  end.

Definition obs_output_get_audio_encoder (output : option obs_output)
    (idx : nat) : option obs_encoder.t :=
  match output with
  | None => None
  | Some o =>
      if negb (audio_encoder_idx_valid o idx) then None
      else audio_encoder_at o idx
  end.

(** [audio_valid]; [has_audio] is [output->audio != NULL], the raw audio
    output the record of the model does not carry. *)
Definition audio_valid (output : obs_output) (has_audio : bool)
    (encoded : bool) : bool :=
  if encoded then
    let mix_count := num_audio_mixes output in
    if Nat.eqb mix_count 0 then false
    else
      forallb
        (fun i =>
           match audio_encoder_at output i with
           | Some _ => true
           | None => false
           end)
        (seq 0 mix_count)
  else has_audio.

(** [default_encoded_callback], the callback of an output that does not
    interleave: the packet goes to the sink as it arrives.  Releasing the
    packet of a delayed output acts on the packet's reference count only. *)
Definition default_encoded_callback (output : obs_output)
    (packet : encoder_packet) : obs_output :=
  if data_active output then
    let packet :=
      match type packet with
      | OBS_ENCODER_AUDIO =>
          set_packet_track_idx (get_track_index output packet) packet
      | OBS_ENCODER_VIDEO => packet
      end in
    let output := set_sink (sink output ++ [packet]) output in
    match type packet with
    | OBS_ENCODER_VIDEO => set_total_frames (total_frames output + 1) output
    | OBS_ENCODER_AUDIO => output
    end
  else output.

(** ** Inputs of the checks *)

(** A video packet that is not a keyframe, of the encoder at 100. *)
Definition delta_frame (dts' pts' : Z) : encoder_packet :=
  packet_of OBS_ENCODER_VIDEO dts' pts' 1 30 false 100.

(** A started output that has buffered three audio packets and no video. *)
Definition audio_only_output : obs_output :=
  interleave_run parity_ok started_output
    [audio_packet 0; audio_packet 23; audio_packet 46].

(** The started output with its encoders paused at the time of S4. *)
Definition paused_encoded_output : obs_output :=
  match obs_encoded_output_pause s4_interval s4_now started_output true with
  | Some (output, _) => output
  | None => started_output
  end.

(** The raw output of S4 once [obs_output_pause] has paused it. *)
Definition s4_paused_output : obs_output :=
  match obs_output_pause s4_interval s4_now (Some s4_output) true with
  | Some (Some output, _) => output
  | _ => s4_output
  end.

(** The output of S5 while it waits for its second retry, 2 seconds after
    the first. *)
Definition s5_waiting : obs_output :=
  set_reconnecting true
    (set_reconnect_retries 1 (set_reconnect_retry_cur_msec 2000 s5_output)).

(** The output of S5 streaming through an active delay. *)
Definition s5_delayed : obs_output := set_delay_active true s5_output.

(** ** What the stop path leaves alone *)

(** Two states agree on the stop code and on the reconnect settings and
    counters. *)
Definition same_reconnect_state (a b : obs_output) : Prop :=
  stop_code a = stop_code b
  /\ reconnecting a = reconnecting b
  /\ reconnect_retries a = reconnect_retries b
  /\ reconnect_retry_max a = reconnect_retry_max b
  /\ reconnect_retry_sec a = reconnect_retry_sec b
  /\ reconnect_retry_cur_msec a = reconnect_retry_cur_msec b
  /\ reconnect_retry_exp a = reconnect_retry_exp b.

(** ** A back-off factor off the grid *)

Definition set_reconnect_retry_exp : float32 -> obs_output -> obs_output.
Proof. assign reconnect_retry_exp. Defined.

(** 1.51f, the binary32 number nearest to 1.51: a factor as
    [obs_output_create] draws it, between 1.5 and 1.55. *)
Definition float32_1_51 : float32 := S754_finite false 12666798 (-23).

(** The output of S5 waiting for its second retry with that factor. *)
Definition s5_waiting_1_51 : obs_output :=
  set_reconnect_retry_exp float32_1_51 s5_waiting.

(** * Properties *)

(** ** The buffer order *)

Lemma is_video_true (p : encoder_packet) :
  is_video p = true <-> type p = OBS_ENCODER_VIDEO.
Proof. unfold is_video. destruct (type p); simpl; split; congruence. Qed.

Lemma is_video_false (p : encoder_packet) :
  is_video p = false <-> type p = OBS_ENCODER_AUDIO.
Proof. unfold is_video. destruct (type p); simpl; split; congruence. Qed.

Lemma packet_le_trans (p q r : encoder_packet) :
  packet_le p q -> packet_le q r -> packet_le p r.
Proof.
  unfold packet_le. intros [Hpq | [Epq Tpq]] [Hqr | [Eqr Tqr]]; try (left; lia).
  right. split; [lia |].
  destruct Tpq as [Tp | Tq]; [now left |].
  destruct Tqr as [Tq' | Tr]; [congruence | now right].
Qed.

(** The loop test of [insert_interleaved_packet], as a proposition. *)
Lemma insert_test_spec (out cur : encoder_packet) :
  (if (dts_usec out =? dts_usec cur) && is_video out then true
   else dts_usec out <? dts_usec cur) = true <-> goes_before out cur.
Proof.
  unfold goes_before.
  destruct (dts_usec out =? dts_usec cur) eqn:E; simpl.
  - apply Z.eqb_eq in E. destruct (is_video out) eqn:V.
    + apply is_video_true in V. intuition.
    + apply is_video_false in V. rewrite E, Z.ltb_irrefl.
      split; [discriminate | intros [H | [H _]]; [lia | congruence]].
  - apply Z.eqb_neq in E. rewrite Z.ltb_lt. intuition.
Qed.

Lemma insert_packet_nil (out : encoder_packet) : insert_packet [] out = [out].
Proof. reflexivity. Qed.

Lemma insert_packet_cons (cur : encoder_packet) (rest : list encoder_packet)
    (out : encoder_packet) :
  insert_packet (cur :: rest) out =
  if (if (dts_usec out =? dts_usec cur) && is_video out then true
      else dts_usec out <? dts_usec cur)
  then out :: cur :: rest
  else cur :: insert_packet rest out.
Proof.
  unfold insert_packet, da_insert. simpl.
  destruct ((dts_usec out =? dts_usec cur) && is_video out); [reflexivity |].
  destruct (dts_usec out <? dts_usec cur); reflexivity.
Qed.

Lemma insert_packet_Forall (P : encoder_packet -> Prop)
    (packets : list encoder_packet) (out : encoder_packet) :
  P out -> Forall P packets -> Forall P (insert_packet packets out).
Proof.
  intros Hout. induction 1 as [| cur rest Hcur Hrest IH].
  - rewrite insert_packet_nil. auto.
  - rewrite insert_packet_cons.
    destruct (if (dts_usec out =? dts_usec cur) && is_video out then true
              else dts_usec out <? dts_usec cur); auto.
Qed.

Lemma not_goes_before_le (out cur : encoder_packet) :
  ~ goes_before out cur -> packet_le cur out.
Proof.
  unfold goes_before, packet_le. intros H.
  destruct (Z.lt_trichotomy (dts_usec cur) (dts_usec out)) as [L | [E | G]].
  - now left.
  - right. split; [exact E |]. right.
    destruct (type out) eqn:T; [reflexivity |]. exfalso. apply H. right. auto.
  - exfalso. apply H. now left.
Qed.

Lemma goes_before_le (out cur : encoder_packet) :
  goes_before out cur -> packet_le out cur.
Proof. unfold goes_before, packet_le. intros [H | [T E]]; auto. Qed.

Lemma insert_packet_ordered (packets : list encoder_packet)
    (out : encoder_packet) :
  ordered packets -> ordered (insert_packet packets out).
Proof.
  unfold ordered. induction 1 as [| cur rest Hrest IH Hcur].
  - rewrite insert_packet_nil. repeat constructor.
  - rewrite insert_packet_cons.
    destruct (if (dts_usec out =? dts_usec cur) && is_video out then true
              else dts_usec out <? dts_usec cur) eqn:T.
    + apply insert_test_spec, goes_before_le in T.
      constructor; [constructor; assumption |].
      constructor; [exact T |].
      eapply Forall_impl; [| exact Hcur].
      intros q Hq. eapply packet_le_trans; eassumption.
    + constructor; [exact IH |].
      apply insert_packet_Forall; [| exact Hcur].
      apply not_goes_before_le. rewrite <- insert_test_spec. congruence.
Qed.

Lemma ordered_skipn (n : nat) (packets : list encoder_packet) :
  ordered packets -> ordered (skipn n packets).
Proof.
  unfold ordered. revert packets. induction n as [| n IH]; intros packets H.
  - exact H.
  - destruct packets as [| p rest]; [exact H |].
    simpl. apply IH. now inversion H.
Qed.

Lemma resort_from (packets acc : list encoder_packet) (output : obs_output) :
  interleaved_packets
    (fold_left insert_interleaved_packet packets
       (set_interleaved_packets acc output))
  = fold_left insert_packet packets acc.
Proof.
  revert acc. induction packets as [| p rest IH]; intros acc; [reflexivity |].
  simpl. unfold insert_interleaved_packet at 2. simpl.
  replace (set_interleaved_packets (insert_packet acc p)
             (set_interleaved_packets acc output))
    with (set_interleaved_packets (insert_packet acc p) output)
    by reflexivity.
  apply IH.
Qed.

Lemma fold_insert_ordered (packets acc : list encoder_packet) :
  ordered acc -> ordered (fold_left insert_packet packets acc).
Proof.
  revert acc. induction packets as [| p rest IH]; intros acc H; [exact H |].
  simpl. apply IH, insert_packet_ordered, H.
Qed.

Lemma resort_interleaved_packets_ordered (output : obs_output) :
  ordered (interleaved_packets (resort_interleaved_packets output)).
Proof.
  unfold resort_interleaved_packets. rewrite resort_from.
  apply fold_insert_ordered. constructor.
Qed.

(** In an ordered buffer a packet is no later than the packets behind it. *)
Lemma ordered_nth (packets : list encoder_packet) (i j : nat)
    (p q : encoder_packet) :
  ordered packets -> (i < j)%nat ->
  nth_error packets i = Some p -> nth_error packets j = Some q ->
  packet_le p q.
Proof.
  unfold ordered. intros H. revert i j.
  induction H as [| x rest Hrest IH Hx]; intros i j Hij Hi Hj.
  - destruct i; discriminate.
  - destruct j as [| j]; [lia |]. simpl in Hj.
    destruct i as [| i]; simpl in Hi.
    + injection Hi as <-. rewrite Forall_forall in Hx.
      apply Hx. eapply nth_error_In; eassumption.
    + apply (IH i j); [lia | assumption | assumption].
Qed.

Lemma packet_leb_le (p q : encoder_packet) :
  packet_leb p q = true -> packet_le p q.
Proof.
  unfold packet_leb, packet_le. intros H.
  apply orb_true_iff in H. destruct H as [H | H].
  - left. now apply Z.ltb_lt.
  - apply andb_true_iff in H. destruct H as [E T]. right.
    split; [now apply Z.eqb_eq |].
    apply orb_true_iff in T. destruct T as [T | T].
    + left. now apply is_video_true.
    + right. apply is_video_false. now apply negb_true_iff.
Qed.

Lemma orderedb_sound (packets : list encoder_packet) :
  orderedb packets = true -> ordered packets.
Proof.
  unfold ordered. induction packets as [| p rest IH]; intros H.
  - constructor.
  - simpl in H. apply andb_true_iff in H. destruct H as [Hp Hrest].
    constructor; [now apply IH |].
    rewrite forallb_forall in Hp. apply Forall_forall.
    intros q Hq. apply packet_leb_le, Hp, Hq.
Qed.

(** The placement of [insert_interleaved_packet]. *)
Lemma insert_interleaved_idx_leftmost (packets : list encoder_packet)
    (out : encoder_packet) :
  (insert_interleaved_idx packets out <= length packets)%nat
  /\ (forall i cur, (i < insert_interleaved_idx packets out)%nat ->
        nth_error packets i = Some cur -> ~ goes_before out cur)
  /\ (forall cur, nth_error packets (insert_interleaved_idx packets out)
        = Some cur -> goes_before out cur).
Proof.
  induction packets as [| c rest [IHlen [IHbefore IHat]]].
  - simpl. split; [lia |]. split.
    + intros i cur Hi. lia.
    + intros cur H. discriminate.
  - pose proof (insert_test_spec out c) as T. simpl.
    destruct ((dts_usec out =? dts_usec c) && is_video out) eqn:E1.
    + split; [lia |]. split; [intros i cur Hi; lia |].
      intros cur H. injection H as <-. now apply T.
    + destruct (dts_usec out <? dts_usec c) eqn:E2.
      * split; [lia |]. split; [intros i cur Hi; lia |].
        intros cur H. injection H as <-. now apply T.
      * split; [simpl; lia |]. split.
        -- intros [| i] cur Hi H; simpl in H.
           ++ injection H as <-. intros G. apply T in G. discriminate.
           ++ apply (IHbefore i); [lia | exact H].
        -- intros cur H. simpl in H. now apply IHat.
Qed.

(** ** What emission and initialization do to the buffer *)

Section InterleaverFacts.

Variable eia608_parity_varify : Z -> bool.

Lemma add_caption_frame (output : obs_output) (out : encoder_packet) :
  let r := add_caption eia608_parity_varify output out in
  interleaved_packets (fst (fst r)) = interleaved_packets output
  /\ sink (fst (fst r)) = sink output
  /\ type (snd (fst r)) = type out
  /\ dts_usec (snd (fst r)) = dts_usec out.
Proof.
  unfold add_caption. destruct (priority out >? 1); simpl; [tauto |].
  destruct (caption_data output); [destruct (caption_head output) |];
    simpl; tauto.
Qed.

Lemma send_interleaved_captions_frame (output : obs_output)
    (out : encoder_packet) :
  let r := send_interleaved_captions eia608_parity_varify output out in
  interleaved_packets (fst r) = interleaved_packets output
  /\ sink (fst r) = sink output
  /\ type (snd r) = type out
  /\ dts_usec (snd r) = dts_usec out.
Proof.
  unfold send_interleaved_captions.
  set (ft := frame_timestamp_of out).
  assert (Hfirst :
    let r :=
      match caption_head output with
      | head :: _ =>
          if PrimFloat.leb (caption_timestamp output) ft then
            let display_duration := display_duration head in
            let '(output0, out0, added) :=
              add_caption eia608_parity_varify output out in
            if added
            then (set_caption_timestamp (ft + display_duration)%float output0,
                  out0)
            else (output0, out0)
          else (output, out)
      | [] => (output, out)
      end in
    interleaved_packets (fst r) = interleaved_packets output
    /\ sink (fst r) = sink output
    /\ type (snd r) = type out /\ dts_usec (snd r) = dts_usec out).
  { destruct (caption_head output) as [| head next]; simpl; [tauto |].
    destruct (PrimFloat.leb (caption_timestamp output) ft); simpl; [| tauto].
    pose proof (add_caption_frame output out) as H. simpl in H.
    destruct (add_caption eia608_parity_varify output out) as [[o1 p1] b1].
    simpl in H. destruct b1; simpl; exact H. }
  simpl in Hfirst.
  destruct (match caption_head output with
            | head :: _ => _
            | [] => (output, out)
            end) as [o1 p1].
  simpl in Hfirst. destruct Hfirst as (B1 & S1 & T1 & D1).
  destruct (caption_data o1); simpl; [repeat split; assumption |].
  destruct (PrimFloat.ltb (last_caption_timestamp o1) ft); simpl;
    [| repeat split; assumption].
  pose proof (add_caption_frame (set_last_caption_timestamp ft o1) p1) as H.
  simpl in H.
  destruct (add_caption eia608_parity_varify
              (set_last_caption_timestamp ft o1) p1) as [[o2 p2] b2].
  simpl in *. destruct H as (B2 & S2 & T2 & D2).
  repeat split; congruence.
Qed.

(** [send_interleaved] either leaves buffer and sink alone, or takes the head
    of the buffer, whose opposing high-water mark is above it, and hands it to
    the sink; captions change the payload only. *)
Lemma send_interleaved_head (output : obs_output) :
  let output' := send_interleaved eia608_parity_varify output in
  (interleaved_packets output' = interleaved_packets output
   /\ sink output' = sink output)
  \/ (exists out rest out',
        interleaved_packets output = out :: rest
        /\ has_higher_opposing_ts output out = true
        /\ interleaved_packets output' = rest
        /\ sink output' = sink output ++ [out']
        /\ type out' = type out
        /\ dts_usec out' = dts_usec out).
Proof.
  unfold send_interleaved.
  destruct (interleaved_packets output) as [| out rest] eqn:B;
    [left; split; [exact B | reflexivity] |].
  destruct (has_higher_opposing_ts output out) eqn:G; simpl;
    [| left; split; [exact B | reflexivity]].
  right. exists out, rest.
  destruct (type out) eqn:T.
  - exists out. simpl. repeat split; assumption.
  - pose proof (send_interleaved_captions_frame
                  (set_total_frames (total_frames
                     (set_interleaved_packets rest output) + 1)
                     (set_interleaved_packets rest output)) out) as H.
    simpl in H.
    destruct (send_interleaved_captions eia608_parity_varify _ out)
      as [o1 p1].
    simpl in H. destruct H as (B1 & S1 & T1 & D1).
    exists p1. simpl. rewrite B1, S1. repeat split; congruence.
Qed.

Lemma send_interleaved_captions_marks (output : obs_output)
    (out : encoder_packet) :
  let r := send_interleaved_captions eia608_parity_varify output out in
  active (fst r) = active output
  /\ highest_video_ts (fst r) = highest_video_ts output
  /\ highest_audio_ts (fst r) = highest_audio_ts output.
Proof.
  unfold send_interleaved_captions, add_caption.
  set (ft := frame_timestamp_of out). clearbody ft.
  destruct (caption_head output) as [| h n] eqn:Ch;
    destruct (PrimFloat.leb (caption_timestamp output) ft) eqn:Le;
    destruct (priority out >? 1) eqn:Pr;
    destruct (caption_data output) as [| c cs] eqn:Cd;
    destruct (PrimFloat.ltb (last_caption_timestamp output) ft) eqn:Lt;
    repeat (cbn; rewrite ?Ch, ?Le, ?Pr, ?Cd, ?Lt);
    repeat split; reflexivity.
Qed.

Lemma send_interleaved_marks (output : obs_output) :
  let output' := send_interleaved eia608_parity_varify output in
  active output' = active output
  /\ highest_video_ts output' = highest_video_ts output
  /\ highest_audio_ts output' = highest_audio_ts output.
Proof.
  unfold send_interleaved.
  destruct (interleaved_packets output) as [| out rest];
    [repeat split; reflexivity |].
  destruct (has_higher_opposing_ts output out); simpl;
    [| repeat split; reflexivity].
  destruct (type out); [repeat split; reflexivity |].
  pose proof (send_interleaved_captions_marks
                (set_total_frames
                   (total_frames (set_interleaved_packets rest output) + 1)
                   (set_interleaved_packets rest output)) out) as H.
  simpl in H.
  destruct (send_interleaved_captions eia608_parity_varify _ out) as [o p].
  simpl in *. exact H.
Qed.

(** Captions change the payload of the packet only. *)
Lemma send_interleaved_captions_payload (output : obs_output)
    (out : encoder_packet) :
  let r := send_interleaved_captions eia608_parity_varify output out in
  set_packet_data (data out) (snd r) = out.
Proof.
  unfold send_interleaved_captions, add_caption.
  set (ft := frame_timestamp_of out). clearbody ft.
  destruct (caption_head output) as [| h n] eqn:Ch;
    destruct (PrimFloat.leb (caption_timestamp output) ft) eqn:Le;
    destruct (priority out >? 1) eqn:Pr;
    destruct (caption_data output) as [| c cs] eqn:Cd;
    destruct (PrimFloat.ltb (last_caption_timestamp output) ft) eqn:Lt;
    repeat (cbn; rewrite ?Ch, ?Le, ?Pr, ?Cd, ?Lt);
    destruct out; reflexivity.
Qed.

(** Progress of [send_interleaved]: a head whose opposing high-water mark is
    above it is taken from the buffer and handed to the sink, the payload
    apart as it was buffered; any other head stays where it is. *)
Lemma send_interleaved_sends (output : obs_output) (out : encoder_packet)
    (rest : list encoder_packet) :
  interleaved_packets output = out :: rest ->
  has_higher_opposing_ts output out = true ->
  let output' := send_interleaved eia608_parity_varify output in
  exists out',
    interleaved_packets output' = rest
    /\ sink output' = sink output ++ [out']
    /\ type out' = type out /\ dts_usec out' = dts_usec out
    /\ set_packet_data (data out) out' = out.
Proof.
  intros B G. cbv zeta. unfold send_interleaved. rewrite B, G. cbn [negb].
  destruct (type out) eqn:T.
  - exists out. simpl. repeat split; try assumption.
    destruct out; reflexivity.
  - pose proof (send_interleaved_captions_frame
                  (set_total_frames (total_frames
                     (set_interleaved_packets rest output) + 1)
                     (set_interleaved_packets rest output)) out) as H.
    pose proof (send_interleaved_captions_payload
                  (set_total_frames (total_frames
                     (set_interleaved_packets rest output) + 1)
                     (set_interleaved_packets rest output)) out) as P.
    simpl in H, P.
    destruct (send_interleaved_captions eia608_parity_varify _ out)
      as [o1 p1].
    simpl in H, P. destruct H as (B1 & S1 & T1 & D1).
    exists p1. simpl. rewrite B1, S1. repeat split; congruence.
Qed.

Lemma send_interleaved_waits (output : obs_output) (out : encoder_packet)
    (rest : list encoder_packet) :
  interleaved_packets output = out :: rest ->
  has_higher_opposing_ts output out = false ->
  send_interleaved eia608_parity_varify output = output.
Proof. intros B G. unfold send_interleaved. now rewrite B, G. Qed.

(** However often [send_interleaved] runs, what it has handed to the sink is
    a prefix of the buffer, in the order of the buffer, and what is left in
    the buffer is the rest of it. *)
Lemma send_interleaved_prefix (output : obs_output) (n : nat) :
  let output' := Nat.iter n (send_interleaved eia608_parity_varify) output in
  exists k,
    (k <= n)%nat
    /\ timeline (sink output')
       = timeline (sink output)
         ++ timeline (firstn k (interleaved_packets output))
    /\ interleaved_packets output' = skipn k (interleaved_packets output).
Proof.
  induction n as [| n IH]; cbv zeta.
  - exists 0%nat. simpl. rewrite app_nil_r. repeat split. lia.
  - destruct IH as (k & Lk & Sk & B). rewrite Nat.iter_succ.
    set (o := Nat.iter n (send_interleaved eia608_parity_varify) output) in *.
    destruct (send_interleaved_head o)
      as [[B' S'] | (out & rest & out' & Bo & _ & B' & S' & T & D)].
    + exists k. rewrite B', S'. repeat split; [lia | exact Sk | exact B].
    + exists (S k). rewrite B', S'. split; [lia |].
      rewrite B in Bo.
      assert (Hk : firstn (S k) (interleaved_packets output)
                   = firstn k (interleaved_packets output) ++ [out]
                   /\ skipn (S k) (interleaved_packets output) = rest).
      { clear - Bo. revert Bo.
        generalize (interleaved_packets output) as l.
        induction k as [| k IHk]; intros l Bo.
        - simpl in Bo. subst l. split; reflexivity.
        - destruct l as [| a l]; [discriminate |].
          destruct (IHk l Bo) as [F K]. split.
          + change (firstn (S (S k)) (a :: l)) with (a :: firstn (S k) l).
            rewrite F. reflexivity.
          + exact K. }
      destruct Hk as [F K]. rewrite F, K. split; [| reflexivity].
      unfold timeline in *. rewrite !map_app, Sk. simpl.
      rewrite T, D, <- app_assoc. reflexivity.
Qed.

(** As long as the heads are below their opposing high-water marks,
    [send_interleaved] hands over one packet of the buffer per call, from
    the front. *)
Lemma send_interleaved_drains (output : obs_output) (n : nat) :
  (n <= length (interleaved_packets output))%nat ->
  Forall (fun p => has_higher_opposing_ts output p = true)
    (firstn n (interleaved_packets output)) ->
  let output' := Nat.iter n (send_interleaved eia608_parity_varify) output in
  timeline (sink output')
  = timeline (sink output) ++ timeline (firstn n (interleaved_packets output))
  /\ interleaved_packets output' = skipn n (interleaved_packets output)
  /\ highest_video_ts output' = highest_video_ts output
  /\ highest_audio_ts output' = highest_audio_ts output.
Proof.
  induction n as [| n IH]; intros L F; cbv zeta.
  - simpl. rewrite app_nil_r. repeat split.
  - assert (Hn : exists p rest,
               skipn n (interleaved_packets output) = p :: rest
               /\ firstn (S n) (interleaved_packets output)
                  = firstn n (interleaved_packets output) ++ [p]
               /\ skipn (S n) (interleaved_packets output) = rest).
    { clear - L. revert L.
      generalize (interleaved_packets output) as l.
      induction n as [| n IHn]; intros l L.
      - destruct l as [| a l]; [simpl in L; lia |].
        exists a, l. repeat split.
      - destruct l as [| a l]; [simpl in L; lia |].
        destruct (IHn l) as (p & rest & K & F & K');
          [simpl in L; lia |].
        exists p, rest. split; [exact K |]. split; [| exact K'].
        change (firstn (S (S n)) (a :: l)) with (a :: firstn (S n) l).
        rewrite F. reflexivity. }
    destruct Hn as (p & rest & K & Fn & K').
    rewrite Fn in F. apply Forall_app in F. destruct F as [F Fp].
    apply Forall_inv in Fp.
    destruct (IH ltac:(lia) F) as (Sk & B & Mv & Ma). cbv zeta in *.
    rewrite Nat.iter_succ.
    set (o := Nat.iter n (send_interleaved eia608_parity_varify) output) in *.
    assert (G : has_higher_opposing_ts o p = true)
      by (unfold has_higher_opposing_ts in *; rewrite Mv, Ma; exact Fp).
    rewrite K in B.
    destruct (send_interleaved_sends o p rest B G)
      as (out' & B' & S' & T & D & _).
    destruct (send_interleaved_marks o) as (_ & Mv' & Ma').
    cbv zeta in *. rewrite B', S', Mv', Ma', Fn, K'.
    split; [| repeat split; assumption].
    unfold timeline in *. rewrite !map_app, Sk. simpl.
    rewrite T, D, <- app_assoc. reflexivity.
Qed.

Lemma send_interleaved_ordered (output : obs_output) :
  ordered (interleaved_packets output) ->
  ordered (interleaved_packets (send_interleaved eia608_parity_varify output)).
Proof.
  intros H. destruct (send_interleaved_head output)
    as [[B _] | (out & rest & out' & B & _ & B' & _)].
  - rewrite B. exact H.
  - rewrite B'. rewrite B in H. now inversion H.
Qed.

Lemma prune_premature_packets_buffer (output : obs_output) :
  interleaved_packets (fst (prune_premature_packets output))
  = interleaved_packets output.
Proof.
  unfold prune_premature_packets.
  destruct (packet_at output _); [| reflexivity].
  destruct (prune_premature_loop _ _ _ _ _ _) as [[[a b] c] |]; reflexivity.
Qed.

Lemma prune_interleaved_packets_buffer (output : obs_output) :
  exists n,
    interleaved_packets (fst (prune_interleaved_packets output))
    = skipn n (interleaved_packets output).
Proof.
  unfold prune_interleaved_packets.
  pose proof (prune_premature_packets_buffer output) as H.
  destruct (prune_premature_packets output) as [o1 start]. simpl in H.
  destruct (start =? -1); simpl; [exists 0%nat; exact H |].
  match goal with
  | |- context [discard_to_idx o1 ?k] => set (idx := k)
  end.
  destruct (negb (idx =? 0)); simpl.
  - exists (Z.to_nat idx). now rewrite H.
  - exists 0%nat. exact H.
Qed.

Lemma get_audio_and_video_packets_buffer (output : obs_output) (n : nat) :
  interleaved_packets (fst (get_audio_and_video_packets output n))
  = interleaved_packets output.
Proof.
  unfold get_audio_and_video_packets.
  destruct (find_first_packet_type output OBS_ENCODER_VIDEO 0);
    destruct (first_audio_packets _ _); reflexivity.
Qed.

Lemma initialize_interleaved_packets_failed (output : obs_output) :
  snd (initialize_interleaved_packets output) = false ->
  exists n,
    interleaved_packets (fst (initialize_interleaved_packets output))
    = skipn n (interleaved_packets output).
Proof.
  unfold initialize_interleaved_packets.
  pose proof (get_audio_and_video_packets_buffer output
                (num_audio_mixes output)) as H1.
  destruct (get_audio_and_video_packets output (num_audio_mixes output))
    as [o1 [[video audio] |]]; simpl in H1;
    [| intros _; exists 0%nat; exact H1].
  destruct (audio_ends_before_video o1 video (num_audio_mixes output));
    [intros _; exists 0%nat; exact H1 |].
  destruct (negb (get_interleaved_start_idx o1 =? 0)).
  - pose proof (get_audio_and_video_packets_buffer
                  (discard_to_idx o1 (get_interleaved_start_idx o1))
                  (num_audio_mixes output)) as H2.
    destruct (get_audio_and_video_packets
                (discard_to_idx o1 (get_interleaved_start_idx o1))
                (num_audio_mixes output)) as [o2 [[video2 audio2] |]];
      simpl in *; [discriminate |].
    intros _. exists (Z.to_nat (get_interleaved_start_idx o1)).
    now rewrite H2, H1.
  - simpl. discriminate.
Qed.

(** The order of the buffer is an invariant of the encoder callback. *)
Lemma interleave_packets_ordered (output : obs_output)
    (packet : encoder_packet) :
  ordered (interleaved_packets output) ->
  ordered (interleaved_packets
             (interleave_packets eia608_parity_varify output packet)).
Proof.
  intros H. unfold interleave_packets.
  destruct (negb (active output)); [exact H |].
  match goal with
  | |- context [is_video ?p] => set (pkt := p)
  end.
  destruct (negb (received_video output) && is_video pkt
            && negb (keyframe pkt)).
  - unfold discard_unused_audio_packets.
    destruct (negb (discard_unused_idx _ _ =? 0)); [| exact H].
    apply ordered_skipn, H.
  - set (was_started := received_audio output && received_video output).
    set (out := if was_started
                then apply_interleaved_packet_offset output pkt else pkt).
    set (o1 := if was_started then output else check_received output pkt).
    assert (H1 : ordered (interleaved_packets
                            (set_higher_ts
                               (insert_interleaved_packet o1 out) out))).
    { assert (E : interleaved_packets o1 = interleaved_packets output).
      { unfold o1, check_received. destruct was_started; [reflexivity |].
        destruct (type pkt);
          [destruct (negb (received_audio output))
          | destruct (negb (received_video output))]; reflexivity. }
      replace (interleaved_packets (set_higher_ts _ out))
        with (insert_packet (interleaved_packets o1) out).
      - rewrite E. apply insert_packet_ordered, H.
      - unfold set_higher_ts. destruct (type out);
          [destruct (highest_audio_ts _ <? _)
          | destruct (highest_video_ts _ <? _)]; reflexivity. }
    set (o2 := set_higher_ts (insert_interleaved_packet o1 out) out) in *.
    destruct (received_audio o2 && received_video o2); [| exact H1].
    destruct (negb was_started); [| apply send_interleaved_ordered, H1].
    destruct (prune_interleaved_packets_buffer o2) as [n Hn].
    destruct (prune_interleaved_packets o2) as [o3 ok]. simpl in Hn.
    assert (H3 : ordered (interleaved_packets o3))
      by (rewrite Hn; apply ordered_skipn, H1).
    destruct ok; [| exact H3].
    pose proof (initialize_interleaved_packets_failed o3) as Hf.
    destruct (initialize_interleaved_packets o3) as [o4 ok4]. simpl in Hf.
    destruct ok4.
    + apply send_interleaved_ordered, resort_interleaved_packets_ordered.
    + destruct (Hf eq_refl) as [m Hm]. rewrite Hm.
      apply ordered_skipn, H3.
Qed.

End InterleaverFacts.

(** ** Claims on the interleaver *)

(** Splits a conjunction into its parts, and nothing else. *)
Ltac split_all := repeat match goal with |- _ /\ _ => split end.


(** C4. Every insertion places the new packet at the leftmost position whose
    packet has a strictly greater [dts_usec], a video packet also before a
    packet of equal [dts_usec]: no packet in front of the position is one the
    new packet goes before, and the packet at the position is.  The buffer
    stays ordered, and a video packet sits in front of every audio packet of
    the same [dts_usec].  Emission follows the buffer: [send_interleaved]
    hands the head to the sink exactly when the opposing high-water mark is
    above it, so whatever number of calls has run, the sink has received a
    prefix of the buffer in buffer order and the buffer holds the rest; of an
    audio and a video packet of the same [dts_usec] the video packet is sent
    first, and both are sent once the marks are above them. *)
Theorem insert_interleaved_packet_video_first :
  forall (eia608_parity_varify : Z -> bool) (output : obs_output)
         (out : encoder_packet),
    ordered (interleaved_packets output) ->
    let packets := interleaved_packets output in
    let idx := insert_interleaved_idx packets out in
    let send := send_interleaved eia608_parity_varify in
    interleaved_packets (insert_interleaved_packet output out)
      = firstn idx packets ++ out :: skipn idx packets
    /\ (forall i cur, (i < idx)%nat -> nth_error packets i = Some cur ->
          ~ goes_before out cur)
    /\ (forall cur, nth_error packets idx = Some cur -> goes_before out cur)
    /\ ordered (interleaved_packets (insert_interleaved_packet output out))
    /\ (forall i j a v,
          nth_error packets i = Some a -> nth_error packets j = Some v ->
          type a = OBS_ENCODER_AUDIO -> type v = OBS_ENCODER_VIDEO ->
          dts_usec a = dts_usec v -> (j < i)%nat)
    /\ (forall a,
          sink (send output) = sink output ++ [a] ->
          type a = OBS_ENCODER_AUDIO ->
          forall v, In v packets -> type v = OBS_ENCODER_VIDEO ->
                    dts_usec v <> dts_usec a)
    /\ (forall hd rest,
          packets = hd :: rest ->
          if has_higher_opposing_ts output hd
          then exists out',
                 sink (send output) = sink output ++ [out']
                 /\ interleaved_packets (send output) = rest
                 /\ type out' = type hd /\ dts_usec out' = dts_usec hd
                 /\ set_packet_data (data hd) out' = hd
          else send output = output)
    /\ (forall n,
          exists k,
            (k <= n)%nat
            /\ timeline (sink (Nat.iter n send output))
               = timeline (sink output) ++ timeline (firstn k packets)
            /\ interleaved_packets (Nat.iter n send output) = skipn k packets
            /\ forall i j a v,
                 nth_error packets i = Some a ->
                 nth_error packets j = Some v ->
                 type a = OBS_ENCODER_AUDIO -> type v = OBS_ENCODER_VIDEO ->
                 dts_usec a = dts_usec v ->
                 (i < k)%nat -> (j < i)%nat /\ (j < k)%nat)
    /\ (forall n,
          (n <= length packets)%nat ->
          Forall (fun p => has_higher_opposing_ts output p = true)
            (firstn n packets) ->
          timeline (sink (Nat.iter n send output))
          = timeline (sink output) ++ timeline (firstn n packets)
          /\ interleaved_packets (Nat.iter n send output) = skipn n packets).
Proof.
  intros par output out Hord packets idx send.
  destruct (insert_interleaved_idx_leftmost packets out) as (_ & Hb & Ha).
  assert (Htie : forall i j a v,
            nth_error packets i = Some a -> nth_error packets j = Some v ->
            type a = OBS_ENCODER_AUDIO -> type v = OBS_ENCODER_VIDEO ->
            dts_usec a = dts_usec v -> (j < i)%nat).
  { intros i j a v Hi Hj Ta Tv E.
    destruct (Nat.lt_trichotomy j i) as [L | [Eq | G]]; [exact L | |].
    - subst j. rewrite Hi in Hj. injection Hj as ->. congruence.
    - pose proof (ordered_nth packets i j a v Hord G Hi Hj) as [L | [_ [T | T]]];
        [lia | congruence | congruence]. }
  split; [reflexivity |]. split; [exact Hb |]. split; [exact Ha |].
  split; [apply insert_packet_ordered, Hord |]. split; [exact Htie |].
  split.
  { intros a Hs Ta v Hv Tv E.
    destruct (send_interleaved_head par output)
      as [[_ S] | (hd & rest & out' & B & _ & _ & S & T & D)];
      fold send in S.
    + rewrite S in Hs. apply (f_equal (@length _)) in Hs.
      rewrite length_app in Hs. simpl in Hs. lia.
    + rewrite S in Hs. apply app_inj_tail in Hs. destruct Hs as [_ <-].
      apply In_nth_error in Hv. destruct Hv as [j Hj].
      assert (H0 : nth_error packets 0 = Some hd)
        by (unfold packets; rewrite B; reflexivity).
      assert (Lt : (j < 0)%nat); [| lia].
      apply (Htie 0%nat j hd v H0 Hj); congruence. }
  split.
  { intros hd rest B.
    destruct (has_higher_opposing_ts output hd) eqn:G.
    - destruct (send_interleaved_sends par output hd rest B G)
        as (out' & B' & S' & T & D & P).
      exists out'. repeat split; assumption.
    - exact (send_interleaved_waits par output hd rest B G). }
  split.
  { intros n.
    destruct (send_interleaved_prefix par output n) as (k & L & S & B).
    exists k. split; [exact L |]. split; [exact S |]. split; [exact B |].
    intros i j a v Hi Hj Ta Tv E Lk.
    pose proof (Htie i j a v Hi Hj Ta Tv E). lia. }
  intros n L F.
  destruct (send_interleaved_drains par output n L F) as (S & B & _).
  split; [exact S | exact B].
Qed.

(** The tie of S2 once the excess audio is pruned: the video packet at 0 and
    the audio packet at 0 head the buffer, and audio has reached 23 ms. *)
Lemma insert_interleaved_packet_video_first_witness :
  ordered (interleaved_packets s2_output)
  /\ timeline (interleaved_packets
                 (insert_interleaved_packet s2_output (video_packet 0 7)))
     = [(OBS_ENCODER_AUDIO, -200000); (OBS_ENCODER_AUDIO, -100000);
        (OBS_ENCODER_VIDEO, 0); (OBS_ENCODER_VIDEO, 0);
        (OBS_ENCODER_AUDIO, 0); (OBS_ENCODER_VIDEO, 33333)]
  /\ ordered (interleaved_packets s2_tie)
  /\ timeline (interleaved_packets s2_tie)
     = [(OBS_ENCODER_VIDEO, 0); (OBS_ENCODER_AUDIO, 0);
        (OBS_ENCODER_VIDEO, 33333)]
  /\ timeline
       (sink (Nat.iter 2 (send_interleaved parity_ok) s2_tie))
     = [(OBS_ENCODER_VIDEO, 0); (OBS_ENCODER_AUDIO, 0)]
  /\ timeline
       (interleaved_packets (Nat.iter 2 (send_interleaved parity_ok) s2_tie))
     = [(OBS_ENCODER_VIDEO, 33333)].
Proof.
  assert (H : ordered (interleaved_packets s2_output))
    by (apply orderedb_sound; vm_compute; reflexivity).
  assert (H' : ordered (interleaved_packets s2_tie))
    by (apply orderedb_sound; vm_compute; reflexivity).
  split; [exact H |]. split.
  { destruct (insert_interleaved_packet_video_first parity_ok s2_output
                (video_packet 0 7) H) as [E _].
    rewrite E. vm_compute. reflexivity. }
  split; [exact H' |]. split; [vm_compute; reflexivity |].
  destruct (insert_interleaved_packet_video_first parity_ok s2_tie
              (video_packet 0 7) H')
    as (_ & _ & _ & _ & _ & _ & _ & _ & Drain).
  destruct (Drain 2%nat) as [S B].
  - vm_compute. lia.
  - apply Forall_forall. intros p Hp.
    assert (Hb : forallb (has_higher_opposing_ts s2_tie)
                   (firstn 2 (interleaved_packets s2_tie)) = true)
      by (vm_compute; reflexivity).
    rewrite forallb_forall in Hb. exact (Hb p Hp).
  - split; [rewrite S | rewrite B]; vm_compute; reflexivity.
Defined.

(** The buffer of a started output is ordered after any arrivals. *)
Lemma interleave_all_ordered (output : obs_output)
    (arrivals : list encoder_packet) :
  ordered (interleaved_packets output) ->
  ordered (interleaved_packets (interleave_all output arrivals)).
Proof.
  revert output. induction arrivals as [| p rest IH]; intros output H.
  - exact H.
  - apply IH, interleave_packets_ordered, H.
Qed.

(** C3 as stated fails: after the initialization-time pruning of S2 the
    buffer is not the audio packet at 0 followed by the video packet at
    33333. *)
Lemma s2_pruning_keeps_first_video :
  interleaved_packets (fst (prune_interleaved_packets s2_output))
  <> [audio_packet 0; video_packet 1 1].
Proof.
  intros H. apply (f_equal (@length _)) in H. vm_compute in H. discriminate.
Qed.

(** The same with the five packets laid out as the scenario numbers them
    (first video packet at index 3): three packets stay. *)
Lemma s2_pruning_as_numbered :
  get_interleaved_start_idx s2_output_as_numbered = 2
  /\ timeline (interleaved_packets
                 (fst (prune_interleaved_packets s2_output_as_numbered)))
     = [(OBS_ENCODER_AUDIO, 0); (OBS_ENCODER_VIDEO, 0);
        (OBS_ENCODER_VIDEO, 33333)].
Proof. split_all; vm_compute; reflexivity. Qed.

(** C3, amended. On S2 the first video packet sits at index 2 (it is
    inserted in front of the audio packet of the same [dts_usec]) and the
    first audio packet at index 0; the first audio packet lies 200000
    microseconds before the first video packet, so the premature branch is
    not taken ([prune_premature_packets] returns 0).  The start index is the
    smaller of the first video index 2 and the index 3 of the audio packet
    closest to it, the two packets in front of it are discarded, and the
    video packet at 0, the audio packet at 0 and the video packet at 33333
    stay. *)
Theorem s2_pruning_closest_pair :
  timeline (interleaved_packets s2_output)
    = [(OBS_ENCODER_AUDIO, -200000); (OBS_ENCODER_AUDIO, -100000);
       (OBS_ENCODER_VIDEO, 0); (OBS_ENCODER_AUDIO, 0);
       (OBS_ENCODER_VIDEO, 33333)]
  /\ find_first_packet_type_idx s2_output OBS_ENCODER_VIDEO 0 = 2
  /\ find_first_packet_type_idx s2_output OBS_ENCODER_AUDIO 0 = 0
  /\ snd (prune_premature_packets s2_output) = 0
  /\ get_interleaved_start_idx s2_output = 2
  /\ snd (prune_interleaved_packets s2_output) = true
  /\ interleaved_packets (fst (prune_interleaved_packets s2_output))
     = [video_packet 0 0; audio_packet 0; video_packet 1 1].
Proof. split_all; vm_compute; reflexivity. Qed.

(** Fed through the callback, video first or audio first, the five packets
    of S2 end in the same buffer; nothing is sent, as no audio packet lies
    beyond the first video packet yet. *)
Lemma s2_through_the_callback :
  timeline (interleaved_packets
              (interleave_all started_output
                 [video_packet 0 0; video_packet 1 1; audio_packet (-200);
                  audio_packet (-100); audio_packet 0]))
    = [(OBS_ENCODER_VIDEO, 0); (OBS_ENCODER_AUDIO, 0);
       (OBS_ENCODER_VIDEO, 33333)]
  /\ timeline (interleaved_packets
                 (interleave_all started_output
                    [audio_packet (-200); audio_packet (-100);
                     audio_packet 0; video_packet 0 0; video_packet 1 1]))
     = [(OBS_ENCODER_VIDEO, 0); (OBS_ENCODER_AUDIO, 0);
        (OBS_ENCODER_VIDEO, 33333)].
Proof. split_all; vm_compute; reflexivity. Qed.

(** With one audio mix and a frame duration that is not negative, the test of
    [prune_premature_packets] on the last [diff] is the test on [max_diff]. *)
Lemma prune_start_single_mix (output : obs_output) (video : encoder_packet) :
  num_audio_mixes output = 1%nat ->
  packet_at output (find_first_packet_type_idx output OBS_ENCODER_VIDEO 0)
    = Some video ->
  0 <= Z.quot (timebase_num video * 1000000) (timebase_den video) ->
  snd (prune_premature_packets output) = prune_start_by_max_diff output.
Proof.
  intros Hmix Hvideo Hdur.
  unfold prune_premature_packets, prune_start_by_max_diff.
  rewrite Hvideo, Hmix. simpl.
  destruct (packet_at output
              (find_first_packet_type_idx output OBS_ENCODER_AUDIO 0))
    as [audio |]; [| reflexivity].
  simpl. set (diff := dts_usec audio - dts_usec video).
  set (d := Z.quot (timebase_num video * 1000000) (timebase_den video)) in *.
  destruct (diff >? 0) eqn:E0; [reflexivity |].
  destruct (diff >? d) eqn:E1; destruct (0 >? d) eqn:E2; try reflexivity; lia.
Qed.

(** C2, where the code departs from it.  With two audio tracks whose first
    packets lie 100000 and 10000 microseconds after the first video packet,
    [max_diff] is 100000 and exceeds the frame duration 33333, so the
    decision worded by the specification discards the three packets up to and
    including index 2.  [prune_premature_packets] compares the [diff] of the
    last track, 10000, returns 0, and nothing is discarded: the callback run
    over the three arrivals keeps all of them and takes the two first audio
    packets as the offsets of their tracks. *)
Theorem prune_premature_packets_tests_last_diff :
  timeline (interleaved_packets late_track_output)
    = [(OBS_ENCODER_VIDEO, 0); (OBS_ENCODER_AUDIO, 10000);
       (OBS_ENCODER_AUDIO, 100000)]
  /\ prune_start_by_max_diff late_track_output = 3
  /\ snd (prune_premature_packets late_track_output) = 0
  /\ interleaved_packets (fst (prune_interleaved_packets late_track_output))
     = interleaved_packets late_track_output
  /\ length (interleaved_packets
               (interleave_all two_track_output late_track_arrivals)) = 3%nat
  /\ audio_offsets (interleave_all two_track_output late_track_arrivals)
     = [100; 10; 0; 0; 0; 0; 0; 0].
Proof. split_all; vm_compute; reflexivity. Qed.

(** C1, where the code departs from it.  Initialization completes with the
    fourth arrival, the first audio packet: both streams are received, the
    offsets are 102 and 3340, and the first video packet is sent.  The
    arrivals are well formed: the
    dts of each encoder do not decrease and no dts exceeds its pts.  After
    initialization the audio packets at 0, 23000 and 46000 are sent while no
    video packet beyond them is buffered ([highest_video_ts] was rebased by
    the [dts_usec] of the first video packet, the packets by its [pts]), and
    the video packet at 33333 is sent after the audio packet at 46000. *)
Theorem early_audio_breaks_monotone_emission :
  (let initialized :=
     interleave_all started_output (firstn 4 early_audio_arrivals) in
   received_audio initialized && received_video initialized = true
   /\ video_offset initialized = 102
   /\ nth 0 (audio_offsets initialized) 0 = 3340
   /\ timeline (sink initialized) = [(OBS_ENCODER_VIDEO, -66666)])
  /\ nondecreasing (dts_of_encoder 100 early_audio_arrivals) = true
  /\ nondecreasing (dts_of_encoder 1 early_audio_arrivals) = true
  /\ forallb (fun p => dts p <=? pts p) early_audio_arrivals = true
  /\ timeline (sink (interleave_all started_output early_audio_arrivals))
     = [(OBS_ENCODER_VIDEO, -66666); (OBS_ENCODER_VIDEO, -33333);
        (OBS_ENCODER_VIDEO, 0); (OBS_ENCODER_AUDIO, 0);
        (OBS_ENCODER_AUDIO, 23000); (OBS_ENCODER_AUDIO, 46000);
        (OBS_ENCODER_VIDEO, 33333)]
  /\ nondecreasing
       (map dts_usec (sink (interleave_all started_output early_audio_arrivals)))
     = false.
Proof. cbv zeta. split_all; vm_compute; reflexivity. Qed.

(** ** Claims on the pause controller *)

(** Without wrap-around the quantized timestamp is the last video timestamp
    plus a whole number of frame intervals. *)
Lemma get_closest_v_ts_formula (interval now : Z) (p : pause_data) :
  0 < interval -> 0 <= last_video_ts p <= now ->
  now + 2 * interval < 2 ^ 64 ->
  get_closest_v_ts interval now p
  = last_video_ts p
    + (now - last_video_ts p + 2 * interval) / interval * interval.
Proof.
  intros Hi Hl Hn. unfold get_closest_v_ts, wrap_u64.
  set (l := last_video_ts p) in *.
  rewrite (Z.mod_small (interval * 2)) by lia.
  rewrite (Z.mod_small (now - l)) by lia.
  rewrite (Z.mod_small (now - l + interval * 2)) by lia.
  replace (interval * 2) with (2 * interval) by lia.
  set (x := now - l + 2 * interval).
  assert (Hx : 0 <= x) by (unfold x; lia).
  assert (Hq : 0 <= x / interval * interval <= x).
  { pose proof (Z.mul_div_le x interval Hi).
    pose proof (Z.div_pos x interval Hx Hi). nia. }
  rewrite (Z.mod_small (x / interval * interval)) by (unfold x in *; lia).
  apply Z.mod_small. unfold x in *. lia.
Qed.

(** C5 as stated fails: the pause of S4 does not start at 1_066_666_666. *)
Lemma s4_pause_not_two_intervals :
  ts_start (pause (fst (obs_raw_output_pause s4_interval s4_now s4_output true)))
  <> 1066666666.
Proof. vm_compute. discriminate. Qed.

(** C5, amended.  In S4 the quantized timestamp
    last_video_ts + floor ((now - last_video_ts + 2 I) / I) * I is
    last_video_ts + 3 I = 1_099_999_999, since 116_666_666 / 33_333_333 is 3;
    the pause request succeeds, sets [ts_start] to it, and through
    [obs_output_pause] marks the output paused and raises "pause". *)
Theorem s4_pause_three_intervals :
  get_closest_v_ts s4_interval s4_now (pause s4_output)
    = last_video_ts (pause s4_output)
      + (s4_now - last_video_ts (pause s4_output) + 2 * s4_interval)
        / s4_interval * s4_interval
  /\ (s4_now - last_video_ts (pause s4_output) + 2 * s4_interval)
     / s4_interval = 3
  /\ get_closest_v_ts s4_interval s4_now (pause s4_output)
     = last_video_ts (pause s4_output) + 3 * s4_interval
  /\ obs_raw_output_pause s4_interval s4_now s4_output true
     = (set_pause
          {| last_video_ts := 1000000000; ts_start := 1099999999;
             ts_end := 0; ts_offset := 0 |} s4_output, true)
  /\ obs_output_pause s4_interval s4_now (Some s4_output) true
     = Some
         (Some
            (do_output_signal "pause"
               (set_paused true
                  (set_pause
                     {| last_video_ts := 1000000000; ts_start := 1099999999;
                        ts_end := 0; ts_offset := 0 |} s4_output))), true).
Proof. split_all; vm_compute; reflexivity. Qed.

(** C10. On a valid output that can pause and is active, a request for the
    state the output is already in returns true and gives back the output as
    it was: pause data, encoders, paused flag and signal log included.
    Without the capability, or when the output is not active, the request
    returns false and gives back the output as it was. *)
Theorem obs_output_pause_guards :
  forall (video_frame_interval_ns os_gettime_ns : Z) (output : obs_output)
         (pause' : bool),
    (Z.land (info_flags output) OBS_OUTPUT_CAN_PAUSE <> 0 ->
     active output = true -> paused output = pause' ->
     obs_output_pause video_frame_interval_ns os_gettime_ns (Some output)
       pause' = Some (Some output, true))
    /\ (Z.land (info_flags output) OBS_OUTPUT_CAN_PAUSE = 0
        \/ active output = false ->
        obs_output_pause video_frame_interval_ns os_gettime_ns (Some output)
          pause' = Some (Some output, false)).
Proof.
  intros interval now output pause'. unfold obs_output_pause. split.
  - intros Hcap Hact Hp.
    apply Z.eqb_neq in Hcap. rewrite Hcap, Hact. simpl.
    rewrite Hp, Bool.eqb_reflx. reflexivity.
  - intros [Hcap | Hact].
    + apply Z.eqb_eq in Hcap. rewrite Hcap. reflexivity.
    + rewrite Hact. simpl.
      destruct (Z.land (info_flags output) OBS_OUTPUT_CAN_PAUSE =? 0);
        reflexivity.
Qed.

Lemma obs_output_pause_guards_witness :
  obs_output_pause s4_interval s4_now (Some s4_output) false
    = Some (Some s4_output, true)
  /\ obs_output_pause s4_interval s4_now (Some (set_active false s4_output))
       true
     = Some (Some (set_active false s4_output), false)
  /\ obs_output_pause s4_interval s4_now (Some started_output) true
     = Some (Some started_output, false).
Proof.
  destruct (obs_output_pause_guards s4_interval s4_now s4_output false)
    as [H1 _].
  destruct (obs_output_pause_guards s4_interval s4_now
              (set_active false s4_output) true) as [_ H2].
  destruct (obs_output_pause_guards s4_interval s4_now started_output true)
    as [_ H3].
  split; [| split].
  - apply H1; [vm_compute; discriminate | reflexivity | reflexivity].
  - apply H2. right. reflexivity.
  - apply H3. left. reflexivity.
Defined.

(** ** Claims on the setters *)

(** [obs_output_set_mixer] leaves an active output as it was. *)
Lemma obs_output_set_mixer_active (output : obs_output) (mixer_idx : Z) :
  active output = true ->
  obs_output_set_mixer (Some output) mixer_idx = Some output.
Proof. intros H. unfold obs_output_set_mixer. rewrite H. reflexivity. Qed.

(** [obs_output_set_mixers] stores the mask, active or not. *)
Lemma obs_output_set_mixers_stores (output : obs_output) (mixers : Z) :
  option_map mixer_mask (obs_output_set_mixers (Some output) mixers)
  = Some mixers.
Proof. reflexivity. Qed.

(** C9, where the code departs from it.  On the active raw output with mixer
    mask 1, [obs_output_set_mixer] with index 2 changes nothing, but
    [obs_output_set_mixers] with mask 6 replaces the mask: the state of the
    active output is changed. *)
Theorem obs_output_set_mixers_changes_active_output :
  active raw_output = true
  /\ mixer_mask raw_output = 1
  /\ obs_output_set_mixer (Some raw_output) 2 = Some raw_output
  /\ obs_output_set_mixers (Some raw_output) 6
     = Some (set_mixer_mask 6 raw_output)
  /\ obs_output_set_mixers (Some raw_output) 6 <> Some raw_output.
Proof.
  split_all; try reflexivity.
  intros H. apply (f_equal (option_map mixer_mask)) in H. discriminate.
Qed.

(** ** Claims on the stop path and the reconnect controller *)

Section StopFacts.

Variable cleanup : Z -> Z -> Z * Z.
Variable end_thread_ret : Z.

Lemma same_reconnect_state_refl (a : obs_output) : same_reconnect_state a a.
Proof. repeat split. Qed.

Lemma same_reconnect_state_trans (a b c : obs_output) :
  same_reconnect_state a b -> same_reconnect_state b c ->
  same_reconnect_state a c.
Proof.
  unfold same_reconnect_state.
  intros (A1 & A2 & A3 & A4 & A5 & A6 & A7) (B1 & B2 & B3 & B4 & B5 & B6 & B7).
  repeat split; congruence.
Qed.

(** What the worker does when it runs. *)
Lemma end_data_capture_thread_effects (output : obs_output) :
  let output' := end_data_capture_thread cleanup output in
  signals output' = signals output ++ [signal "deactivate"]
  /\ active output' = false /\ stopping_event output' = true
  /\ end_data_capture_thread_active output' = false
  /\ data_active output' = data_active output
  /\ delay_active output' = delay_active output
  /\ delay_capturing output' = delay_capturing output
  /\ same_reconnect_state output' output.
Proof.
  unfold end_data_capture_thread, same_reconnect_state.
  destruct (negb (active_delay_ns output =? 0));
    [destruct (cleanup (active_delay_ns output) (delay_restart_refs output)) |];
    cbn; repeat split; reflexivity.
Qed.

(** Joining the worker: nothing when none is pending, the worker's run
    otherwise. *)
Lemma join_end_data_capture_thread_effects (output : obs_output) :
  let output' := join_end_data_capture_thread cleanup output in
  exists evs,
    signals output' = signals output ++ evs
    /\ (evs = [] \/ evs = [signal "deactivate"])
    /\ end_data_capture_thread_active output' = false
    /\ data_active output' = data_active output
    /\ delay_active output' = delay_active output
    /\ delay_capturing output' = delay_capturing output
    /\ same_reconnect_state output' output.
Proof.
  unfold join_end_data_capture_thread.
  destruct (end_data_capture_thread_active output) eqn:P.
  - destruct (end_data_capture_thread_effects output)
      as (S & _ & _ & F & Rest).
    exists [signal "deactivate"]. split; [exact S |].
    split; [now right |]. split; [exact F | exact Rest].
  - exists []. rewrite app_nil_r. split; [reflexivity |].
    split; [now left |]. split; [exact P |].
    repeat split; reflexivity.
Qed.

(** The three regimes of [obs_output_end_data_capture_internal]. *)
Lemma end_data_capture_not_capturing (output : obs_output) (signal' : bool) :
  active output = false \/ data_active output = false ->
  obs_output_end_data_capture_internal cleanup end_thread_ret output signal'
  = if signal'
    then set_stopping_event true
           (set_stop_code OBS_OUTPUT_SUCCESS (signal_stop output))
    else output.
Proof.
  intros H. unfold obs_output_end_data_capture_internal.
  replace (negb (active output) || negb (data_active output)) with true;
    [reflexivity |].
  destruct H as [-> | ->]; [reflexivity | apply eq_sym, orb_true_r].
Qed.

Lemma end_data_capture_delay_restarting (output : obs_output)
    (signal' : bool) :
  active output = true -> data_active output = true ->
  delay_active output = true -> delay_restart_refs output <> 0 ->
  obs_output_end_data_capture_internal cleanup end_thread_ret output signal'
  = set_stopping_event true (set_delay_capturing false output).
Proof.
  intros Ha Hd Hdel Hrefs. unfold obs_output_end_data_capture_internal.
  rewrite Ha, Hd, Hdel. simpl.
  apply Z.eqb_neq in Hrefs. rewrite Hrefs. reflexivity.
Qed.

(** The third regime: the capture is torn down.  Data capture is switched
    off, a worker left over is joined, and the new worker is created, or
    its body run when the thread cannot be created; only then does a
    signalling call raise the stop signal. *)
Lemma end_data_capture_tears_down (output : obs_output) (signal' : bool) :
  active output = true -> data_active output = true ->
  delay_active output = false \/ delay_restart_refs output = 0 ->
  let stopped :=
    set_data_active false
      (if delay_active output
       then set_delay_active false (set_delay_capturing false output)
       else output) in
  let created :=
    set_end_data_capture_thread_active true
      (join_end_data_capture_thread cleanup stopped) in
  let worked :=
    if negb (end_thread_ret =? 0)
    then end_data_capture_thread cleanup created
    else created in
  obs_output_end_data_capture_internal cleanup end_thread_ret output signal'
  = if signal'
    then set_stop_code OBS_OUTPUT_SUCCESS (signal_stop worked)
    else worked.
Proof.
  intros Ha Hd Hdel. cbv zeta. unfold obs_output_end_data_capture_internal.
  rewrite Ha, Hd. cbn [negb orb].
  destruct (delay_active output) eqn:D; cbn [andb].
  - destruct Hdel as [Hdel | Hdel]; [discriminate |].
    change (delay_restart_refs (set_delay_capturing false output))
      with (delay_restart_refs output).
    rewrite Hdel. reflexivity.
  - reflexivity.
Qed.

(** The state a tear-down leaves before the stop signal: the worker's
    "deactivate" is all that may have been signalled, by a worker that was
    joined or by the body run in place of the thread; data capture and the
    delay are off; the new worker is pending exactly when it was created. *)
Lemma end_data_capture_worked (output : obs_output) :
  let stopped :=
    set_data_active false
      (if delay_active output
       then set_delay_active false (set_delay_capturing false output)
       else output) in
  let created :=
    set_end_data_capture_thread_active true
      (join_end_data_capture_thread cleanup stopped) in
  let worked :=
    if negb (end_thread_ret =? 0)
    then end_data_capture_thread cleanup created
    else created in
  exists joined,
    signals worked
    = signals output ++ joined
      ++ (if end_thread_ret =? 0 then [] else [signal "deactivate"])
    /\ (joined = []
        \/ (joined = [signal "deactivate"]
            /\ end_data_capture_thread_active output = true))
    /\ data_active worked = false
    /\ delay_active worked = false
    /\ same_reconnect_state worked output
    /\ end_data_capture_thread_active worked = (end_thread_ret =? 0)
    /\ (end_thread_ret <> 0 ->
        active worked = false /\ stopping_event worked = true)
    /\ (end_thread_ret = 0 -> end_data_capture_thread_active output = false ->
        active worked = active output
        /\ stopping_event worked = stopping_event output).
Proof.
  cbv zeta.
  set (stopped := set_data_active false _).
  assert (St : signals stopped = signals output
               /\ data_active stopped = false
               /\ delay_active stopped = false
               /\ same_reconnect_state stopped output
               /\ end_data_capture_thread_active stopped
                  = end_data_capture_thread_active output
               /\ active stopped = active output
               /\ stopping_event stopped = stopping_event output).
  { unfold stopped, same_reconnect_state.
    destruct (delay_active output) eqn:D; cbn; rewrite ?D;
      repeat split; reflexivity. }
  destruct St as (S0 & D0 & Dl0 & K0 & F0 & A0 & E0).
  assert (J : exists joined,
             signals (join_end_data_capture_thread cleanup stopped)
             = signals output ++ joined
             /\ (joined = []
                 \/ (joined = [signal "deactivate"]
                     /\ end_data_capture_thread_active output = true))
             /\ data_active (join_end_data_capture_thread cleanup stopped)
                = false
             /\ delay_active (join_end_data_capture_thread cleanup stopped)
                = false
             /\ same_reconnect_state
                  (join_end_data_capture_thread cleanup stopped) output
             /\ (end_data_capture_thread_active output = false ->
                 join_end_data_capture_thread cleanup stopped = stopped)).
  { unfold join_end_data_capture_thread. rewrite F0.
    destruct (end_data_capture_thread_active output).
    - destruct (end_data_capture_thread_effects stopped)
        as (S1 & _ & _ & _ & D1 & Dl1 & _ & K1).
      exists [signal "deactivate"]. rewrite S1, S0, D1, Dl1.
      split; [reflexivity |]. split; [right; now split |].
      split; [exact D0 |]. split; [exact Dl0 |].
      split; [exact (same_reconnect_state_trans _ _ _ K1 K0) | discriminate].
    - exists []. rewrite app_nil_r.
      split; [exact S0 |]. split; [now left |].
      split; [exact D0 |]. split; [exact Dl0 |].
      split; [exact K0 | reflexivity]. }
  destruct J as (joined & S1 & E1 & D1 & Dl1 & K1 & Same).
  set (joined_state := join_end_data_capture_thread cleanup stopped) in *.
  set (created := set_end_data_capture_thread_active true joined_state).
  assert (Cr : signals created = signals joined_state
               /\ data_active created = data_active joined_state
               /\ delay_active created = delay_active joined_state
               /\ same_reconnect_state created joined_state
               /\ end_data_capture_thread_active created = true
               /\ active created = active joined_state
               /\ stopping_event created = stopping_event joined_state)
    by (unfold created, same_reconnect_state; repeat split; reflexivity).
  destruct Cr as (S2 & D2 & Dl2 & K2 & F2 & A2 & E2).
  exists joined. split; [| split; [exact E1 |]].
  - destruct (end_thread_ret =? 0); cbn [negb].
    + rewrite S2, S1, app_nil_r. reflexivity.
    + destruct (end_data_capture_thread_effects created) as (S3 & _).
      rewrite S3, S2, S1, <- app_assoc. reflexivity.
  - destruct (end_thread_ret =? 0) eqn:R; cbn [negb].
    + apply Z.eqb_eq in R.
      split; [congruence |]. split; [congruence |].
      split; [exact (same_reconnect_state_trans _ _ _ K2 K1) |].
      split; [exact F2 |]. split; [intros N; contradiction |].
      intros _ P. rewrite A2, E2, (Same P). split; assumption.
    + apply Z.eqb_neq in R.
      destruct (end_data_capture_thread_effects created)
        as (_ & A3 & E3 & F3 & D3 & Dl3 & _ & K3).
      split; [congruence |]. split; [congruence |].
      split; [exact (same_reconnect_state_trans _ _ _ K3
                       (same_reconnect_state_trans _ _ _ K2 K1)) |].
      split; [exact F3 |]. split; [intros _; split; assumption |].
      intros Z0. contradiction.
Qed.

(** Whatever the regime, the call appends to the signal log, creates no
    reconnect thread, and leaves the reconnect settings alone; a silent call
    raises no stop signal and keeps the stop code, a signalling call of an
    output whose delay is off raises the stop signal with the stop code. *)
Lemma end_data_capture_effects (output : obs_output) (signal' : bool) :
  let output' :=
    obs_output_end_data_capture_internal cleanup end_thread_ret output
      signal' in
  exists evs,
    signals output' = signals output ++ evs
    /\ scheduled_delays evs = []
    /\ reconnecting output' = reconnecting output
    /\ reconnect_retries output' = reconnect_retries output
    /\ reconnect_retry_max output' = reconnect_retry_max output
    /\ reconnect_retry_sec output' = reconnect_retry_sec output
    /\ reconnect_retry_cur_msec output' = reconnect_retry_cur_msec output
    /\ reconnect_retry_exp output' = reconnect_retry_exp output
    /\ (signal' = false ->
        (forall c, ~ In (signal_stop_code c) evs)
        /\ stop_code output' = stop_code output)
    /\ (signal' = true -> delay_active output = false ->
        In (signal_stop_code (stop_code output)) evs
        /\ delay_active output' = false).
Proof.
  cbv zeta.
  assert (Quiet : forall o : obs_output,
             obs_output_end_data_capture_internal cleanup end_thread_ret
               output signal'
             = (if signal'
                then set_stopping_event true
                       (set_stop_code OBS_OUTPUT_SUCCESS (signal_stop output))
                else output) ->
             exists evs,
               signals
                 (obs_output_end_data_capture_internal cleanup end_thread_ret
                    output signal')
               = signals output ++ evs
               /\ scheduled_delays evs = []
               /\ reconnecting
                    (obs_output_end_data_capture_internal cleanup
                       end_thread_ret output signal') = reconnecting output
               /\ reconnect_retries
                    (obs_output_end_data_capture_internal cleanup
                       end_thread_ret output signal')
                  = reconnect_retries output
               /\ reconnect_retry_max
                    (obs_output_end_data_capture_internal cleanup
                       end_thread_ret output signal')
                  = reconnect_retry_max output
               /\ reconnect_retry_sec
                    (obs_output_end_data_capture_internal cleanup
                       end_thread_ret output signal')
                  = reconnect_retry_sec output
               /\ reconnect_retry_cur_msec
                    (obs_output_end_data_capture_internal cleanup
                       end_thread_ret output signal')
                  = reconnect_retry_cur_msec output
               /\ reconnect_retry_exp
                    (obs_output_end_data_capture_internal cleanup
                       end_thread_ret output signal')
                  = reconnect_retry_exp output
               /\ (signal' = false ->
                   (forall c, ~ In (signal_stop_code c) evs)
                   /\ stop_code
                        (obs_output_end_data_capture_internal cleanup
                           end_thread_ret output signal')
                      = stop_code output)
               /\ (signal' = true -> delay_active output = false ->
                   In (signal_stop_code (stop_code output)) evs
                   /\ delay_active
                        (obs_output_end_data_capture_internal cleanup
                           end_thread_ret output signal') = false)).
  { intros _ ->. destruct signal'.
    - exists [signal_stop_code (stop_code output)]. simpl.
      repeat split; try reflexivity; try discriminate; auto.
    - exists []. rewrite app_nil_r. simpl.
      repeat split; try reflexivity; try discriminate; auto. }
  destruct (active output) eqn:A; [destruct (data_active output) eqn:D |];
    [| apply (Quiet output), end_data_capture_not_capturing; now right
     | apply (Quiet output), end_data_capture_not_capturing; now left].
  clear Quiet.
  assert (Torn : delay_active output = false \/ delay_restart_refs output = 0 ->
             exists evs,
               signals
                 (obs_output_end_data_capture_internal cleanup end_thread_ret
                    output signal')
               = signals output ++ evs
               /\ scheduled_delays evs = []
               /\ reconnecting
                    (obs_output_end_data_capture_internal cleanup
                       end_thread_ret output signal') = reconnecting output
               /\ reconnect_retries
                    (obs_output_end_data_capture_internal cleanup
                       end_thread_ret output signal')
                  = reconnect_retries output
               /\ reconnect_retry_max
                    (obs_output_end_data_capture_internal cleanup
                       end_thread_ret output signal')
                  = reconnect_retry_max output
               /\ reconnect_retry_sec
                    (obs_output_end_data_capture_internal cleanup
                       end_thread_ret output signal')
                  = reconnect_retry_sec output
               /\ reconnect_retry_cur_msec
                    (obs_output_end_data_capture_internal cleanup
                       end_thread_ret output signal')
                  = reconnect_retry_cur_msec output
               /\ reconnect_retry_exp
                    (obs_output_end_data_capture_internal cleanup
                       end_thread_ret output signal')
                  = reconnect_retry_exp output
               /\ (signal' = false ->
                   (forall c, ~ In (signal_stop_code c) evs)
                   /\ stop_code
                        (obs_output_end_data_capture_internal cleanup
                           end_thread_ret output signal')
                      = stop_code output)
               /\ (signal' = true -> delay_active output = false ->
                   In (signal_stop_code (stop_code output)) evs
                   /\ delay_active
                        (obs_output_end_data_capture_internal cleanup
                           end_thread_ret output signal') = false)).
  { intros H. rewrite (end_data_capture_tears_down output signal' A D H).
    destruct (end_data_capture_worked output)
      as (joined & S & E & _ & Dl & K & _).
    cbv zeta in *.
    match type of S with signals ?w = _ => set (worked := w) in * end.
    destruct K as (K1 & K2 & K3 & K4 & K5 & K6 & K7).
    assert (Sched : scheduled_delays
                      (joined
                       ++ (if end_thread_ret =? 0 then []
                           else [signal "deactivate"])) = []).
    { destruct E as [-> | [-> _]]; destruct (end_thread_ret =? 0);
        reflexivity. }
    assert (NoStop : forall c,
               ~ In (signal_stop_code c)
                   (joined
                    ++ (if end_thread_ret =? 0 then []
                        else [signal "deactivate"]))).
    { intros c H0. destruct E as [-> | [-> _]];
        destruct (end_thread_ret =? 0); simpl in H0;
        intuition discriminate. }
    destruct signal'.
    - exists ((joined
               ++ (if end_thread_ret =? 0 then [] else [signal "deactivate"]))
              ++ [signal_stop_code (stop_code output)]).
      unfold signal_stop. cbn. rewrite S, K1, <- !app_assoc.
      split; [reflexivity |].
      split; [unfold scheduled_delays in *;
              rewrite app_assoc, flat_map_app, Sched; reflexivity |].
      repeat split; try assumption; try discriminate.
      apply in_or_app. right. apply in_or_app. right. now left.
    - exists (joined
              ++ (if end_thread_ret =? 0 then [] else [signal "deactivate"])).
      split; [exact S |]. split; [exact Sched |].
      repeat split; try assumption; try discriminate. }
  destruct (delay_active output) eqn:Da.
  - destruct (Z.eq_dec (delay_restart_refs output) 0) as [Z0 | N0];
      [apply Torn; now right |].
    rewrite end_data_capture_delay_restarting by assumption.
    exists []. rewrite app_nil_r. cbn.
    repeat split; try reflexivity; try discriminate; auto.
  - apply Torn. now left.
Qed.

End StopFacts.

Section ReconnectFacts.

Variable cleanup : Z -> Z -> Z * Z.
Variable end_thread_ret : Z.

(** While retries remain, [output_reconnect] counts the retry, asks for the
    reconnect thread and, unless [pthread_create] returned a negative value,
    raises "reconnect"; the thread exists when [pthread_create] returned 0.
    The wait is the configured first delay at the first retry of a
    sequence, and is capped from the second on.  Nothing else changes. *)
Lemma output_reconnect_retries_left (ret : Z) (output : obs_output) :
  retries_made output < reconnect_retry_max output ->
  let output' := output_reconnect cleanup end_thread_ret ret output in
  let msec := reconnect_retry_cur_msec output' in
  signals output'
  = signals output
    ++ (if ret =? 0 then [reconnect_thread_created msec] else [])
    ++ (if ret <? 0 then [] else [signal_reconnect_timeout (msec / 1000)])
  /\ reconnecting output' = negb (ret <? 0)
  /\ delay_restart_refs output' = delay_restart_refs output
  /\ stop_code output' = OBS_OUTPUT_DISCONNECTED
  /\ reconnect_retries output' = retries_made output + 1
  /\ active output' = active output
  /\ data_active output' = data_active output
  /\ end_data_capture_thread_active output'
     = end_data_capture_thread_active output
  /\ delay_active output' = delay_active output
  /\ delay_capturing output' = delay_capturing output
  /\ (retries_made output = 0 ->
      msec = if reconnecting output then reconnect_retry_cur_msec output
             else wrap_u32 (reconnect_retry_sec output * 1000))
  /\ (retries_made output <> 0 -> msec <= RECONNECT_RETRY_MAX_MSEC).
Proof.
  unfold retries_made. intros H. cbv zeta.
  assert (Cap : forall x,
             (if x >? RECONNECT_RETRY_MAX_MSEC
              then RECONNECT_RETRY_MAX_MSEC else x)
             <= RECONNECT_RETRY_MAX_MSEC).
  { intros x. destruct (x >? RECONNECT_RETRY_MAX_MSEC) eqn:G; [lia |].
    rewrite Z.gtb_ltb in G. apply Z.ltb_ge in G. exact G. }
  destruct (reconnecting output) eqn:R; unfold output_reconnect;
    rewrite R; cbn [negb].
  - replace (reconnect_retries output >=? reconnect_retry_max output)
      with false by (symmetry; rewrite Z.geb_leb; apply Z.leb_gt; lia).
    rewrite R. cbn [negb].
    destruct (reconnect_retries output =? 0) eqn:Z0; cbn [negb];
      [apply Z.eqb_eq in Z0 | apply Z.eqb_neq in Z0];
      destruct (ret =? 0); destruct (ret <? 0); cbn;
      rewrite <- ?app_assoc, ?app_nil_r; cbn;
      repeat split; try reflexivity; try exact R; try lia;
      try (intros _; apply Cap).
  - cbn. rewrite ?R. cbn.
    replace (0 >=? reconnect_retry_max output)
      with false by (symmetry; rewrite Z.geb_leb; apply Z.leb_gt; lia).
    cbn. rewrite ?R. cbn.
    destruct (ret =? 0); destruct (ret <? 0); cbn;
      rewrite <- ?app_assoc, ?app_nil_r; cbn;
      repeat split; try reflexivity; try lia.
Qed.

(** While retries remain and the thread is created, [output_reconnect]
    creates the reconnect thread and raises "reconnect", and nothing else is
    signalled. *)
Lemma output_reconnect_schedules (output : obs_output) :
  retries_made output < reconnect_retry_max output ->
  let output' := output_reconnect cleanup end_thread_ret 0 output in
  exists msec,
    signals output'
    = signals output
      ++ [reconnect_thread_created msec;
          signal_reconnect_timeout (msec / 1000)]
    /\ reconnecting output' = true
    /\ delay_restart_refs output' = delay_restart_refs output
    /\ stop_code output' = OBS_OUTPUT_DISCONNECTED
    /\ reconnect_retries output' = retries_made output + 1.
Proof.
  intros H.
  destruct (output_reconnect_retries_left 0 output H)
    as (S & R & Refs & C & N & _).
  cbv zeta in *. eexists. split; [exact S |].
  repeat split; assumption.
Qed.

(** Once the retries are used up, [output_reconnect] gives up: no thread, the
    stop signal with [OBS_OUTPUT_DISCONNECTED], the reconnecting flag
    cleared. *)
Lemma output_reconnect_gives_up (ret : Z) (output : obs_output) :
  reconnect_retry_max output <= retries_made output ->
  let output' := output_reconnect cleanup end_thread_ret ret output in
  exists evs,
    signals output' = signals output ++ evs
    /\ scheduled_delays evs = []
    /\ In (signal_stop_code OBS_OUTPUT_DISCONNECTED) evs
    /\ reconnecting output' = false
    /\ output'
       = obs_output_end_data_capture cleanup end_thread_ret
           (let gave_up :=
              set_reconnecting false
                (set_stop_code OBS_OUTPUT_DISCONNECTED
                   (if reconnecting output then output
                    else set_reconnect_retries 0
                           (set_reconnect_retry_cur_msec
                              (wrap_u32 (reconnect_retry_sec output * 1000))
                              output))) in
            if delay_active gave_up then set_delay_active false gave_up
            else gave_up).
Proof.
  unfold retries_made, output_reconnect. intros H.
  assert (O1 : (if negb (reconnecting output)
                then set_reconnect_retries 0
                       (set_reconnect_retry_cur_msec
                          (wrap_u32 (reconnect_retry_sec output * 1000))
                          output)
                else output)
               = (if reconnecting output then output
                  else set_reconnect_retries 0
                         (set_reconnect_retry_cur_msec
                            (wrap_u32 (reconnect_retry_sec output * 1000))
                            output)))
    by (destruct (reconnecting output); reflexivity).
  rewrite O1.
  set (o1 := if reconnecting output then output else _).
  assert (E : (reconnect_retries o1 >=? reconnect_retry_max o1) = true
              /\ signals o1 = signals output).
  { unfold o1. destruct (reconnecting output); simpl;
      (split; [rewrite Z.geb_leb; apply Z.leb_le; lia | reflexivity]). }
  destruct E as [E S1]. rewrite E. clearbody o1. cbv zeta.
  unfold obs_output_end_data_capture.
  match goal with
  | |- context [obs_output_end_data_capture_internal cleanup end_thread_ret
                  ?o true] =>
      destruct (end_data_capture_effects cleanup end_thread_ret o true)
        as (evs & S & D & R & _ & _ & _ & _ & _ & _ & St);
      assert (Hdel : delay_active o = false)
        by (destruct (delay_active (set_reconnecting false
                        (set_stop_code OBS_OUTPUT_DISCONNECTED o1))) eqn:X;
            simpl; [reflexivity | exact X]);
      destruct (St eq_refl Hdel) as [Hin _];
      exists evs; rewrite S, R
  end.
  split; [| split; [exact D | split; [| split; [| reflexivity]]]].
  - destruct (delay_active _); simpl; rewrite S1; reflexivity.
  - destruct (delay_active _); simpl in *; exact Hin.
  - destruct (delay_active _); reflexivity.
Qed.

(** [output_reconnect] does not restart a data capture that has ended, and
    leaves the worker alone. *)
Lemma output_reconnect_capture_ended (ret : Z) (output : obs_output) :
  data_active output = false ->
  let output' := output_reconnect cleanup end_thread_ret ret output in
  data_active output' = false
  /\ active output' = active output
  /\ end_data_capture_thread_active output'
     = end_data_capture_thread_active output.
Proof.
  intros D. cbv zeta.
  destruct (Z.lt_ge_cases (retries_made output) (reconnect_retry_max output))
    as [Left | Used].
  - destruct (output_reconnect_retries_left ret output Left)
      as (_ & _ & _ & _ & _ & A & Da & F & _).
    cbv zeta in *. rewrite Da. repeat split; assumption.
  - destruct (output_reconnect_gives_up ret output Used)
      as (_ & _ & _ & _ & _ & E).
    rewrite E. cbv zeta. unfold obs_output_end_data_capture.
    rewrite end_data_capture_not_capturing
      by (right; destruct (reconnecting output);
          destruct (delay_active _); exact D).
    destruct (reconnecting output); destruct (delay_active _);
      cbn; repeat split; try reflexivity; exact D.
Qed.

Lemma can_reconnect_spec (output : obs_output) (code : Z) :
  can_reconnect (set_stop_code code output) code = true
  <-> (reconnecting output = true /\ code <> OBS_OUTPUT_SUCCESS)
      \/ (reconnect_retry_max output <> 0 /\ code = OBS_OUTPUT_DISCONNECTED).
Proof.
  unfold can_reconnect. simpl.
  rewrite orb_true_iff, !andb_true_iff, !negb_true_iff, !Z.eqb_neq, Z.eqb_eq.
  reflexivity.
Qed.

End ReconnectFacts.

(** C6 as stated fails, in two places.  The cap is not general: the first
    delay of a reconnect sequence is [reconnect_retry_sec * 1000] as
    configured, so 1000 seconds give a first retry after 1000000 ms, beyond
    the 900000 ms.  And once the output of S5 has given up, the stored stop
    code is not [OBS_OUTPUT_DISCONNECTED]: the code went out with the stop
    signal and the stored one is back to [OBS_OUTPUT_SUCCESS]. *)
Lemma s5_backoff_not_as_stated :
  (scheduled_delays
     (signals
        (output_reconnect delay_cleared 0 0
           (set_reconnect_retry_sec 1000 s5_output)))
   = [1000000]
   /\ RECONNECT_RETRY_MAX_MSEC < 1000000)
  /\ (stop_code s5_given_up = OBS_OUTPUT_SUCCESS
      /\ stop_code s5_given_up <> OBS_OUTPUT_DISCONNECTED).
Proof.
  split_all; try (vm_compute; reflexivity).
  vm_compute. discriminate.
Qed.

(** C6, amended.  In S5 the three notifications schedule retries after 2000,
    3000 and 4500 ms, in that order.  The first notification ends the data
    capture: data capture is switched off and the worker is created, which
    raises "deactivate" when it runs.  The fourth notification schedules
    nothing: the output gives up, the reconnecting flag is cleared, the stop
    signal is raised with [OBS_OUTPUT_DISCONNECTED], after which the stored
    stop code is [OBS_OUTPUT_SUCCESS], and the output is neither active nor
    capturing.  For every output, a wait that [output_reconnect] schedules
    is the current wait; from the second retry of a sequence on it is at
    most 900000 ms, and at the first retry it is the configured
    [reconnect_retry_sec * 1000], which is not capped. *)
Theorem s5_reconnect_backoff :
  scheduled_delays (signals s5_after_three_retries) = [2000; 3000; 4500]
  /\ scheduled_delays (signals s5_given_up) = [2000; 3000; 4500]
  /\ (data_active (disconnect_notified s5_output) = false
      /\ end_data_capture_thread_active (disconnect_notified s5_output) = true
      /\ signals (disconnect_notified s5_output)
         = [reconnect_thread_created 2000; signal_reconnect_timeout 2]
      /\ signals
           (join_end_data_capture_thread delay_cleared
              (disconnect_notified s5_output))
         = [reconnect_thread_created 2000; signal_reconnect_timeout 2;
            signal "deactivate"])
  /\ s5_given_up
     = obs_output_end_data_capture delay_cleared 0
         (set_reconnecting false
            (set_stop_code OBS_OUTPUT_DISCONNECTED s5_after_three_retries))
  /\ signals s5_given_up
     = signals s5_after_three_retries
       ++ [signal_stop_code OBS_OUTPUT_DISCONNECTED]
  /\ stop_code s5_given_up = OBS_OUTPUT_SUCCESS
  /\ reconnecting s5_after_three_retries = true
  /\ reconnecting s5_given_up = false
  /\ active s5_given_up = false
  /\ data_active s5_given_up = false
  /\ end_data_capture_thread_active s5_given_up = false
  /\ (forall (cleanup : Z -> Z -> Z * Z) (end_thread_ret ret : Z)
             (output : obs_output),
        let output' := output_reconnect cleanup end_thread_ret ret output in
        exists evs,
          signals output' = signals output ++ evs
          /\ forall msec,
               In msec (scheduled_delays evs) ->
               msec = reconnect_retry_cur_msec output'
               /\ (retries_made output <> 0 ->
                   msec <= RECONNECT_RETRY_MAX_MSEC)
               /\ (retries_made output = 0 ->
                   msec = if reconnecting output
                          then reconnect_retry_cur_msec output
                          else wrap_u32 (reconnect_retry_sec output * 1000))).
Proof.
  do 11 (split; [split_all; vm_compute; reflexivity |]).
  intros cleanup end_thread_ret ret output. cbv zeta.
  destruct (Z.lt_ge_cases (retries_made output) (reconnect_retry_max output))
    as [Left | Used].
  - destruct (output_reconnect_retries_left cleanup end_thread_ret ret output
                Left)
      as (S & _ & _ & _ & _ & _ & _ & _ & _ & _ & First & Later).
    cbv zeta in *. eexists. split; [exact S |].
    intros msec Hm.
    assert (E : msec
                = reconnect_retry_cur_msec
                    (output_reconnect cleanup end_thread_ret ret output)).
    { destruct (ret =? 0); destruct (ret <? 0); simpl in Hm;
        intuition. }
    rewrite E. split; [reflexivity |]. split; assumption.
  - destruct (output_reconnect_gives_up cleanup end_thread_ret ret output
                Used)
      as (evs & S & Sch & _).
    exists evs. split; [exact S |]. rewrite Sch. intros msec [].
Qed.

(** C7 as stated fails, at two inputs.  At the fourth notification of S5 the
    output is reconnecting and the code is [OBS_OUTPUT_DISCONNECTED] with a
    retry maximum of 3, yet no reconnect is scheduled and the stop signal is
    raised.  With a retry maximum of -1 and an active delay the output is not
    reconnecting and the maximum is not greater than 0, yet the stop is not
    the finalized one: the silent end of data capture has switched
    [delay_capturing] off and the retry delay has been set up. *)
Lemma signal_stop_not_as_stated :
  (reconnecting s5_after_three_retries = true
   /\ 0 < reconnect_retry_max s5_after_three_retries
   /\ scheduled_delays (signals s5_given_up)
      = scheduled_delays (signals s5_after_three_retries)
   /\ In (signal_stop_code OBS_OUTPUT_DISCONNECTED) (signals s5_given_up))
  /\ (reconnecting negative_max_output = false
      /\ ~ 0 < reconnect_retry_max negative_max_output
      /\ obs_output_signal_stop delay_cleared 0 0 (Some negative_max_output)
           OBS_OUTPUT_DISCONNECTED
         <> Some (finalize_stop delay_cleared 0 negative_max_output
                    OBS_OUTPUT_DISCONNECTED)
      /\ option_map delay_capturing
           (obs_output_signal_stop delay_cleared 0 0
              (Some negative_max_output) OBS_OUTPUT_DISCONNECTED)
         = Some false
      /\ delay_capturing
           (finalize_stop delay_cleared 0 negative_max_output
              OBS_OUTPUT_DISCONNECTED) = true).
Proof.
  split.
  - split_all; try (vm_compute; reflexivity).
    vm_compute. do 7 right. left. reflexivity.
  - split_all; try (vm_compute; reflexivity).
    + vm_compute. discriminate.
    + intros H. apply (f_equal (option_map delay_capturing)) in H.
      vm_compute in H. discriminate.
Qed.

(** C7, amended.  [obs_output_signal_stop] takes the reconnect path exactly
    when the output is reconnecting and the code is not [OBS_OUTPUT_SUCCESS],
    or the retry maximum is not 0 and the code is [OBS_OUTPUT_DISCONNECTED].
    On that path the reconnect thread is created exactly when retries remain
    and [pthread_create] returns 0.  While retries remain no stop signal is
    raised, the output is reconnecting unless [pthread_create] returned a
    negative value, and [delay_restart_refs] has been incremented if the
    delay is active; with no retry left the output gives up and raises the
    stop signal with [OBS_OUTPUT_DISCONNECTED].  The data capture of a
    capturing output is ended on that path when the delay is not active:
    data capture is switched off and the worker is created, or its body run
    when the thread cannot be created; with the delay active and retries
    left the capture is kept for the restart, only [delay_capturing] is
    switched off.  Off the path the stop is finalized: the delay is switched
    off and the stop signal is raised with the code given. *)
Theorem obs_output_signal_stop_paths :
  forall (cleanup : Z -> Z -> Z * Z) (end_thread_ret ret : Z)
         (output : obs_output) (code : Z),
    let may_reconnect :=
      (reconnecting output = true /\ code <> OBS_OUTPUT_SUCCESS)
      \/ (reconnect_retry_max output <> 0 /\ code = OBS_OUTPUT_DISCONNECTED) in
    let capturing := active output = true /\ data_active output = true in
    exists output' evs,
      obs_output_signal_stop cleanup end_thread_ret ret (Some output) code
      = Some output'
      /\ signals output' = signals output ++ evs
      /\ (can_reconnect (set_stop_code code output) code = true
          <-> may_reconnect)
      /\ (scheduled_delays evs <> []
          <-> may_reconnect
              /\ retries_made output < reconnect_retry_max output
              /\ ret = 0)
      /\ (may_reconnect ->
          retries_made output < reconnect_retry_max output ->
          (forall c, ~ In (signal_stop_code c) evs)
          /\ reconnecting output' = negb (ret <? 0)
          /\ (delay_active output = true -> 0 <= delay_restart_refs output ->
              delay_restart_refs output' = delay_restart_refs output + 1))
      /\ (may_reconnect ->
          reconnect_retry_max output <= retries_made output ->
          In (signal_stop_code OBS_OUTPUT_DISCONNECTED) evs
          /\ reconnecting output' = false)
      /\ (may_reconnect -> capturing -> delay_active output = false ->
          data_active output' = false
          /\ end_data_capture_thread_active output' = (end_thread_ret =? 0)
          /\ (end_thread_ret <> 0 -> active output' = false))
      /\ (may_reconnect -> capturing -> delay_active output = true ->
          0 <= delay_restart_refs output ->
          retries_made output < reconnect_retry_max output ->
          data_active output' = true /\ active output' = true
          /\ delay_capturing output' = false)
      /\ (~ may_reconnect ->
          output' = finalize_stop cleanup end_thread_ret output code
          /\ In (signal_stop_code code) evs
          /\ delay_active output' = false).
Proof.
  intros cleanup end_thread_ret ret output code may_reconnect capturing.
  pose proof (can_reconnect_spec output code) as Hcan.
  fold may_reconnect in Hcan.
  unfold obs_output_signal_stop.
  destruct (can_reconnect (set_stop_code code output) code) eqn:C.
  - (* the reconnect path *)
    assert (Hmay : may_reconnect) by (apply Hcan; reflexivity).
    match goal with
    | |- context [obs_output_end_data_capture_internal cleanup end_thread_ret
                    ?o false] =>
        remember o as o2 eqn:Eo2
    end.
    assert (F2 : signals o2 = signals output
                 /\ reconnecting o2 = reconnecting output
                 /\ reconnect_retries o2 = reconnect_retries output
                 /\ reconnect_retry_max o2 = reconnect_retry_max output
                 /\ delay_active o2 = delay_active output
                 /\ delay_restart_refs o2
                    = (if delay_active output
                       then delay_restart_refs output + 1
                       else delay_restart_refs output)
                 /\ active o2 = active output
                 /\ data_active o2 = data_active output).
    { subst o2.
      change (delay_active (set_stop_code code output))
        with (delay_active output).
      destruct (delay_active output) eqn:D; simpl; rewrite ?D;
        repeat split; reflexivity. }
    clear Eo2. destruct F2 as (S2 & R2 & N2 & M2 & D2 & Refs2 & A2 & Da2).
    destruct (end_data_capture_effects cleanup end_thread_ret o2 false)
      as (evs3 & S3 & Sch3 & R3 & N3 & M3 & _ & _ & _ & Silent & _).
    destruct (Silent eq_refl) as [NoStop3 _].
    set (o3 := obs_output_end_data_capture_internal cleanup end_thread_ret
                 o2 false) in *.
    assert (Made : retries_made o3 = retries_made output)
      by (unfold retries_made; rewrite R3, N3, R2, N2; reflexivity).
    (* what the silent end of data capture did *)
    assert (Ended : capturing -> delay_active output = false ->
               data_active o3 = false
               /\ end_data_capture_thread_active o3 = (end_thread_ret =? 0)
               /\ (end_thread_ret <> 0 -> active o3 = false)).
    { intros [A Da] Dl. unfold o3.
      rewrite (end_data_capture_tears_down cleanup end_thread_ret o2 false)
        by (first [congruence | left; congruence]).
      destruct (end_data_capture_worked cleanup end_thread_ret o2)
        as (_ & _ & _ & Dw & _ & _ & Fw & Aw & _).
      cbv zeta in *. split; [exact Dw |]. split; [exact Fw |].
      intros N. apply (Aw N). }
    assert (Kept : capturing -> delay_active output = true ->
               0 <= delay_restart_refs output ->
               data_active o3 = true /\ active o3 = true
               /\ delay_capturing o3 = false
               /\ delay_restart_refs o3 = delay_restart_refs output + 1).
    { intros [A Da] Dl Refs. unfold o3. rewrite Dl in Refs2.
      rewrite (end_data_capture_delay_restarting cleanup end_thread_ret o2
                 false) by (first [congruence | lia]).
      cbn. repeat split; congruence. }
    assert (Refs3 : delay_active output = true ->
               0 <= delay_restart_refs output ->
               delay_restart_refs o3 = delay_restart_refs output + 1).
    { intros Hdel Hrefs. rewrite Hdel in Refs2.
      destruct (active o2) eqn:A; [destruct (data_active o2) eqn:DA |].
      - unfold o3.
        rewrite (end_data_capture_delay_restarting cleanup end_thread_ret o2
                   false A DA);
          [simpl; exact Refs2 | rewrite D2; exact Hdel | lia].
      - unfold o3.
        rewrite (end_data_capture_not_capturing cleanup end_thread_ret o2
                   false);
          [exact Refs2 | now right].
      - unfold o3.
        rewrite (end_data_capture_not_capturing cleanup end_thread_ret o2
                   false);
          [exact Refs2 | now left]. }
    assert (Tail : may_reconnect -> capturing -> delay_active output = false ->
               data_active (output_reconnect cleanup end_thread_ret ret o3)
               = false
               /\ end_data_capture_thread_active
                    (output_reconnect cleanup end_thread_ret ret o3)
                  = (end_thread_ret =? 0)
               /\ (end_thread_ret <> 0 ->
                   active (output_reconnect cleanup end_thread_ret ret o3)
                   = false)).
    { intros _ Cap Dl. destruct (Ended Cap Dl) as (E1 & E2 & E3).
      destruct (output_reconnect_capture_ended cleanup end_thread_ret ret o3
                  E1) as (T1 & T2 & T3).
      cbv zeta in *. rewrite T2, T3. repeat split; assumption. }
    destruct (Z.lt_ge_cases (retries_made output) (reconnect_retry_max output))
      as [Left | Used].
    + destruct (output_reconnect_retries_left cleanup end_thread_ret ret o3)
        as (S4 & R4 & Refs4 & _ & _ & A4 & Da4 & _ & _ & Dc4 & _);
        [rewrite Made, M3, M2; exact Left |].
      cbv zeta in S4, R4, Refs4, A4, Da4, Dc4.
      set (o4 := output_reconnect cleanup end_thread_ret ret o3) in *.
      exists o4,
        (evs3
         ++ (if ret =? 0
             then [reconnect_thread_created (reconnect_retry_cur_msec o4)]
             else [])
         ++ (if ret <? 0 then []
             else [signal_reconnect_timeout
                     (reconnect_retry_cur_msec o4 / 1000)])).
      split; [reflexivity |].
      split; [rewrite S4, S3, S2, <- app_assoc; reflexivity |].
      split; [tauto |].
      split.
      { unfold scheduled_delays in *. rewrite !flat_map_app, Sch3.
        destruct (Z.eqb_spec ret 0) as [-> | N]; simpl.
        - split; [intros _; tauto | intros _; discriminate].
        - destruct (ret <? 0); simpl;
            (split; [intros H; now elim H | intros (_ & _ & H); contradiction]). }
      split.
      { intros _ _. split; [| split; [exact R4 |]].
        - intros c Hin. apply in_app_or in Hin. destruct Hin as [Hin | Hin].
          + exact (NoStop3 c Hin).
          + destruct (ret =? 0); destruct (ret <? 0); simpl in Hin;
              intuition discriminate.
        - intros Hdel Hrefs. rewrite Refs4. exact (Refs3 Hdel Hrefs). }
      split; [intros _ Hle; lia |].
      split; [exact Tail |].
      split.
      { intros _ Cap Dl Refs _.
        destruct (Kept Cap Dl Refs) as (K1 & K2 & K3 & _).
        rewrite Da4, A4, Dc4. repeat split; assumption. }
      intros Hn. contradiction.
    + destruct (output_reconnect_gives_up cleanup end_thread_ret ret o3)
        as (evs4 & S4 & Sch4 & Stop4 & R4 & _);
        [rewrite Made, M3, M2; lia |].
      exists (output_reconnect cleanup end_thread_ret ret o3), (evs3 ++ evs4).
      split; [reflexivity |].
      split; [rewrite S4, S3, S2, app_assoc; reflexivity |].
      split; [tauto |].
      split.
      { unfold scheduled_delays in *. rewrite flat_map_app, Sch3, Sch4. simpl.
        split; [intros H; now elim H | intros (_ & H & _); lia]. }
      split; [intros _ Hlt; lia |].
      split; [intros _ _; split; [apply in_or_app; now right | exact R4] |].
      split; [exact Tail |].
      split; [intros _ _ _ _ Hlt; lia |].
      intros Hn. contradiction.
  - (* the stop finalized *)
    assert (Hnot : ~ may_reconnect) by (rewrite <- Hcan; discriminate).
    unfold finalize_stop, obs_output_end_data_capture.
    match goal with
    | |- context [obs_output_end_data_capture_internal cleanup end_thread_ret
                    ?o true] =>
        remember o as o2 eqn:Eo2
    end.
    assert (F2 : signals o2 = signals output /\ delay_active o2 = false
                 /\ stop_code o2 = code).
    { subst o2.
      change (delay_active (set_stop_code code output))
        with (delay_active output).
      destruct (delay_active output) eqn:D; simpl; rewrite ?D;
        repeat split; reflexivity. }
    clear Eo2.
    destruct F2 as (S2 & D2 & C2).
    destruct (end_data_capture_effects cleanup end_thread_ret o2 true)
      as (evs & S & Sch & _ & _ & _ & _ & _ & _ & _ & Loud).
    destruct (Loud eq_refl D2) as [Stop Doff].
    exists (obs_output_end_data_capture_internal cleanup end_thread_ret o2
              true), evs.
    split; [reflexivity |].
    split; [rewrite S, S2; reflexivity |].
    split; [rewrite <- Hcan; split; [discriminate | tauto] |].
    split; [split; [intros H; now elim H | tauto] |].
    split; [tauto |].
    split; [tauto |].
    split; [tauto |].
    split; [tauto |].
    intros _. split; [reflexivity |].
    split; [rewrite <- C2; exact Stop | exact Doff].
Qed.

Lemma obs_output_signal_stop_paths_witness :
  (reconnecting s5_output = false
   /\ reconnect_retry_max s5_output <> 0
   /\ retries_made s5_output < reconnect_retry_max s5_output)
  /\ exists output',
       obs_output_signal_stop delay_cleared 0 0 (Some s5_output)
         OBS_OUTPUT_DISCONNECTED = Some output'
       /\ reconnecting output' = true
       /\ scheduled_delays (signals output') <> []
       /\ data_active output' = false
       /\ end_data_capture_thread_active output' = true.
Proof.
  split; [split; [reflexivity | split; [vm_compute; discriminate | vm_compute; reflexivity]] |].
  destruct (obs_output_signal_stop_paths delay_cleared 0 0 s5_output
              OBS_OUTPUT_DISCONNECTED)
    as (output' & evs & E & S & _ & Sched & Path & _ & Ended & _).
  assert (May : (reconnecting s5_output = true
                 /\ OBS_OUTPUT_DISCONNECTED <> OBS_OUTPUT_SUCCESS)
                \/ (reconnect_retry_max s5_output <> 0
                    /\ OBS_OUTPUT_DISCONNECTED = OBS_OUTPUT_DISCONNECTED))
    by (right; split; [vm_compute; discriminate | reflexivity]).
  assert (Left : retries_made s5_output < reconnect_retry_max s5_output)
    by (vm_compute; reflexivity).
  destruct (Path May Left) as (_ & R & _).
  destruct (Ended May (conj eq_refl eq_refl) eq_refl) as (Da & Fl & _).
  exists output'. split; [exact E |]. split; [exact R |].
  split; [| split; [exact Da | exact Fl]].
  rewrite S. unfold scheduled_delays in *. rewrite flat_map_app.
  intros H. apply app_eq_nil in H. destruct H as [_ H].
  apply Sched; [split; [exact May | split; [exact Left | reflexivity]] | exact H].
Defined.

(** ** Claims on the caption injector *)

(** C8. While a video packet is sent, the text queue loses an entry only if
    it was not empty and [caption_timestamp] was at most the frame timestamp
    pts * timebase_num / timebase_den; when both hold and the packet has
    priority at most 1, [caption_timestamp] becomes the frame timestamp plus
    the display duration of the head text, and with no raw caption data
    pending the head text is appended to the packet as an SEI and leaves the
    queue.  Otherwise queue and [caption_timestamp] stay.  In S6 the frame at
    10.0 carries "HELLO" and [caption_timestamp] becomes 12.0, the frames at
    10.5 and 11.0 are sent as they came, and the frame at 12.0 carries
    "WORLD". *)
Theorem text_caption_injection :
  (forall (eia608_parity_varify : Z -> bool) (output : obs_output)
          (out : encoder_packet),
     let frame_timestamp := frame_timestamp_of out in
     let r := send_interleaved_captions eia608_parity_varify output out in
     (caption_head (fst r) <> caption_head output ->
      caption_head output <> []
      /\ PrimFloat.leb (caption_timestamp output) frame_timestamp = true)
     /\ (forall head next,
           caption_head output = head :: next ->
           PrimFloat.leb (caption_timestamp output) frame_timestamp = true ->
           priority out <= 1 ->
           caption_timestamp (fst r)
             = (frame_timestamp + display_duration head)%float
           /\ (caption_data output = [] ->
               caption_head (fst r) = next
               /\ data (snd r)
                  = data out
                    ++ [nal_start; sei [sei_caption_frame (text head)]]))
     /\ (caption_head output = []
         \/ PrimFloat.leb (caption_timestamp output) frame_timestamp = false ->
         caption_head (fst r) = caption_head output
         /\ caption_timestamp (fst r) = caption_timestamp output))
  /\ (map text (caption_head s6_output) = ["HELLO"; "WORLD"]%string
      /\ map display_duration (caption_head s6_output) = [2%float; 2%float]
      /\ map frame_timestamp_of (interleaved_packets s6_output)
         = [10%float; 10.5%float; 11%float; 12%float]
      /\ map data (sink (s6_sent 4))
         = [[payload []; nal_start; sei [sei_caption_frame "HELLO"]];
            [payload []];
            [payload []];
            [payload []; nal_start; sei [sei_caption_frame "WORLD"]]]
      /\ caption_timestamp (s6_sent 1) = 12%float
      /\ caption_timestamp (s6_sent 3) = 12%float
      /\ map text (caption_head (s6_sent 3)) = ["WORLD"]%string
      /\ caption_head (s6_sent 4) = []).
Proof.
  split.
  - intros par output out frame_timestamp r.
    unfold r, send_interleaved_captions, add_caption. fold frame_timestamp.
    destruct (caption_head output) as [| head next] eqn:Ch;
      destruct (PrimFloat.leb (caption_timestamp output) frame_timestamp)
        eqn:Le;
      destruct (priority out >? 1) eqn:Pr;
      destruct (caption_data output) as [| c cs] eqn:Cd;
      destruct (PrimFloat.ltb (last_caption_timestamp output) frame_timestamp)
        eqn:Lt;
      repeat (cbn; rewrite ?Ch, ?Le, ?Pr, ?Cd, ?Lt);
      (split;
       [ intros N; first [now elim N | split; [discriminate | reflexivity]]
       | split;
         [ intros h n E L P;
           first
             [ discriminate
             | lia
             | injection E as <- <-;
               split;
               [ reflexivity
               | intros D; first [discriminate | split; reflexivity] ] ]
         | intros [E | E]; first [discriminate | split; reflexivity] ] ]).
  - split_all; vm_compute; reflexivity.
Qed.

(** * Further properties of the code *)

(** ** The callback as a whole *)

Section CallbackFacts.

Variable eia608_parity_varify : Z -> bool.

(** Captions leave the reception flags and the frame counter alone. *)
Lemma send_interleaved_captions_keeps (output : obs_output)
    (out : encoder_packet) :
  let r := send_interleaved_captions eia608_parity_varify output out in
  received_audio (fst r) = received_audio output
  /\ received_video (fst r) = received_video output
  /\ total_frames (fst r) = total_frames output.
Proof.
  unfold send_interleaved_captions, add_caption.
  set (ft := frame_timestamp_of out). clearbody ft.
  destruct (caption_head output) as [| h n] eqn:Ch;
    destruct (PrimFloat.leb (caption_timestamp output) ft) eqn:Le;
    destruct (priority out >? 1) eqn:Pr;
    destruct (caption_data output) as [| c cs] eqn:Cd;
    destruct (PrimFloat.ltb (last_caption_timestamp output) ft) eqn:Lt;
    repeat (cbn; rewrite ?Ch, ?Le, ?Pr, ?Cd, ?Lt);
    repeat split; reflexivity.
Qed.

(** What [send_interleaved] changes besides buffer and sink: the frame
    counter, by one for a video packet; the reception flags never. *)
Lemma send_interleaved_effects (output : obs_output) :
  let output' := send_interleaved eia608_parity_varify output in
  received_audio output' = received_audio output
  /\ received_video output' = received_video output
  /\ exists sent,
       sink output' = sink output ++ sent
       /\ (length sent <= 1)%nat
       /\ total_frames output' = total_frames output + count_video sent
       /\ (length (interleaved_packets output') + length sent
           = length (interleaved_packets output))%nat.
Proof.
  unfold send_interleaved.
  destruct (interleaved_packets output) as [| out rest] eqn:B.
  - split; [reflexivity |]. split; [reflexivity |].
    exists []. rewrite app_nil_r, ?B. unfold count_video. simpl.
    repeat split; try reflexivity; lia.
  - destruct (has_higher_opposing_ts output out); simpl.
    + destruct (type out) eqn:T.
      * split; [reflexivity |]. split; [reflexivity |].
        exists [out]. unfold count_video, is_video. simpl. rewrite T. simpl.
        repeat split; try reflexivity; lia.
      * set (o1 := set_total_frames _ (set_interleaved_packets rest output)).
        pose proof (send_interleaved_captions_keeps o1 out) as F.
        pose proof (send_interleaved_captions_frame eia608_parity_varify
                      o1 out) as G.
        simpl in F, G.
        destruct (send_interleaved_captions eia608_parity_varify o1 out)
          as [o2 p2].
        simpl in *. destruct F as (Fa & Fv & Ft).
        destruct G as (Gb & Gs & Gt & _).
        split; [exact Fa |]. split; [exact Fv |].
        exists [p2]. rewrite Gs, Gb, Ft.
        unfold count_video, is_video. simpl. rewrite Gt, T. simpl.
        repeat split; try reflexivity; lia.
    + split; [reflexivity |]. split; [reflexivity |].
      exists []. rewrite app_nil_r, ?B. unfold count_video. simpl.
      repeat split; try reflexivity; lia.
Qed.


(** Pruning and initialization touch neither sink nor frame counter; when
    they succeed they leave the reception flags as they found them, and they
    never make the buffer longer. *)
Lemma prune_interleaved_packets_keeps (output : obs_output) :
  let r := prune_interleaved_packets output in
  sink (fst r) = sink output
  /\ total_frames (fst r) = total_frames output
  /\ (length (interleaved_packets (fst r))
      <= length (interleaved_packets output))%nat
  /\ (snd r = true ->
      received_audio (fst r) = received_audio output
      /\ received_video (fst r) = received_video output).
Proof.
  unfold prune_interleaved_packets, prune_premature_packets.
  destruct (packet_at output _) as [video |]; simpl;
    [| repeat split; try reflexivity; try lia; discriminate].
  destruct (prune_premature_loop _ _ _ _ _ _) as [[[max_idx max_diff] diff] |];
    simpl; [| repeat split; try reflexivity; try lia; discriminate].
  destruct ((if diff >? _ then max_idx + 1 else 0) =? -1); simpl;
    [repeat split; try reflexivity; try lia; discriminate |].
  match goal with
  | |- context [discard_to_idx output ?k] => set (idx := k)
  end.
  destruct (negb (idx =? 0)); simpl; repeat split; try reflexivity; try lia.
  rewrite length_skipn. lia.
Qed.

Lemma get_audio_and_video_packets_keeps (output : obs_output) (n : nat) :
  let r := get_audio_and_video_packets output n in
  sink (fst r) = sink output
  /\ total_frames (fst r) = total_frames output
  /\ interleaved_packets (fst r) = interleaved_packets output
  /\ (snd r <> None ->
      received_audio (fst r) = received_audio output
      /\ received_video (fst r) = received_video output).
Proof.
  unfold get_audio_and_video_packets.
  destruct (find_first_packet_type output OBS_ENCODER_VIDEO 0);
    destruct (first_audio_packets _ _); simpl;
    repeat split; try reflexivity; congruence.
Qed.

Lemma initialize_interleaved_packets_keeps (output : obs_output) :
  let r := initialize_interleaved_packets output in
  sink (fst r) = sink output
  /\ total_frames (fst r) = total_frames output
  /\ (length (interleaved_packets (fst r))
      <= length (interleaved_packets output))%nat
  /\ (snd r = true ->
      received_audio (fst r) = received_audio output
      /\ received_video (fst r) = received_video output).
Proof.
  unfold initialize_interleaved_packets.
  pose proof (get_audio_and_video_packets_keeps output
                (num_audio_mixes output)) as H1.
  destruct (get_audio_and_video_packets output (num_audio_mixes output))
    as [o1 [[video audio] |]]; simpl in H1;
    destruct H1 as (S1 & T1 & B1 & F1).
  - destruct (F1 ltac:(discriminate)) as [Fa1 Fv1].
    destruct (audio_ends_before_video o1 video (num_audio_mixes output)).
    + simpl. rewrite B1. repeat split; try assumption; try lia; discriminate.
    + destruct (negb (get_interleaved_start_idx o1 =? 0)).
      * pose proof (get_audio_and_video_packets_keeps
                      (discard_to_idx o1 (get_interleaved_start_idx o1))
                      (num_audio_mixes output)) as H2.
        destruct (get_audio_and_video_packets
                    (discard_to_idx o1 (get_interleaved_start_idx o1))
                    (num_audio_mixes output)) as [o2 [[video2 audio2] |]];
          simpl in H2; destruct H2 as (S2 & T2 & B2 & F2).
        -- destruct (F2 ltac:(discriminate)) as [Fa2 Fv2].
           destruct audio2; simpl; rewrite ?length_map, B2, length_skipn, B1;
             repeat split; try congruence; lia.
        -- simpl. rewrite B2. simpl. rewrite length_skipn, B1.
           repeat split; try congruence; try lia; discriminate.
      * destruct audio; simpl; rewrite ?length_map, B1;
          repeat split; try congruence; lia.
  - simpl. rewrite B1. repeat split; try assumption; try lia; discriminate.
Qed.

Lemma resort_interleaved_packets_keeps (output : obs_output) :
  let output' := resort_interleaved_packets output in
  sink output' = sink output
  /\ total_frames output' = total_frames output
  /\ received_audio output' = received_audio output
  /\ received_video output' = received_video output
  /\ length (interleaved_packets output')
     = length (interleaved_packets output).
Proof.
  unfold resort_interleaved_packets.
  assert (G : forall packets o,
            let o' := fold_left insert_interleaved_packet packets o in
            sink o' = sink o /\ total_frames o' = total_frames o
            /\ received_audio o' = received_audio o
            /\ received_video o' = received_video o
            /\ (length (interleaved_packets o')
                = length (interleaved_packets o) + length packets)%nat).
  { induction packets as [| p rest IH]; intros o; simpl.
    - repeat split; lia.
    - destruct (IH (insert_interleaved_packet o p)) as (A & B & C & D & E).
      rewrite A, B, C, D, E. unfold insert_interleaved_packet. simpl.
      unfold insert_packet, da_insert.
      rewrite length_app. simpl. rewrite length_firstn, length_skipn.
      pose proof (insert_interleaved_idx_leftmost (interleaved_packets o) p)
        as [L _].
      repeat split; lia. }
  destruct (G (interleaved_packets output)
              (set_interleaved_packets [] output)) as (A & B & C & D & E).
  simpl in *. repeat split; assumption.
Qed.

(** One callback is one insertion followed by at most one emission: up to
    the call of [send_interleaved] the sink and the frame counter are as
    before, the buffer has grown by at most the new packet, and
    [send_interleaved] is only reached with both streams received. *)
Lemma interleave_packets_cases (output : obs_output)
    (packet : encoder_packet) :
  let output' := interleave_packets eia608_parity_varify output packet in
  exists mid,
    sink mid = sink output
    /\ total_frames mid = total_frames output
    /\ (length (interleaved_packets mid)
        <= S (length (interleaved_packets output)))%nat
    /\ (output' = mid
        \/ (output' = send_interleaved eia608_parity_varify mid
            /\ received_audio mid = true /\ received_video mid = true)).
Proof.
  unfold interleave_packets.
  destruct (negb (active output));
    [exists output; repeat split; auto |].
  match goal with
  | |- context [is_video ?p] => set (pkt := p)
  end.
  destruct (negb (received_video output) && is_video pkt
            && negb (keyframe pkt)).
  { eexists. split; [| split; [| split; [| left; reflexivity]]].
    - unfold discard_unused_audio_packets.
      destruct (negb (discard_unused_idx _ _ =? 0)); reflexivity.
    - unfold discard_unused_audio_packets.
      destruct (negb (discard_unused_idx _ _ =? 0)); reflexivity.
    - unfold discard_unused_audio_packets.
      destruct (negb (discard_unused_idx _ _ =? 0)); simpl;
        rewrite ?length_skipn; lia. }
  set (was_started := received_audio output && received_video output).
  set (out := if was_started
              then apply_interleaved_packet_offset output pkt else pkt).
  set (o1 := if was_started then output else check_received output pkt).
  set (o2 := set_higher_ts (insert_interleaved_packet o1 out) out).
  assert (H2 : sink o2 = sink output
               /\ total_frames o2 = total_frames output
               /\ (length (interleaved_packets o2)
                   = S (length (interleaved_packets output)))%nat).
  { assert (H1 : sink o1 = sink output
                 /\ total_frames o1 = total_frames output
                 /\ interleaved_packets o1 = interleaved_packets output).
    { unfold o1, check_received. destruct was_started; [auto |].
      destruct (type pkt);
        [destruct (negb (received_audio output))
        | destruct (negb (received_video output))]; auto. }
    destruct H1 as (A & B & C).
    unfold o2, set_higher_ts.
    assert (L : length (insert_packet (interleaved_packets o1) out)
                = S (length (interleaved_packets output))).
    { rewrite C. unfold insert_packet, da_insert. rewrite length_app. simpl.
      rewrite length_firstn, length_skipn.
      pose proof (insert_interleaved_idx_leftmost
                    (interleaved_packets output) out) as [L _].
      lia. }
    destruct (type out);
      [destruct (highest_audio_ts _ <? _)
      | destruct (highest_video_ts _ <? _)]; simpl;
      repeat split; assumption. }
  destruct H2 as (S2 & T2 & L2). clearbody o2.
  destruct (received_audio o2 && received_video o2) eqn:Both;
    [| exists o2; repeat split; auto; lia].
  apply andb_true_iff in Both. destruct Both as [Ra Rv].
  destruct (negb was_started).
  - pose proof (prune_interleaved_packets_keeps o2) as P.
    destruct (prune_interleaved_packets o2) as [o3 ok3]. simpl in P.
    destruct P as (S3 & T3 & L3 & F3).
    destruct ok3; [| exists o3; repeat split; auto; try congruence; lia].
    destruct (F3 eq_refl) as [Fa3 Fv3].
    pose proof (initialize_interleaved_packets_keeps o3) as I.
    destruct (initialize_interleaved_packets o3) as [o4 ok4]. simpl in I.
    destruct I as (S4 & T4 & L4 & F4).
    destruct ok4; [| exists o4; repeat split; auto; try congruence; lia].
    destruct (F4 eq_refl) as [Fa4 Fv4].
    destruct (resort_interleaved_packets_keeps o4) as (S5 & T5 & A5 & V5 & L5).
    exists (resort_interleaved_packets o4).
    repeat split; try congruence; try lia.
    right. repeat split; congruence.
  - exists o2. repeat split; auto; try lia.
Qed.


(* The effects of one callback on sink, frame counter and buffer. *)
Lemma interleave_packets_effects :
  forall (output : obs_output) (packet : encoder_packet),
    let output' := interleave_packets eia608_parity_varify output packet in
    exists sent,
      sink output' = sink output ++ sent
      /\ (length sent <= 1)%nat
      /\ total_frames output' = total_frames output + count_video sent
      /\ (sent <> [] ->
          received_audio output' = true /\ received_video output' = true)
      /\ (length (interleaved_packets output') + length sent
          <= S (length (interleaved_packets output)))%nat.
Proof.
  intros output packet output'.
  destruct (interleave_packets_cases output packet)
    as (mid & S & T & L & [E | (E & Ra & Rv)]); fold output' in E.
  - exists []. rewrite E, app_nil_r, S, T. unfold count_video. simpl.
    repeat split; try lia; congruence.
  - destruct (send_interleaved_effects mid)
      as (Fa & Fv & sent & Ss & Ls & Ts & Bs).
    exists sent. rewrite E, Ss, S, Ts, T, Fa, Fv.
    repeat split; auto; lia.
Qed.

(** X1.  One callback hands at most one packet to the sink, appended to what was
    sent before; the frame counter grows by one exactly when that packet is a
    video packet; a packet is only sent once audio and video have both been
    received; and sink and buffer together grow by at most the packet that
    arrived. *)
Theorem interleave_packets_sends_at_most_one :
  forall (output : obs_output) (packet : encoder_packet),
    let output' := interleave_packets eia608_parity_varify output packet in
    exists sent,
      sink output' = sink output ++ sent
      /\ (length sent <= 1)%nat
      /\ total_frames output' = total_frames output + count_video sent
      /\ (sent <> [] ->
          received_audio output' = true /\ received_video output' = true)
      /\ (length (interleaved_packets output') + length sent
          <= S (length (interleaved_packets output)))%nat.
Proof. exact interleave_packets_effects. Qed.

(** X2.  Over a whole run the sink only grows, by no more packets than arrived;
    the frame counter has grown by the number of video packets sent; and no
    packet is duplicated: what is buffered and what was sent never exceed
    what was buffered before plus what arrived. *)
Theorem interleave_run_accounts :
  forall (arrivals : list encoder_packet) (output : obs_output),
    let output' := interleave_run eia608_parity_varify output arrivals in
    exists sent,
      sink output' = sink output ++ sent
      /\ (length sent <= length arrivals)%nat
      /\ total_frames output' = total_frames output + count_video sent
      /\ (length (interleaved_packets output') + length sent
          <= length (interleaved_packets output) + length arrivals)%nat.
Proof.
  unfold interleave_run.
  induction arrivals as [| p rest IH]; intros output; simpl.
  - exists []. rewrite app_nil_r. unfold count_video. simpl.
    repeat split; lia.
  - destruct (interleave_packets_effects output p)
      as (sent1 & S1 & L1 & T1 & _ & B1).
    destruct (IH (interleave_packets eia608_parity_varify output p))
      as (sent2 & S2 & L2 & T2 & B2).
    exists (sent1 ++ sent2).
    rewrite S2, S1, T2, T1, app_assoc, length_app.
    unfold count_video in *. rewrite filter_app, length_app.
    repeat split; lia.
Qed.

(** With video not yet received, an audio packet is buffered, not sent, and
    video stays not received; likewise for a video packet while audio has
    not been received. *)
Lemma interleave_packets_one_stream (output : obs_output)
    (packet : encoder_packet) :
  let output' := interleave_packets eia608_parity_varify output packet in
  (received_video output = false -> type packet = OBS_ENCODER_AUDIO ->
   received_video output' = false /\ sink output' = sink output)
  /\ (received_audio output = false -> type packet = OBS_ENCODER_VIDEO ->
      received_audio output' = false /\ sink output' = sink output).
Proof.
  unfold interleave_packets.
  destruct (negb (active output)); [split; intros; split; auto |].
  split; intros R T; rewrite T.
  - assert (V : forall n, is_video (set_packet_track_idx n packet) = false)
      by (intros n; unfold is_video; simpl; rewrite T; reflexivity).
    rewrite V, andb_false_r, R, andb_false_r. simpl.
    unfold check_received, set_higher_ts. simpl. rewrite T.
    destruct (negb (received_audio output));
      destruct (highest_audio_ts _ <? _);
      repeat (simpl; rewrite ?R, ?andb_false_r); split; reflexivity.
  - destruct (negb (received_video output) && is_video packet
              && negb (keyframe packet)).
    + unfold discard_unused_audio_packets.
      destruct (negb (discard_unused_idx _ _ =? 0)); split; auto.
    + rewrite R. simpl.
      unfold check_received, set_higher_ts. simpl. rewrite T.
      destruct (negb (received_video output));
        destruct (highest_video_ts _ <? _);
        repeat (simpl; rewrite ?R); split; reflexivity.
Qed.

(** X3.  Nothing is sent before both streams have been seen: a run of audio
    packets only, on an output that has not received video, sends nothing,
    and so does a run of video packets only on an output that has not
    received audio. *)
Theorem one_stream_sends_nothing :
  forall (arrivals : list encoder_packet) (output : obs_output),
    (received_video output = false ->
     Forall (fun p => type p = OBS_ENCODER_AUDIO) arrivals ->
     sink (interleave_run eia608_parity_varify output arrivals) = sink output)
    /\ (received_audio output = false ->
        Forall (fun p => type p = OBS_ENCODER_VIDEO) arrivals ->
        sink (interleave_run eia608_parity_varify output arrivals)
        = sink output).
Proof.
  unfold interleave_run.
  induction arrivals as [| p rest IH]; intros output.
  - split; reflexivity.
  - destruct (interleave_packets_one_stream output p) as [A V].
    destruct (IH (interleave_packets eia608_parity_varify output p))
      as [IA IV].
    split; intros R F; inversion F as [| x l Hp Hrest]; subst; simpl.
    + destruct (A R Hp) as [R' S']. rewrite (IA R' Hrest). exact S'.
    + destruct (V R Hp) as [R' S']. rewrite (IV R' Hrest). exact S'.
Qed.


(** X4.  The buffer order is kept along every run of the callback. *)
Theorem interleave_run_ordered :
  forall (arrivals : list encoder_packet) (output : obs_output),
    ordered (interleaved_packets output) ->
    ordered (interleaved_packets
               (interleave_run eia608_parity_varify output arrivals)).
Proof.
  unfold interleave_run.
  induction arrivals as [| p rest IH]; intros output H; simpl.
  - exact H.
  - apply IH, interleave_packets_ordered, H.
Qed.

(** Where the loop of [discard_unused_audio_packets] stops: the packets in
    front are earlier than [ts], the packet it stops at is not. *)
Lemma discard_unused_idx_spec (packets : list encoder_packet) (ts : Z) :
  let n := Z.to_nat (discard_unused_idx packets ts) in
  0 <= discard_unused_idx packets ts <= Z.of_nat (length packets)
  /\ Forall (fun q => dts_usec q < ts) (firstn n packets)
  /\ (forall q, nth_error packets n = Some q -> ts <= dts_usec q).
Proof.
  cbv zeta. induction packets as [| p rest IH].
  - simpl. split; [lia |]. split; [constructor | intros q H; discriminate].
  - cbn [discard_unused_idx length]. destruct (dts_usec p >=? ts) eqn:G.
    + simpl Z.to_nat. cbn [firstn nth_error].
      split; [lia |]. split; [constructor |].
      intros q H. injection H as <-. lia.
    + destruct IH as ((L & U) & F & N).
      replace (Z.to_nat (1 + discard_unused_idx rest ts))
        with (S (Z.to_nat (discard_unused_idx rest ts))) by lia.
      cbn [firstn nth_error]. split; [lia |]. split; [| exact N].
      constructor; [lia | exact F].
Qed.

(** X5.  The keyframe gate.  While no video has been received, a video packet
    that is not a keyframe is dropped: it is neither buffered nor sent and
    video stays not received.  The buffered packets earlier than it are
    discarded from the front of the buffer, the first packet that is kept is
    not earlier than it, and in an ordered buffer none of the kept ones is. *)
Theorem keyframe_gate :
  forall (output : obs_output) (packet : encoder_packet),
    active output = true -> received_video output = false ->
    type packet = OBS_ENCODER_VIDEO -> keyframe packet = false ->
    let output' := interleave_packets eia608_parity_varify output packet in
    exists dropped,
      interleaved_packets output = dropped ++ interleaved_packets output'
      /\ Forall (fun q => dts_usec q < dts_usec packet) dropped
      /\ (forall q, nth_error (interleaved_packets output') 0 = Some q ->
          dts_usec packet <= dts_usec q)
      /\ (ordered (interleaved_packets output) ->
          Forall (fun q => dts_usec packet <= dts_usec q)
            (interleaved_packets output'))
      /\ sink output' = sink output
      /\ received_video output' = false
      /\ received_audio output' = received_audio output.
Proof.
  intros output packet A R T K output'.
  assert (E : output' = discard_unused_audio_packets output (dts_usec packet)).
  { unfold output', interleave_packets. rewrite A, R, T, K.
    unfold is_video. rewrite T. reflexivity. }
  rewrite E. unfold discard_unused_audio_packets, discard_to_idx.
  destruct (discard_unused_idx_spec (interleaved_packets output)
              (dts_usec packet)) as (B & F & N).
  set (idx := discard_unused_idx (interleaved_packets output)
                (dts_usec packet)) in *.
  set (n := Z.to_nat idx) in *.
  assert (Kept : interleaved_packets
                   (if negb (idx =? 0)
                    then set_interleaved_packets
                           (skipn n (interleaved_packets output)) output
                    else output)
                 = skipn n (interleaved_packets output)).
  { destruct (idx =? 0) eqn:Z0; simpl; [| reflexivity].
    apply Z.eqb_eq in Z0. unfold n. rewrite Z0. reflexivity. }
  assert (Rest : sink (if negb (idx =? 0)
                       then set_interleaved_packets
                              (skipn n (interleaved_packets output)) output
                       else output) = sink output
                 /\ received_video
                      (if negb (idx =? 0)
                       then set_interleaved_packets
                              (skipn n (interleaved_packets output)) output
                       else output) = false
                 /\ received_audio
                      (if negb (idx =? 0)
                       then set_interleaved_packets
                              (skipn n (interleaved_packets output)) output
                       else output) = received_audio output).
  { destruct (negb (idx =? 0)); simpl; repeat split; auto. }
  destruct Rest as (Rs & Rv & Ra).
  exists (firstn n (interleaved_packets output)).
  rewrite Kept, Rs, Rv, Ra.
  split; [symmetry; apply firstn_skipn |].
  split; [exact F |].
  assert (Head : forall q,
            nth_error (skipn n (interleaved_packets output)) 0 = Some q ->
            dts_usec packet <= dts_usec q).
  { intros q H. apply N. rewrite nth_error_skipn in H.
    now rewrite Nat.add_0_r in H. }
  split; [exact Head |].
  split; [| repeat split].
  intros Ord. apply (ordered_skipn n) in Ord.
  destruct (skipn n (interleaved_packets output)) as [| hd tl]; [constructor |].
  pose proof (Head hd eq_refl) as Hhd.
  constructor; [exact Hhd |].
  inversion Ord as [| x l Htl Hle]; subst.
  eapply Forall_impl; [| exact Hle].
  intros q [L | [Eq _]]; lia.
Qed.


(** ** Monotone emission *)

Lemma sorted_snoc (l : list Z) (x : Z) :
  StronglySorted Z.le l -> Forall (fun y => y <= x) l ->
  StronglySorted Z.le (l ++ [x]).
Proof.
  induction 1 as [| a l Hl IH Ha]; intros F; simpl.
  - repeat constructor.
  - inversion F as [| y l' Hax Fl]; subst.
    constructor; [apply IH, Fl |].
    apply Forall_app. split; [exact Ha | repeat constructor; exact Hax].
Qed.

(** Emission keeps the invariant: the head is only sent below the opposing
    mark, it is not above the mark of its own type, and the rest of the
    ordered buffer is not earlier than it. *)
Lemma send_interleaved_invariant (output : obs_output) :
  emission_invariant output ->
  emission_invariant (send_interleaved eia608_parity_varify output).
Proof.
  intros (A & Ra & Rv & Ord & Below & Sent & Before & Mono).
  destruct (send_interleaved_effects output) as (Fa & Fv & _).
  destruct (send_interleaved_marks eia608_parity_varify output) as (Fact & Mv & Ma).
  unfold emission_invariant, highest_ts. rewrite Fa, Fv, Fact, Mv, Ma.
  destruct (send_interleaved_head eia608_parity_varify output)
    as [[B S] | (hd & rest & out' & B & G & B' & S & T & D)].
  - rewrite B, S. repeat split; assumption.
  - rewrite B', S. rewrite B in Ord, Below, Before.
    apply StronglySorted_inv in Ord. destruct Ord as [Ord' Hle].
    pose proof (Forall_inv Below) as Bhd.
    pose proof (Forall_inv_tail Below) as Brest.
    assert (Hhd : Forall (fun s => dts_usec s <= dts_usec hd) (sink output)).
    { eapply Forall_impl; [| exact Before].
      intros s Hs. now inversion Hs. }
    assert (Hrest : Forall (fun b => dts_usec hd <= dts_usec b) rest).
    { eapply Forall_impl; [| exact Hle]. intros q [L | [E _]]; lia. }
    split; [exact A |]. split; [exact Ra |]. split; [exact Rv |].
    split; [exact Ord' |]. split; [exact Brest |].
    split.
    { apply Forall_app. split; [exact Sent |].
      constructor; [| constructor]. rewrite D.
      unfold has_higher_opposing_ts, highest_ts in *.
      destruct (type hd); lia. }
    split.
    { apply Forall_app. split.
      - eapply Forall_impl; [| exact Before].
        intros s Hs. now inversion Hs.
      - constructor; [| constructor]. rewrite D. exact Hrest. }
    rewrite map_app. simpl. apply sorted_snoc; [exact Mono |].
    rewrite Forall_map. rewrite D. exact Hhd.
Qed.

Lemma inserted_packet_type (output : obs_output) (packet : encoder_packet) :
  type (inserted_packet output packet) = type packet.
Proof.
  unfold inserted_packet, apply_interleaved_packet_offset.
  destruct (type packet) eqn:T; simpl; rewrite ?T; reflexivity.
Qed.

(** One callback past initialization keeps the invariant when the packet
    arrives in time. *)
Lemma interleave_packets_invariant (output : obs_output)
    (packet : encoder_packet) :
  emission_invariant output ->
  highest_ts output (type packet)
  <= dts_usec (inserted_packet output packet) ->
  emission_invariant
    (interleave_packets eia608_parity_varify output packet).
Proof.
  intros (A & Ra & Rv & Ord & Below & Sent & Before & Mono) Fresh.
  pose proof (inserted_packet_type output packet) as Ty.
  unfold interleave_packets. rewrite A, Ra, Rv. simpl.
  change (apply_interleaved_packet_offset output _)
    with (inserted_packet output packet).
  set (out := inserted_packet output packet) in *.
  set (o2 := set_higher_ts (insert_interleaved_packet output out) out).
  assert (F2 : active o2 = true /\ received_audio o2 = true
               /\ received_video o2 = true
               /\ sink o2 = sink output
               /\ interleaved_packets o2
                  = insert_packet (interleaved_packets output) out
               /\ (forall ty, highest_ts output ty <= highest_ts o2 ty)
               /\ dts_usec out <= highest_ts o2 (type out)).
  { unfold o2, set_higher_ts, highest_ts in *. rewrite Ty in *.
    destruct (type packet);
      [destruct (highest_audio_ts _ <? dts_usec out) eqn:L
      | destruct (highest_video_ts _ <? dts_usec out) eqn:L];
      simpl in *; repeat split; auto; try (intros []; simpl; lia); lia. }
  destruct F2 as (A2 & Ra2 & Rv2 & S2 & B2 & Up & Top).
  assert (Inv2 : emission_invariant o2).
  { unfold emission_invariant. rewrite A2, Ra2, Rv2, S2, B2.
    split; [reflexivity |]. split; [reflexivity |]. split; [reflexivity |].
    split; [apply insert_packet_ordered, Ord |].
    split.
    { apply insert_packet_Forall; [exact Top |].
      eapply Forall_impl; [| exact Below].
      intros b Hb. pose proof (Up (type b)). cbv beta in *. lia. }
    split.
    { eapply Forall_impl; [| exact Sent].
      intros s [Hv Ha].
      pose proof (Up OBS_ENCODER_VIDEO). pose proof (Up OBS_ENCODER_AUDIO).
      unfold highest_ts in *. cbv beta in *. lia. }
    split; [| exact Mono].
    rewrite Forall_forall in Sent, Before. apply Forall_forall.
    intros s Hs. apply insert_packet_Forall; [| apply Before, Hs].
    destruct (Sent s Hs) as [Hv Ha].
    unfold highest_ts in Fresh. rewrite <- Ty in Fresh. fold out in Fresh.
    destruct (type out); lia. }
  fold o2. rewrite Ra2, Rv2. simpl.
  apply send_interleaved_invariant, Inv2.
Qed.

(** X6.  Monotone emission.  From a state in which emission is monotone, a run of
    packets that all arrive in time (none, as inserted, earlier than the
    high-water mark of its type) keeps it so: in particular the [dts_usec]
    of everything sent, before and during the run, never decrease. *)
Theorem timely_arrivals_monotone_emission :
  forall (arrivals : list encoder_packet) (output : obs_output),
    emission_invariant output ->
    arrivals_in_time eia608_parity_varify output arrivals ->
    emission_invariant (interleave_run eia608_parity_varify output arrivals)
    /\ StronglySorted Z.le
         (map dts_usec
            (sink (interleave_run eia608_parity_varify output arrivals))).
Proof.
  unfold interleave_run.
  induction arrivals as [| p rest IH]; intros output Inv Fresh; simpl.
  - split; [exact Inv | apply Inv].
  - destruct Fresh as [Fp Frest].
    apply IH; [apply interleave_packets_invariant; assumption | exact Frest].
Qed.

End CallbackFacts.

(** ** The searches over the buffer *)

Lemma packet_matches_wanted (packet : encoder_packet)
    (type' : obs_encoder_type) (audio_idx : nat) :
  packet_matches packet type' audio_idx = true
  <-> wanted type' audio_idx packet.
Proof.
  unfold packet_matches, wanted.
  destruct (type packet) eqn:T; destruct type'; simpl;
    try (split; [discriminate | intros [H _]; discriminate]).
  - rewrite negb_true_iff, negb_false_iff, Nat.eqb_eq.
    split; [intros H; split; [reflexivity | intros _; exact H]
           | intros [_ H]; apply H; reflexivity].
  - split; [intros _; split; [reflexivity | discriminate] | reflexivity].
Qed.

Lemma find_first_from_first_match (packets : list encoder_packet)
    (type' : obs_encoder_type) (audio_idx : nat) (i : Z) :
  find_first_from packets type' audio_idx i
  = match first_match packets type' audio_idx with
    | Some n => i + Z.of_nat n
    | None => -1
    end.
Proof.
  revert i. induction packets as [| p rest IH]; intros i; simpl.
  - reflexivity.
  - destruct (packet_matches p type' audio_idx); [simpl; lia |].
    rewrite IH. destruct (first_match rest type' audio_idx); simpl; lia.
Qed.

Lemma first_match_spec (packets : list encoder_packet)
    (type' : obs_encoder_type) (audio_idx : nat) :
  match first_match packets type' audio_idx with
  | Some n =>
      (exists p, nth_error packets n = Some p /\ wanted type' audio_idx p)
      /\ Forall (fun q => ~ wanted type' audio_idx q) (firstn n packets)
  | None => Forall (fun q => ~ wanted type' audio_idx q) packets
  end.
Proof.
  induction packets as [| p rest IH]; simpl.
  - constructor.
  - destruct (packet_matches p type' audio_idx) eqn:M.
    + split; [| constructor]. exists p. split; [reflexivity |].
      now apply packet_matches_wanted.
    + assert (N : ~ wanted type' audio_idx p)
        by (rewrite <- packet_matches_wanted; congruence).
      destruct (first_match rest type' audio_idx) as [n |]; simpl.
      * destruct IH as [E F]. split; [exact E | constructor; assumption].
      * constructor; assumption.
Qed.

(* The result of the forward search, by cases. *)
Lemma find_first_packet_type_idx_spec :
  forall (output : obs_output) (type' : obs_encoder_type) (audio_idx : nat),
    let idx := find_first_packet_type_idx output type' audio_idx in
    (idx = -1
     /\ Forall (fun q => ~ wanted type' audio_idx q)
          (interleaved_packets output)
     /\ find_first_packet_type output type' audio_idx = None)
    \/ (0 <= idx < Z.of_nat (length (interleaved_packets output))
        /\ (exists p,
              find_first_packet_type output type' audio_idx = Some p
              /\ nth_error (interleaved_packets output) (Z.to_nat idx)
                 = Some p
              /\ wanted type' audio_idx p)
        /\ Forall (fun q => ~ wanted type' audio_idx q)
             (firstn (Z.to_nat idx) (interleaved_packets output))).
Proof.
  intros output type' audio_idx. cbv zeta.
  unfold find_first_packet_type, packet_at, find_first_packet_type_idx.
  rewrite find_first_from_first_match.
  pose proof (first_match_spec (interleaved_packets output) type' audio_idx)
    as H.
  destruct (first_match (interleaved_packets output) type' audio_idx)
    as [n |]; simpl.
  - right. destruct H as [(p & Hp & Wp) F].
    assert (L : (n < length (interleaved_packets output))%nat)
      by (apply nth_error_Some; congruence).
    replace (Z.to_nat (Z.of_nat n)) with n by lia.
    split; [lia |]. split; [| exact F].
    exists p. destruct (Z.of_nat n <? 0) eqn:Neg; [lia |].
    rewrite ?Nat2Z.id. auto.
  - left. auto.
Qed.

(** X7.  [find_first_packet_type_idx] returns -1 exactly when no buffered packet
    has the wanted type and track; otherwise it returns the index of the
    first such packet: the index is within the buffer, its packet is a
    wanted one, and no packet in front of it is. *)
Theorem find_first_packet_type_idx_leftmost :
  forall (output : obs_output) (type' : obs_encoder_type) (audio_idx : nat),
    let idx := find_first_packet_type_idx output type' audio_idx in
    (idx = -1
     /\ Forall (fun q => ~ wanted type' audio_idx q)
          (interleaved_packets output)
     /\ find_first_packet_type output type' audio_idx = None)
    \/ (0 <= idx < Z.of_nat (length (interleaved_packets output))
        /\ (exists p,
              find_first_packet_type output type' audio_idx = Some p
              /\ nth_error (interleaved_packets output) (Z.to_nat idx)
                 = Some p
              /\ wanted type' audio_idx p)
        /\ Forall (fun q => ~ wanted type' audio_idx q)
             (firstn (Z.to_nat idx) (interleaved_packets output))).
Proof. exact find_first_packet_type_idx_spec. Qed.

(** The search from the end of the buffer, as a position from the end. *)
Lemma find_last_from_first_match (rev_packets : list encoder_packet)
    (type' : obs_encoder_type) (audio_idx : nat) (i : Z) :
  find_last_from rev_packets type' audio_idx i
  = match first_match rev_packets type' audio_idx with
    | Some n => i - 1 - Z.of_nat n
    | None => -1
    end.
Proof.
  revert i. induction rev_packets as [| p rest IH]; intros i; simpl.
  - reflexivity.
  - destruct (packet_matches p type' audio_idx); [simpl; lia |].
    rewrite IH. destruct (first_match rest type' audio_idx); simpl; lia.
Qed.

(** X8.  [find_last_packet_type_idx] returns -1 exactly when no buffered packet is
    a wanted one; otherwise the index of the last such packet: within the
    buffer, at a wanted packet, with no wanted packet behind it. *)
Theorem find_last_packet_type_idx_rightmost :
  forall (output : obs_output) (type' : obs_encoder_type) (audio_idx : nat),
    let idx := find_last_packet_type_idx output type' audio_idx in
    (idx = -1
     /\ Forall (fun q => ~ wanted type' audio_idx q)
          (interleaved_packets output)
     /\ find_last_packet_type output type' audio_idx = None)
    \/ (0 <= idx < Z.of_nat (length (interleaved_packets output))
        /\ (exists p,
              find_last_packet_type output type' audio_idx = Some p
              /\ wanted type' audio_idx p)
        /\ Forall (fun q => ~ wanted type' audio_idx q)
             (skipn (S (Z.to_nat idx)) (interleaved_packets output))).
Proof.
  intros output type' audio_idx. cbv zeta.
  unfold find_last_packet_type, packet_at, find_last_packet_type_idx.
  rewrite find_last_from_first_match.
  set (l := interleaved_packets output).
  pose proof (first_match_spec (rev l) type' audio_idx) as H.
  destruct (first_match (rev l) type' audio_idx) as [n |]; simpl.
  - right. destruct H as [(p & Hp & Wp) F].
    assert (L : (n < length l)%nat).
    { rewrite <- length_rev. apply nth_error_Some. congruence. }
    set (k := (length l - 1 - n)%nat).
    replace (Z.of_nat (length l) - 1 - Z.of_nat n) with (Z.of_nat k)
      by (unfold k; lia).
    rewrite Nat2Z.id.
    assert (Hk : nth_error l k = Some p).
    { rewrite nth_error_rev in Hp.
      destruct (Nat.ltb n (length l)); [| discriminate].
      replace k with (length l - S n)%nat by (unfold k; lia). exact Hp. }
    split; [lia |]. split.
    + exists p. destruct (Z.of_nat k <? 0) eqn:Neg; [lia |]. auto.
    + assert (E : skipn (S k) l = rev (firstn n (rev l))).
      { rewrite firstn_rev, rev_involutive.
        f_equal. unfold k. lia. }
      change (Forall (fun q => ~ wanted type' audio_idx q) (skipn (S k) l)).
      rewrite E. apply Forall_rev, F.
  - left. repeat split; auto.
    rewrite <- (rev_involutive l). apply Forall_rev, H.
Qed.

(** ** Pruning *)

Lemma first_match_skipn (packets : list encoder_packet)
    (type' : obs_encoder_type) (audio_idx : nat) (n m : nat) :
  first_match packets type' audio_idx = Some m -> (n <= m)%nat ->
  first_match (skipn n packets) type' audio_idx = Some (m - n)%nat.
Proof.
  revert packets m. induction n as [| n IH]; intros packets m H L.
  - simpl. rewrite Nat.sub_0_r. exact H.
  - destruct packets as [| p rest]; [discriminate |].
    simpl in H. destruct (packet_matches p type' audio_idx);
      [injection H as <-; lia |].
    destruct (first_match rest type' audio_idx) as [k |] eqn:E;
      [| discriminate].
    simpl in H. injection H as <-. simpl. apply IH; [exact E | lia].
Qed.

Lemma Forall_firstn_le {A : Type} (P : A -> Prop) (l : list A) :
  forall n m : nat,
    (n <= m)%nat -> Forall P (firstn m l) -> Forall P (firstn n l).
Proof.
  induction l as [| a l IH]; intros n m L F.
  - rewrite firstn_nil. constructor.
  - destruct n as [| n]; [constructor |].
    destruct m as [| m]; [lia |]. simpl in *.
    constructor; [exact (Forall_inv F) |].
    apply (IH n m); [lia | exact (Forall_inv_tail F)].
Qed.

(** The loop of [get_interleaved_start_idx]: the audio index it returns is
    the one it was given or lies in the part scanned, and the video index is
    the index of the first video packet as soon as that packet is scanned. *)
Lemma get_interleaved_start_loop_spec (packets : list encoder_packet)
    (first_video_idx first_video_ts : Z) :
  forall i closest_diff video_idx idx,
    let r := get_interleaved_start_loop packets first_video_idx
               first_video_ts i closest_diff video_idx idx in
    (snd r = idx \/ (i <= snd r < i + Z.of_nat (length packets)))
    /\ (forall n p,
          first_video_idx = i + Z.of_nat n ->
          nth_error packets n = Some p -> type p = OBS_ENCODER_VIDEO ->
          fst r = first_video_idx)
    /\ (fst r = video_idx \/ fst r = first_video_idx).
Proof.
  induction packets as [| p rest IH]; intros i cd vi idx; simpl.
  - split; [now left |]. split; [| now left].
    intros n q _ H. destruct n; discriminate.
  - destruct (type p) eqn:T.
    + destruct (Z.abs (dts_usec p - first_video_ts) <? cd).
      * destruct (IH (i + 1) (Z.abs (dts_usec p - first_video_ts)) vi i)
          as (A & B & C).
        split; [right; destruct A as [-> | A]; lia |]. split; [| exact C].
        intros [| n] q E H Tq; simpl in H.
        -- injection H as <-. congruence.
        -- apply (B n q); [lia | exact H | exact Tq].
      * destruct (IH (i + 1) cd vi idx) as (A & B & C).
        split; [destruct A as [A | A]; [now left | right; lia] |].
        split; [| exact C].
        intros [| n] q E H Tq; simpl in H.
        -- injection H as <-. congruence.
        -- apply (B n q); [lia | exact H | exact Tq].
    + destruct (i =? first_video_idx) eqn:Ei.
      * apply Z.eqb_eq in Ei.
        destruct (IH (i + 1) cd i idx) as (A & B & C).
        split; [destruct A as [A | A]; [now left | right; lia] |].
        split; [| right; destruct C as [C | C]; lia].
        intros n q E H Tq. destruct C as [C | C]; lia.
      * apply Z.eqb_neq in Ei.
        destruct (IH (i + 1) cd vi idx) as (A & B & C).
        split; [destruct A as [A | A]; [now left | right; lia] |].
        split; [| exact C].
        intros [| n] q E H Tq; simpl in H; [lia |].
        apply (B n q); [lia | exact H | exact Tq].
Qed.

(** X9.  Pruning to the closest pair keeps the first video packet: the start
    index is not negative and not beyond the index of the first video
    packet, only audio packets lie in front of it, and after discarding up
    to it the first video packet is the one it was. *)
Theorem get_interleaved_start_idx_keeps_first_video :
  forall (output : obs_output) (video : encoder_packet),
    find_first_packet_type output OBS_ENCODER_VIDEO 0 = Some video ->
    let start_idx := get_interleaved_start_idx output in
    0 <= start_idx <= find_first_packet_type_idx output OBS_ENCODER_VIDEO 0
    /\ Forall (fun q => type q = OBS_ENCODER_AUDIO)
         (firstn (Z.to_nat start_idx) (interleaved_packets output))
    /\ find_first_packet_type (discard_to_idx output start_idx)
         OBS_ENCODER_VIDEO 0 = Some video.
Proof.
  intros output video Hv. cbv zeta.
  destruct (find_first_packet_type_idx_spec output OBS_ENCODER_VIDEO 0)
    as [(_ & _ & N) | (R & (p & Hp & Hn & Wp) & F)]; [congruence |].
  rewrite Hv in Hp. injection Hp as <-.
  unfold get_interleaved_start_idx.
  set (fv := find_first_packet_type_idx output OBS_ENCODER_VIDEO 0) in *.
  set (l := interleaved_packets output) in *.
  match goal with
  | |- context [get_interleaved_start_loop l fv ?ts 0 ?cd ?vi 0] =>
      destruct (get_interleaved_start_loop_spec l fv ts 0 cd vi 0)
        as (A & B & _);
      destruct (get_interleaved_start_loop l fv ts 0 cd vi 0)
        as [video_idx idx]
  end.
  simpl in A, B.
  assert (Ev : video_idx = fv).
  { apply (B (Z.to_nat fv) video); [lia | exact Hn | apply Wp]. }
  subst video_idx.
  set (n := if fv <? idx then fv else idx).
  assert (Rn : 0 <= n <= fv) by (unfold n; destruct (fv <? idx) eqn:C; lia).
  split; [exact Rn |]. split.
  - apply (Forall_firstn_le _ l (Z.to_nat n) (Z.to_nat fv)); [lia |].
    eapply Forall_impl; [| exact F].
    intros q Nq. destruct (type q) eqn:Tq; [reflexivity |].
    exfalso. apply Nq. split; [exact Tq | discriminate].
  - unfold find_first_packet_type, packet_at, find_first_packet_type_idx,
      discard_to_idx. simpl. fold l.
    assert (Fm : first_match l OBS_ENCODER_VIDEO 0 = Some (Z.to_nat fv)).
    { unfold fv, find_first_packet_type_idx in *. fold l in R |- *.
      rewrite find_first_from_first_match in *.
      destruct (first_match l OBS_ENCODER_VIDEO 0) as [m |]; [| lia].
      f_equal. lia. }
    rewrite find_first_from_first_match.
    rewrite (first_match_skipn l OBS_ENCODER_VIDEO 0 (Z.to_nat n)
               (Z.to_nat fv) Fm) by lia.
    simpl.
    destruct (Z.of_nat (Z.to_nat fv - Z.to_nat n) <? 0) eqn:Neg;
      [apply Z.ltb_lt in Neg; lia |].
    rewrite Nat2Z.id, nth_error_skipn.
    replace (Z.to_nat n + (Z.to_nat fv - Z.to_nat n))%nat
      with (Z.to_nat fv) by lia.
    exact Hn.
Qed.

Lemma packet_at_range (output : obs_output) (idx : Z) (p : encoder_packet) :
  packet_at output idx = Some p ->
  0 <= idx < Z.of_nat (length (interleaved_packets output)).
Proof.
  unfold packet_at. destruct (idx <? 0) eqn:Neg; [discriminate |].
  intros H. assert (nth_error (interleaved_packets output) (Z.to_nat idx)
                    <> None) by congruence.
  apply nth_error_Some in H0. lia.
Qed.

Lemma prune_premature_loop_range (output : obs_output)
    (video : encoder_packet) (mixes : list nat) :
  forall max_idx max_diff diff r,
    prune_premature_loop output video mixes max_idx max_diff diff = Some r ->
    max_idx <= fst (fst r)
    /\ (fst (fst r) = max_idx
        \/ fst (fst r) < Z.of_nat (length (interleaved_packets output))).
Proof.
  induction mixes as [| i rest IH]; intros max_idx max_diff diff r H;
    simpl in H.
  - injection H as <-. simpl. split; [lia | now left].
  - destruct (packet_at output
                (find_first_packet_type_idx output OBS_ENCODER_AUDIO i))
      as [audio |] eqn:E; [| discriminate].
    apply packet_at_range in E.
    apply IH in H. destruct H as [L U].
    set (a := find_first_packet_type_idx output OBS_ENCODER_AUDIO i) in *.
    destruct (a >? max_idx) eqn:G; split; try lia;
      destruct U as [U | U]; try (right; lia); try (left; lia).
Qed.

(** X10.  [prune_premature_packets] either fails, returning -1 with a reception
    flag cleared and the buffer as it was, or returns a count of packets to
    discard that is within the buffer, leaving the output untouched. *)
Theorem prune_premature_packets_range :
  forall (output : obs_output),
    let r := prune_premature_packets output in
    (snd r = -1
     /\ interleaved_packets (fst r) = interleaved_packets output
     /\ (received_video (fst r) = false \/ received_audio (fst r) = false))
    \/ (fst r = output
        /\ 0 <= snd r <= Z.of_nat (length (interleaved_packets output))).
Proof.
  intros output. cbv zeta. unfold prune_premature_packets.
  destruct (packet_at output
              (find_first_packet_type_idx output OBS_ENCODER_VIDEO 0))
    as [video |] eqn:Ev; [| left; simpl; auto].
  apply packet_at_range in Ev.
  destruct (prune_premature_loop output video _ _ 0 0)
    as [[[max_idx max_diff] diff] |] eqn:El; [| left; simpl; auto].
  apply prune_premature_loop_range in El. simpl in El.
  right. simpl. split; [reflexivity |].
  destruct (diff >? _); lia.
Qed.

(** ** Initialization *)

Lemma find_first_packet_type_first_match (output : obs_output)
    (type' : obs_encoder_type) (audio_idx : nat) :
  find_first_packet_type output type' audio_idx
  = match first_match (interleaved_packets output) type' audio_idx with
    | Some n => nth_error (interleaved_packets output) n
    | None => None
    end.
Proof.
  unfold find_first_packet_type, packet_at, find_first_packet_type_idx.
  rewrite find_first_from_first_match.
  destruct (first_match (interleaved_packets output) type' audio_idx)
    as [n |]; [| reflexivity].
  simpl. destruct (Z.of_nat n <? 0) eqn:Neg;
    [apply Z.ltb_lt in Neg; lia |].
  now rewrite Nat2Z.id.
Qed.

Lemma first_match_map (f : encoder_packet -> encoder_packet)
    (packets : list encoder_packet) (type' : obs_encoder_type)
    (audio_idx : nat) :
  (forall p, type (f p) = type p /\ track_idx (f p) = track_idx p) ->
  first_match (map f packets) type' audio_idx
  = first_match packets type' audio_idx.
Proof.
  intros Hf. induction packets as [| p rest IH]; [reflexivity |].
  simpl. unfold packet_matches at 1.
  destruct (Hf p) as [-> ->]. fold (packet_matches p type' audio_idx).
  now rewrite IH.
Qed.

Lemma apply_interleaved_packet_offset_keeps (output : obs_output)
    (p : encoder_packet) :
  type (apply_interleaved_packet_offset output p) = type p
  /\ track_idx (apply_interleaved_packet_offset output p) = track_idx p.
Proof. split; reflexivity. Qed.

Lemma find_first_packet_type_rebased (output base offsets : obs_output)
    (type' : obs_encoder_type) (audio_idx : nat) :
  interleaved_packets output
  = map (apply_interleaved_packet_offset offsets) (interleaved_packets base) ->
  find_first_packet_type output type' audio_idx
  = option_map (apply_interleaved_packet_offset offsets)
      (find_first_packet_type base type' audio_idx).
Proof.
  intros E. rewrite !find_first_packet_type_first_match, E.
  rewrite first_match_map
    by (intros p; apply apply_interleaved_packet_offset_keeps).
  destruct (first_match (interleaved_packets base) type' audio_idx) as [n |];
    [| reflexivity].
  apply nth_error_map.
Qed.

Lemma first_audio_packets_spec (output : obs_output) :
  forall (n s : nat) (audio : list encoder_packet),
    first_audio_packets output (seq s n) = Some audio ->
    length audio = n
    /\ forall k, (k < n)%nat ->
         find_first_packet_type output OBS_ENCODER_AUDIO (s + k)
         = nth_error audio k.
Proof.
  induction n as [| n IH]; intros s audio H; simpl in H.
  - injection H as <-. split; [reflexivity | intros k L; lia].
  - destruct (find_first_packet_type output OBS_ENCODER_AUDIO s) as [a |]
      eqn:Ea; [| discriminate].
    destruct (first_audio_packets output (seq (S s) n)) as [l |] eqn:El;
      [| discriminate].
    injection H as <-. destruct (IH (S s) l El) as [Len Nth].
    split; [simpl; now rewrite Len |].
    intros [| k] L; simpl.
    + now rewrite Nat.add_0_r.
    + rewrite <- (Nth k) by lia. f_equal. lia.
Qed.

Lemma store_audio_offsets_nth (audio : list encoder_packet) :
  forall (offsets : list Z) (k : nat) (a : encoder_packet),
    (length audio <= length offsets)%nat ->
    nth_error audio k = Some a ->
    nth k (store_audio_offsets offsets audio) 0 = dts a.
Proof.
  induction audio as [| a0 rest IH]; intros offsets k a L H.
  - destruct k; discriminate.
  - destruct offsets as [| o offsets']; simpl in L; [lia |].
    destruct k as [| k]; simpl in *.
    + now injection H as <-.
    + apply IH; [lia | exact H].
Qed.

Lemma get_audio_and_video_packets_found (output output' : obs_output)
    (n : nat) (video : encoder_packet) (audio : list encoder_packet) :
  get_audio_and_video_packets output n = (output', Some (video, audio)) ->
  output' = output
  /\ find_first_packet_type output OBS_ENCODER_VIDEO 0 = Some video
  /\ first_audio_packets output (seq 0 n) = Some audio.
Proof.
  unfold get_audio_and_video_packets.
  destruct (find_first_packet_type output OBS_ENCODER_VIDEO 0) as [v |].
  - destruct (first_audio_packets output (seq 0 n)) as [l |];
      [| discriminate].
    intros H. injection H as <- <- <-. auto.
  - destruct (first_audio_packets _ (seq 0 n)); discriminate.
Qed.

(** What a successful [initialize_interleaved_packets] leaves: the buffer is
    the buffer of some [base] (the output, or the output after the discard
    of the excess starting audio) with the new offsets applied, and the new
    offsets are the pts of the first video packet of [base] and the dts of
    its first audio packets. *)
Lemma initialize_interleaved_packets_rebases (output output' : obs_output) :
  initialize_interleaved_packets output = (output', true) ->
  exists (base offsets : obs_output) (video : encoder_packet)
         (audio : list encoder_packet),
    find_first_packet_type base OBS_ENCODER_VIDEO 0 = Some video
    /\ first_audio_packets base (seq 0 (num_audio_mixes output)) = Some audio
    /\ audio_offsets base = audio_offsets output
    /\ video_offset offsets = pts video
    /\ audio_offsets offsets
       = store_audio_offsets (audio_offsets base) audio
    /\ interleaved_packets output'
       = map (apply_interleaved_packet_offset offsets)
           (interleaved_packets base).
Proof.
  unfold initialize_interleaved_packets.
  destruct (get_audio_and_video_packets output (num_audio_mixes output))
    as [o1 [[video audio] |]] eqn:G1; [| discriminate].
  apply get_audio_and_video_packets_found in G1.
  destruct G1 as (-> & V1 & A1).
  destruct (audio_ends_before_video output video (num_audio_mixes output));
    [discriminate |].
  destruct (negb (get_interleaved_start_idx output =? 0)).
  - destruct (get_audio_and_video_packets
                (discard_to_idx output (get_interleaved_start_idx output))
                (num_audio_mixes output))
      as [o2 [[video2 audio2] |]] eqn:G2; [| discriminate].
    apply get_audio_and_video_packets_found in G2.
    destruct G2 as (-> & V2 & A2).
    intros H. injection H as <-.
    destruct audio2 as [| a0 rest];
      eexists (discard_to_idx output (get_interleaved_start_idx output)), _, video2, _;
      (split; [exact V2 |]); (split; [exact A2 |]);
      (split; [reflexivity |]);
      (refine (proj1 (and_assoc _ _ _) (conj _ _));
       [| simpl; reflexivity]);
      split; reflexivity.
  - intros H. injection H as <-.
    destruct audio as [| a0 rest];
      eexists output, _, video, _;
      (split; [exact V1 |]); (split; [exact A1 |]);
      (split; [reflexivity |]);
      (refine (proj1 (and_assoc _ _ _) (conj _ _));
       [| simpl; reflexivity]);
      split; reflexivity.
Qed.

(** X11.  A successful initialization rebases the streams to zero: the first
    video packet of the buffer has pts 0, and the first audio packet of
    every mix has dts 0 and dts_usec 0. *)
Theorem initialize_interleaved_packets_zero_rebase :
  forall (output output' : obs_output),
    initialize_interleaved_packets output = (output', true) ->
    (num_audio_mixes output <= length (audio_offsets output))%nat ->
    (exists video,
        find_first_packet_type output' OBS_ENCODER_VIDEO 0 = Some video
        /\ pts video = 0)
    /\ forall i, (i < num_audio_mixes output)%nat ->
         exists audio,
           find_first_packet_type output' OBS_ENCODER_AUDIO i = Some audio
           /\ track_idx audio = i /\ dts audio = 0 /\ dts_usec audio = 0.
Proof.
  intros output output' H Slots.
  destruct (initialize_interleaved_packets_rebases output output' H)
    as (base & offsets & video & audio & V & A & Ob & Ov & Oa & B).
  split.
  - exists (apply_interleaved_packet_offset offsets video).
    rewrite (find_first_packet_type_rebased output' base offsets _ _ B), V.
    split; [reflexivity |].
    assert (Tv : type video = OBS_ENCODER_VIDEO).
    { destruct (find_first_packet_type_idx_spec base OBS_ENCODER_VIDEO 0)
        as [(_ & _ & N) | (_ & (p & Hp & _ & Wp) & _)]; [congruence |].
      rewrite V in Hp. injection Hp as <-. apply Wp. }
    unfold apply_interleaved_packet_offset. simpl. rewrite Tv, Ov. lia.
  - intros i Li.
    destruct (first_audio_packets_spec base _ 0 audio A) as [Len Nth].
    specialize (Nth i Li). simpl in Nth.
    destruct (nth_error audio i) as [a |] eqn:Ea;
      [| apply nth_error_None in Ea; lia].
    exists (apply_interleaved_packet_offset offsets a).
    rewrite (find_first_packet_type_rebased output' base offsets _ _ B), Nth.
    split; [reflexivity |].
    assert (Wa : type a = OBS_ENCODER_AUDIO /\ track_idx a = i).
    { destruct (find_first_packet_type_idx_spec base OBS_ENCODER_AUDIO i)
        as [(_ & _ & N) | (_ & (p & Hp & _ & Wp) & _)]; [congruence |].
      rewrite Nth in Hp. injection Hp as <-.
      split; [apply Wp | now apply Wp]. }
    destruct Wa as [Ta Ti].
    assert (Ed : dts (apply_interleaved_packet_offset offsets a) = 0).
    { unfold apply_interleaved_packet_offset. simpl.
      rewrite Ta, Oa, Ti.
      rewrite (store_audio_offsets_nth audio (audio_offsets base) i a)
        by (rewrite ?Ob, ?Len; assumption).
      lia. }
    split; [exact Ti |]. split; [exact Ed |].
    unfold apply_interleaved_packet_offset in *. simpl in *.
    unfold packet_dts_usec. simpl. rewrite Ed. reflexivity.
Qed.

(** ** Pause controller *)

(* Bounds of the quantized timestamp when nothing wraps around. *)
Lemma get_closest_v_ts_bounds :
  forall (interval now : Z) (p : pause_data),
    0 < interval -> 0 <= last_video_ts p <= now ->
    now + 2 * interval < 2 ^ 64 ->
    let ts := get_closest_v_ts interval now p in
    now + interval < ts <= now + 2 * interval
    /\ (ts - last_video_ts p) mod interval = 0.
Proof.
  intros interval now p Hi Hl Hn. cbv zeta.
  rewrite (get_closest_v_ts_formula interval now p Hi Hl Hn).
  set (x := now - last_video_ts p + 2 * interval).
  pose proof (Z.mul_div_le x interval Hi) as Le.
  pose proof (Z.mul_succ_div_gt x interval Hi) as Gt.
  split; [unfold x in *; nia |].
  replace (last_video_ts p + x / interval * interval - last_video_ts p)
    with (x / interval * interval) by lia.
  apply Z.mod_mul. lia.
Qed.

(** X12.  The quantized pause timestamp lies more than one and at most two frame
    intervals after the wall-clock time of the request, on the frame grid
    that starts at the last video timestamp. *)
Theorem get_closest_v_ts_window :
  forall (interval now : Z) (p : pause_data),
    0 < interval -> 0 <= last_video_ts p <= now ->
    now + 2 * interval < 2 ^ 64 ->
    let ts := get_closest_v_ts interval now p in
    now + interval < ts <= now + 2 * interval
    /\ (ts - last_video_ts p) mod interval = 0.
Proof. exact get_closest_v_ts_bounds. Qed.

Lemma obs_raw_output_pause_starts (interval now : Z) (output : obs_output) :
  pause_can_start (pause output) = true ->
  obs_raw_output_pause interval now output true
  = (set_pause
       (set_ts_start (get_closest_v_ts interval now (pause output))
          (pause output)) output, true).
Proof. intros H. unfold obs_raw_output_pause. now rewrite H. Qed.

Lemma obs_raw_output_pause_stops (interval now : Z) (output : obs_output) :
  pause_can_stop (pause output) = true ->
  obs_raw_output_pause interval now output false
  = (set_pause
       (end_pause (pause output)
          (get_closest_v_ts interval now (pause output))) output, true).
Proof. intros H. unfold obs_raw_output_pause. now rewrite H. Qed.

Lemma pause_set_pause (p : pause_data) (output : obs_output) :
  pause (set_pause p output) = p.
Proof. reflexivity. Qed.

(** X13.  A pause and the unpause that follows it, on a raw output that is not
    paused: both succeed, the pause lasts a whole number of frame intervals,
    [ts_offset] grows by that duration, and a further pause is refused as
    long as [ts_end] stays set. *)
Theorem obs_raw_output_pause_cycle :
  forall (interval now1 now2 now3 : Z) (output : obs_output),
    pause_can_start (pause output) = true ->
    0 < interval -> 0 <= last_video_ts (pause output) <= now1 ->
    now1 <= now2 -> now2 + 2 * interval < 2 ^ 64 ->
    let paused' := obs_raw_output_pause interval now1 output true in
    let resumed := obs_raw_output_pause interval now2 (fst paused') false in
    let t1 := get_closest_v_ts interval now1 (pause output) in
    let t2 := get_closest_v_ts interval now2 (pause output) in
    snd paused' = true /\ snd resumed = true
    /\ ts_start (pause (fst resumed)) = t1
    /\ ts_end (pause (fst resumed)) = t2
    /\ t1 <= t2 /\ (t2 - t1) mod interval = 0
    /\ ts_offset (pause (fst resumed))
       = wrap_u64 (ts_offset (pause output) + (t2 - t1))
    /\ obs_raw_output_pause interval now3 (fst resumed) true
       = (fst resumed, false).
Proof.
  intros interval now1 now2 now3 output Start Hi Hl H12 Hn. cbv zeta.
  destruct (get_closest_v_ts_bounds interval now1 (pause output) Hi Hl
              ltac:(lia)) as [W1 G1].
  destruct (get_closest_v_ts_bounds interval now2 (pause output) Hi
              ltac:(lia) Hn) as [W2 G2].
  assert (E1 : get_closest_v_ts interval now1 (pause output)
               <= get_closest_v_ts interval now2 (pause output)).
  { rewrite !get_closest_v_ts_formula by lia.
    apply Z.add_le_mono_l, Z.mul_le_mono_nonneg_r; [lia |].
    apply Z.div_le_mono; lia. }
  rewrite (obs_raw_output_pause_starts interval now1 output Start).
  cbn [fst snd].
  remember (get_closest_v_ts interval now1 (pause output)) as t1 eqn:Et1.
  assert (C2 : get_closest_v_ts interval now2
                 (pause (set_pause (set_ts_start t1 (pause output)) output))
               = get_closest_v_ts interval now2 (pause output))
    by reflexivity.
  remember (get_closest_v_ts interval now2 (pause output)) as t2 eqn:Et2.
  unfold pause_can_start in Start.
  apply andb_prop in Start. destruct Start as [S0 E0].
  apply Z.eqb_eq in E0.
  assert (N1 : (t1 =? 0) = false) by (apply Z.eqb_neq; lia).
  rewrite obs_raw_output_pause_stops
    by (rewrite pause_set_pause; unfold pause_can_stop, set_ts_start;
        cbn [ts_start ts_end]; now rewrite N1, E0).
  rewrite C2, pause_set_pause. cbn [fst snd].
  unfold end_pause, set_ts_start. cbn [ts_start ts_end ts_offset]. rewrite E0.
  cbn [Z.eqb]. rewrite !pause_set_pause.
  cbn [ts_start ts_end ts_offset last_video_ts].
  split; [reflexivity |]. split; [reflexivity |].
  split; [reflexivity |]. split; [reflexivity |].
  split; [exact E1 |].
  split.
  { replace (t2 - t1)
      with ((t2 - last_video_ts (pause output))
            - (t1 - last_video_ts (pause output))) by lia.
    rewrite Zminus_mod, G1, G2. reflexivity. }
  split.
  { unfold wrap_u64. now rewrite Zplus_mod_idemp_r. }
  unfold obs_raw_output_pause, pause_can_start. rewrite !pause_set_pause.
  cbn [ts_start ts_end]. rewrite N1. reflexivity.
Qed.

Lemma some_audio_encoder_fails_false (check : pause_data -> bool)
    (aenc : list (option obs_encoder.t)) :
  some_audio_encoder_fails check aenc = false
  <-> Forall (fun e => check (obs_encoder.pause e) = true)
        (flat_map bound_encoder aenc).
Proof.
  unfold some_audio_encoder_fails.
  induction aenc as [| [e |] rest IH]; simpl.
  - split; [constructor | reflexivity].
  - destruct (check (obs_encoder.pause e)) eqn:C; simpl.
    + rewrite IH. split; [now constructor |]. intros F.
      exact (Forall_inv_tail F).
    + split; [discriminate |]. intros F. apply Forall_inv in F. congruence.
  - exact IH.
Qed.

Lemma bound_encoders_map (f : obs_encoder.t -> obs_encoder.t)
    (P : obs_encoder.t -> Prop) (aenc : list (option obs_encoder.t)) :
  (forall e, obs_encoder.addr (f e) = obs_encoder.addr e) ->
  (forall e, In e (flat_map bound_encoder aenc) -> P (f e)) ->
  map obs_encoder.addr (flat_map bound_encoder (map (option_map f) aenc))
  = map obs_encoder.addr (flat_map bound_encoder aenc)
  /\ Forall P (flat_map bound_encoder (map (option_map f) aenc)).
Proof.
  intros Ha. induction aenc as [| [e |] rest IH]; simpl; intros Hp.
  - split; [reflexivity | constructor].
  - destruct IH as [E F]; [intros e' I; apply Hp; now right |].
    split; [now rewrite Ha, E |].
    constructor; [apply Hp; now left | exact F].
  - apply IH, Hp.
Qed.

(** X14.  Pausing an encoded output is all or nothing.  It succeeds exactly when
    every bound encoder (the video encoder and each audio encoder) can start
    the pause, or can stop it; on failure the output is as it was; on
    success the same encoders are bound, every one of them carries the
    requested paused flag, and all of them got one timestamp, the quantized
    one of the video encoder. *)
Theorem obs_encoded_output_pause_all_or_nothing :
  forall (interval now : Z) (output output' : obs_output) (pause' ok : bool),
    obs_encoded_output_pause interval now output pause' = Some (output', ok) ->
    let check := if pause' then pause_can_start else pause_can_stop in
    let stamp p := if pause' then ts_start p else ts_end p in
    (ok = true
     <-> Forall (fun e => check (obs_encoder.pause e) = true)
           (bound_encoders output))
    /\ (ok = false -> output' = output)
    /\ (ok = true ->
        map obs_encoder.addr (bound_encoders output')
        = map obs_encoder.addr (bound_encoders output)
        /\ exists venc,
             video_encoder output = Some venc
             /\ Forall
                  (fun e =>
                     obs_encoder.paused e = pause'
                     /\ stamp (obs_encoder.pause e)
                        = get_closest_v_ts interval now
                            (obs_encoder.pause venc))
                  (bound_encoders output')).
Proof.
  intros interval now output output' pause' ok. cbv zeta.
  unfold obs_encoded_output_pause, bound_encoders.
  destruct (video_encoder output) as [venc |] eqn:Ev; [| discriminate].
  set (ts := get_closest_v_ts interval now (obs_encoder.pause venc)).
  destruct pause'.
  - destruct (pause_can_start (obs_encoder.pause venc)) eqn:Cv; simpl.
    + destruct (some_audio_encoder_fails pause_can_start
                  (audio_encoders output)) eqn:Ca.
      * intros H. injection H as <- <-. rewrite ?Ev.
        split; [| split; [reflexivity | discriminate]].
        split; [discriminate |]. intros F. simpl in F.
        apply Forall_inv_tail, some_audio_encoder_fails_false in F.
        congruence.
      * intros H. injection H as <- <-.
        apply some_audio_encoder_fails_false in Ca.
        split; [split; [intros _; rewrite ?Ev; now constructor | reflexivity] |].
        split; [discriminate |]. intros _. cbn.
        destruct (bound_encoders_map
                    (fun e =>
                       encoder_set_pause true
                         (set_ts_start ts (obs_encoder.pause e)) e)
                    (fun e =>
                       obs_encoder.paused e = true
                       /\ ts_start (obs_encoder.pause e) = ts)
                    (audio_encoders output)) as [Ea Fa];
          [reflexivity | intros e _; split; reflexivity |].
        rewrite ?Ev. simpl. rewrite Ea.
        split; [reflexivity |]. exists venc. split; [reflexivity |].
        constructor; [split; reflexivity | exact Fa].
    + intros H. injection H as <- <-. rewrite ?Ev.
      split; [| split; [reflexivity | discriminate]].
      split; [discriminate |]. intros F. apply Forall_inv in F. congruence.
  - destruct (pause_can_stop (obs_encoder.pause venc)) eqn:Cv; simpl.
    + destruct (some_audio_encoder_fails pause_can_stop
                  (audio_encoders output)) eqn:Ca.
      * intros H. injection H as <- <-. rewrite ?Ev.
        split; [| split; [reflexivity | discriminate]].
        split; [discriminate |]. intros F. simpl in F.
        apply Forall_inv_tail, some_audio_encoder_fails_false in F.
        congruence.
      * intros H. injection H as <- <-.
        apply some_audio_encoder_fails_false in Ca.
        split; [split; [intros _; rewrite ?Ev; now constructor | reflexivity] |].
        split; [discriminate |]. intros _. cbn.
        assert (Stop : forall p,
                   pause_can_stop p = true -> ts_end (end_pause p ts) = ts).
        { intros p Hp. unfold pause_can_stop in Hp.
          apply andb_prop in Hp. destruct Hp as [_ Hp].
          unfold end_pause. now rewrite Hp. }
        destruct (bound_encoders_map
                    (fun e =>
                       encoder_set_pause false
                         (end_pause (obs_encoder.pause e) ts) e)
                    (fun e =>
                       obs_encoder.paused e = false
                       /\ ts_end (obs_encoder.pause e) = ts)
                    (audio_encoders output)) as [Ea Fa];
          [reflexivity | |].
        { intros e I. split; [reflexivity |]. apply Stop.
          rewrite Forall_forall in Ca. now apply Ca. }
        rewrite ?Ev. simpl. rewrite Ea.
        split; [reflexivity |]. exists venc. split; [reflexivity |].
        constructor; [split; [reflexivity | now apply Stop] | exact Fa].
    + intros H. injection H as <- <-. rewrite ?Ev.
      split; [| split; [reflexivity | discriminate]].
      split; [discriminate |]. intros F. apply Forall_inv in F. congruence.
Qed.

(** X15.  What [obs_output_pause] does to the output: on failure nothing; on
    success the paused flag is the one asked for, the output is active and
    can pause, and the pause or unpause signal is raised exactly when the
    flag changed. *)
Theorem obs_output_pause_outcome :
  forall (interval now : Z) (output output' : obs_output)
         (pause' result : bool),
    obs_output_pause interval now (Some output) pause'
    = Some (Some output', result) ->
    (result = false -> output' = output)
    /\ (result = true ->
        paused output' = pause' /\ active output = true
        /\ Z.land (info_flags output) OBS_OUTPUT_CAN_PAUSE <> 0)
    /\ signals output'
       = signals output
         ++ (if result && negb (Bool.eqb (paused output) pause')
             then [signal (if pause' then "pause" else "unpause")]
             else []).
Proof.
  intros interval now output output' pause' result.
  unfold obs_output_pause.
  destruct (Z.land (info_flags output) OBS_OUTPUT_CAN_PAUSE =? 0) eqn:Cp.
  { intros H. injection H as <- <-.
    split; [reflexivity |]. split; [discriminate |].
    simpl. now rewrite app_nil_r. }
  apply Z.eqb_neq in Cp.
  destruct (active output) eqn:Ac; simpl.
  2:{ intros H. injection H as <- <-.
      split; [reflexivity |]. split; [discriminate |].
      simpl. now rewrite app_nil_r. }
  destruct (Bool.eqb (paused output) pause') eqn:Pe.
  { intros H. injection H as <- <-.
    split; [discriminate |]. apply Bool.eqb_prop in Pe.
    split; [auto |]. simpl. now rewrite app_nil_r. }
  assert (Sig : forall o ok,
             obs_encoded_output_pause interval now output pause'
             = Some (o, ok) -> signals o = signals output).
  { unfold obs_encoded_output_pause. intros o ok.
    destruct (video_encoder output); [| discriminate].
    destruct pause';
      repeat match goal with
             | |- context [if ?c then _ else _] => destruct c
             end;
      intros H; injection H as <- <-; reflexivity. }
  assert (Fail : forall o,
             obs_encoded_output_pause interval now output pause'
             = Some (o, false) -> o = output).
  { unfold obs_encoded_output_pause. intros o.
    destruct (video_encoder output); [| discriminate].
    destruct pause';
      repeat match goal with
             | |- context [if ?c then _ else _] => destruct c
             end;
      intros H; injection H as <-; first [reflexivity | discriminate]. }
  destruct (negb (Z.land (info_flags output) OBS_OUTPUT_ENCODED =? 0)).
  - destruct (obs_encoded_output_pause interval now output pause')
      as [[o ok] |] eqn:E; [| discriminate].
    pose proof (Sig o ok eq_refl) as So.
    destruct ok; intros H; injection H as <- <-.
    + split; [discriminate |]. split; [auto |].
      simpl. now rewrite So.
    + rewrite (Fail o eq_refl).
      split; [reflexivity |]. split; [discriminate |].
      simpl. now rewrite app_nil_r.
  - unfold obs_raw_output_pause.
    destruct pause'.
    + destruct (pause_can_start (pause output)); intros H;
        injection H as <- <-.
      * split; [discriminate |]. split; [auto |]. reflexivity.
      * split; [reflexivity |]. split; [discriminate |].
        simpl. now rewrite app_nil_r.
    + destruct (pause_can_stop (pause output)); intros H;
        injection H as <- <-.
      * split; [discriminate |]. split; [auto |]. reflexivity.
      * split; [reflexivity |]. split; [discriminate |].
        simpl. now rewrite app_nil_r.
Qed.

(** ** Stop path and reconnect controller *)

(** *** binary32 products *)

Lemma digits2_pos_bounds (p : positive) :
  2 ^ (Zpos (SpecFloat.digits2_pos p) - 1) <= Zpos p
  < 2 ^ Zpos (SpecFloat.digits2_pos p).
Proof.
  induction p as [p IH | p IH |]; cbn [SpecFloat.digits2_pos].
  - rewrite Pos2Z.inj_succ.
    replace (Z.succ (Zpos (SpecFloat.digits2_pos p)) - 1)
      with (Z.succ (Zpos (SpecFloat.digits2_pos p) - 1)) by lia.
    rewrite !Z.pow_succ_r by lia. lia.
  - rewrite Pos2Z.inj_succ.
    replace (Z.succ (Zpos (SpecFloat.digits2_pos p)) - 1)
      with (Z.succ (Zpos (SpecFloat.digits2_pos p) - 1)) by lia.
    rewrite !Z.pow_succ_r by lia. lia.
  - simpl. lia.
Qed.

Lemma iter_xO_shift (p k : positive) :
  Zpos (Pos.iter xO p k) = Zpos p * 2 ^ Zpos k
  /\ SpecFloat.digits2_pos (Pos.iter xO p k)
     = (SpecFloat.digits2_pos p + k)%positive.
Proof.
  induction k as [| k IH] using Pos.peano_ind.
  - simpl. split; [lia |]. now rewrite Pos.add_1_r.
  - rewrite Pos.iter_succ. destruct IH as [V D]. split.
    + rewrite Pos2Z.inj_xO, V, Pos2Z.inj_succ, Z.pow_succ_r by lia. lia.
    + cbn [SpecFloat.digits2_pos]. rewrite D. lia.
Qed.

Lemma shr_1_half (mrs : SpecFloat.shr_record) :
  0 <= SpecFloat.shr_m mrs ->
  SpecFloat.shr_m (SpecFloat.shr_1 mrs) = SpecFloat.shr_m mrs / 2.
Proof.
  destruct mrs as [m r s]. simpl. intros H.
  destruct m as [| p | p]; [reflexivity | | lia].
  destruct p as [p | p |]; simpl.
  - rewrite Pos2Z.inj_xI.
    apply (Z.div_unique_pos _ _ _ 1); lia.
  - rewrite Pos2Z.inj_xO.
    apply (Z.div_unique_pos _ _ _ 0); lia.
  - reflexivity.
Qed.

Lemma iter_shr_1_div (p : positive) :
  forall mrs,
    0 <= SpecFloat.shr_m mrs ->
    SpecFloat.shr_m (SpecFloat.iter_pos SpecFloat.shr_1 p mrs)
    = SpecFloat.shr_m mrs / 2 ^ Zpos p.
Proof.
  assert (Pos_half : forall mrs,
             0 <= SpecFloat.shr_m mrs ->
             0 <= SpecFloat.shr_m (SpecFloat.shr_1 mrs)).
  { intros mrs H. rewrite shr_1_half by exact H.
    apply Z.div_pos; lia. }
  assert (Dbl : forall q : positive,
             2 ^ Zpos q~0 = 2 ^ Zpos q * 2 ^ Zpos q).
  { intros q. rewrite <- Z.pow_add_r by lia. f_equal. lia. }
  assert (Dbl1 : forall q : positive,
             2 ^ Zpos q~1 = 2 * (2 ^ Zpos q * 2 ^ Zpos q)).
  { intros q. rewrite <- Z.pow_add_r, <- Z.pow_succ_r by lia. f_equal. lia. }
  induction p as [p IH | p IH |]; intros mrs H; cbn [SpecFloat.iter_pos].
  - pose proof (Pos_half mrs H) as H1.
    assert (H2 : 0 <= SpecFloat.shr_m
                        (SpecFloat.iter_pos SpecFloat.shr_1 p
                           (SpecFloat.shr_1 mrs))).
    { rewrite IH by exact H1. apply Z.div_pos; [exact H1 | lia]. }
    rewrite IH by exact H2. rewrite IH by exact H1.
    rewrite shr_1_half by exact H.
    rewrite !Z.div_div by lia. f_equal.
    rewrite Dbl1. lia.
  - assert (H2 : 0 <= SpecFloat.shr_m
                        (SpecFloat.iter_pos SpecFloat.shr_1 p mrs)).
    { rewrite IH by exact H. apply Z.div_pos; [exact H | lia]. }
    rewrite IH by exact H2. rewrite IH by exact H.
    rewrite Z.div_div by lia. f_equal.
    rewrite Dbl. reflexivity.
  - rewrite shr_1_half by exact H. reflexivity.
Qed.

(** What [shr_fexp] does to mantissa and exponent: the mantissa loses the
    bits below the format's exponent. *)
Lemma shr_fexp_shift (m : positive) (e : Z) (l : SpecFloat.location) :
  let n := Z.max 0 (SpecFloat.fexp 24 128
                      (Zpos (SpecFloat.digits2_pos m) + e) - e) in
  SpecFloat.shr_m (fst (SpecFloat.shr_fexp 24 128 (Zpos m) e l))
  = Zpos m / 2 ^ n
  /\ snd (SpecFloat.shr_fexp 24 128 (Zpos m) e l) = e + n.
Proof.
  cbv zeta. unfold SpecFloat.shr_fexp. cbn [SpecFloat.Zdigits2].
  set (k := SpecFloat.fexp 24 128 (Zpos (SpecFloat.digits2_pos m) + e) - e).
  assert (M : SpecFloat.shr_m (SpecFloat.shr_record_of_loc (Zpos m) l)
              = Zpos m) by (destruct l as [| []]; reflexivity).
  unfold SpecFloat.shr. destruct k as [| q | q]; cbn [fst snd].
  - rewrite M, Z.max_l, Z.div_1_r by lia. split; [reflexivity | lia].
  - rewrite iter_shr_1_div by (rewrite M; lia).
    rewrite M, Z.max_r by lia. split; reflexivity.
  - rewrite M, Z.max_l, Z.div_1_r by lia. split; [reflexivity | lia].
Qed.

(** The number [mc * 2^ec] is one a binary32 mantissa can hold: rounding a
    greater number down to the format does not go below it.  Numbers are
    compared scaled by [2^K]. *)
Lemma shr_fexp_above (m : positive) (e : Z) (l : SpecFloat.location)
    (mc ec K : Z) :
  0 < mc < 2 ^ 24 -> -149 <= ec -> 0 <= ec + K -> 0 <= e + K ->
  mc * 2 ^ (ec + K) <= Zpos m * 2 ^ (e + K) ->
  mc * 2 ^ (ec + K)
  <= SpecFloat.shr_m (fst (SpecFloat.shr_fexp 24 128 (Zpos m) e l))
     * 2 ^ (snd (SpecFloat.shr_fexp 24 128 (Zpos m) e l) + K).
Proof.
  intros Hmc Hec HK1 HK2 Le.
  destruct (shr_fexp_shift m e l) as [-> ->].
  pose proof (digits2_pos_bounds m) as [Lo _].
  set (d := Zpos (SpecFloat.digits2_pos m)) in *.
  unfold SpecFloat.fexp, SpecFloat.emin.
  change (3 - 128 - 24) with (-149).
  set (e' := Z.max (d + e - 24) (-149)).
  destruct (Z.max_spec 0 (e' - e)) as [[N ->] | [N ->]].
  2:{ rewrite Z.div_1_r, Z.add_0_r. exact Le. }
  replace (e + (e' - e) + K) with (e' + K) by lia.
  destruct (Z_le_gt_dec e' ec) as [A | B].
  - (* the target lies on the grid of the result *)
    apply Z.le_trans with (mc * 2 ^ (ec - e') * 2 ^ (e' + K)).
    + rewrite <- Z.mul_assoc, <- Z.pow_add_r by lia.
      replace (ec - e' + (e' + K)) with (ec + K) by lia. lia.
    + apply Z.mul_le_mono_nonneg_r; [apply Z.pow_nonneg; lia |].
      apply Z.div_le_lower_bound; [apply Z.pow_pos_nonneg; lia |].
      assert (E : 2 ^ (e' - e) * (mc * 2 ^ (ec - e')) * 2 ^ (e + K)
                  = mc * 2 ^ (ec + K)).
      { replace (2 ^ (e' - e) * (mc * 2 ^ (ec - e')) * 2 ^ (e + K))
          with (mc * (2 ^ (e' - e) * 2 ^ (ec - e') * 2 ^ (e + K))) by ring.
        rewrite <- !Z.pow_add_r by lia. f_equal. f_equal. lia. }
      assert (P : 0 < 2 ^ (e + K)) by (apply Z.pow_pos_nonneg; lia).
      nia.
  - (* the target lies in a lower binade *)
    assert (E' : e' = d + e - 24) by (unfold e' in *; lia).
    assert (Q : 2 ^ 23 <= Zpos m / 2 ^ (e' - e)).
    { apply Z.div_le_lower_bound; [apply Z.pow_pos_nonneg; lia |].
      rewrite <- Z.pow_add_r by lia.
      replace (e' - e + 23) with (d - 1) by lia. exact Lo. }
    apply Z.le_trans with (2 ^ 23 * 2 ^ (e' + K)).
    + rewrite <- Z.pow_add_r by lia.
      apply Z.le_trans with (2 ^ 24 * 2 ^ (ec + K)).
      * apply Z.mul_le_mono_nonneg_r; [apply Z.pow_nonneg; lia | lia].
      * rewrite <- Z.pow_add_r by lia. apply Z.pow_le_mono_r; lia.
    + apply Z.mul_le_mono_nonneg_r; [apply Z.pow_nonneg; lia | exact Q].
Qed.

Lemma round_nearest_even_above (mx : Z) (lx : SpecFloat.location) :
  mx <= SpecFloat.round_nearest_even mx lx.
Proof.
  destruct lx as [| []]; simpl; try lia.
  destruct (Z.even mx); lia.
Qed.

(** Rounding to binary32 does not go below a number a binary32 mantissa can
    hold: a finite result keeps the sign and is not below it, and the result
    is neither a zero nor a NaN. *)
Lemma binary_round_aux_above (s : bool) (m : positive) (e : Z)
    (l : SpecFloat.location) (mc ec K : Z) :
  0 < mc < 2 ^ 24 -> -149 <= ec -> 0 <= ec + K -> 0 <= e + K ->
  mc * 2 ^ (ec + K) <= Zpos m * 2 ^ (e + K) ->
  match SpecFloat.binary_round_aux 24 128 s (Zpos m) e l with
  | S754_finite s' m' e' =>
      s' = s /\ e <= e' /\ mc * 2 ^ (ec + K) <= Zpos m' * 2 ^ (e' + K)
  | S754_infinity s' => s' = s
  | S754_zero _ | S754_nan => False
  end.
Proof.
  intros Hmc Hec HK1 HK2 Le. unfold SpecFloat.binary_round_aux.
  pose proof (shr_fexp_above m e l mc ec K Hmc Hec HK1 HK2 Le) as G1.
  pose proof (shr_fexp_shift m e l) as [_ E1].
  destruct (SpecFloat.shr_fexp 24 128 (Zpos m) e l) as [mrs1 e1].
  cbn [fst snd] in *.
  assert (T : 0 < mc * 2 ^ (ec + K))
    by (apply Z.mul_pos_pos; [lia | apply Z.pow_pos_nonneg; lia]).
  assert (HK3 : 0 <= e1 + K) by lia.
  pose proof (round_nearest_even_above (SpecFloat.shr_m mrs1)
                (SpecFloat.loc_of_shr_record mrs1)) as R.
  set (m2 := SpecFloat.round_nearest_even (SpecFloat.shr_m mrs1)
               (SpecFloat.loc_of_shr_record mrs1)) in *.
  assert (P1 : 0 < SpecFloat.shr_m mrs1).
  { assert (0 < 2 ^ (e1 + K)) by (apply Z.pow_pos_nonneg; lia). nia. }
  destruct m2 as [| p2 | p2] eqn:E2; try lia.
  assert (G2 : mc * 2 ^ (ec + K) <= Zpos p2 * 2 ^ (e1 + K)).
  { apply Z.le_trans with (1 := G1).
    apply Z.mul_le_mono_nonneg_r; [apply Z.pow_nonneg; lia | exact R]. }
  pose proof (shr_fexp_above p2 e1 SpecFloat.loc_Exact mc ec K Hmc Hec HK1
                HK3 G2) as G3.
  pose proof (shr_fexp_shift p2 e1 SpecFloat.loc_Exact) as [_ E3].
  destruct (SpecFloat.shr_fexp 24 128 (Zpos p2) e1 SpecFloat.loc_Exact)
    as [mrs3 e3].
  cbn [fst snd] in *.
  assert (P3 : 0 < SpecFloat.shr_m mrs3).
  { assert (0 < 2 ^ (e3 + K)) by (apply Z.pow_pos_nonneg; lia). nia. }
  destruct (SpecFloat.shr_m mrs3) as [| p3 | p3]; try lia.
  destruct (e3 <=? 128 - 24); [| reflexivity].
  split; [reflexivity |]. split; [lia | exact G3].
Qed.

(** A number below 2^24 converts to binary32 exactly. *)
Lemma float32_of_uint32_exact (c : Z) :
  0 < c < 2 ^ 24 ->
  exists m e,
    float32_of_uint32 c = S754_finite false m e
    /\ -23 <= e <= 0 /\ Zpos m * 2 ^ (e + 23) = c * 2 ^ 23.
Proof.
  intros Hc. destruct c as [| p | p]; try lia.
  unfold float32_of_uint32, SpecFloat.binary_normalize,
    SpecFloat.binary_round.
  pose proof (digits2_pos_bounds p) as [Lo Hi].
  set (d := Zpos (SpecFloat.digits2_pos p)) in *.
  assert (Hd : 1 <= d <= 24).
  { split; [unfold d; lia |].
    destruct (Z_le_gt_dec d 24) as [L | G]; [exact L |].
    assert (2 ^ 24 <= 2 ^ (d - 1)) by (apply Z.pow_le_mono_r; lia). lia. }
  assert (F : SpecFloat.fexp 24 128 (d + 0) = d - 24).
  { unfold SpecFloat.fexp, SpecFloat.emin.
    change (3 - 128 - 24) with (-149). lia. }
  rewrite F.
  assert (Canon : forall (m : positive) (e : Z),
             Zpos (SpecFloat.digits2_pos m) = 24 -> -23 <= e <= 0 ->
             SpecFloat.binary_round_aux 24 128 false (Zpos m) e
               SpecFloat.loc_Exact
             = S754_finite false m e).
  { intros m e Dm He. unfold SpecFloat.binary_round_aux.
    assert (Sh : forall l,
               SpecFloat.shr_fexp 24 128 (Zpos m) e l
               = (SpecFloat.shr_record_of_loc (Zpos m) l, e)).
    { intros l. unfold SpecFloat.shr_fexp. cbn [SpecFloat.Zdigits2].
      rewrite Dm. unfold SpecFloat.fexp, SpecFloat.emin.
      change (3 - 128 - 24) with (-149).
      replace (Z.max (24 + e - 24) (-149) - e) with 0 by lia.
      reflexivity. }
    rewrite Sh. cbn. rewrite Sh. cbn.
    destruct (e <=? 104) eqn:L; [reflexivity |].
    apply Z.leb_gt in L. lia. }
  unfold SpecFloat.shl_align.
  destruct (d - 24 - 0) as [| q | q] eqn:Ed; try lia.
  - exists p, 0. rewrite Canon by (unfold d in *; lia).
    split; [reflexivity |]. split; [lia | reflexivity].
  - destruct (iter_xO_shift p q) as [V Dq].
    exists (Pos.iter xO p q), (d - 24).
    rewrite Canon by (rewrite ?Dq, ?Pos2Z.inj_add; unfold d in *; lia).
    split; [reflexivity |]. split; [lia |].
    rewrite V. replace (d - 24 + 23) with (23 - Zpos q) by lia.
    rewrite <- Z.mul_assoc, <- Z.pow_add_r by lia.
    f_equal. f_equal. lia.
Qed.

(** A valid binary32 number that is at least 1.0f is a positive finite
    number with a full mantissa, or plus infinity. *)
Lemma float32_at_least_1 (x : float32) :
  float32_valid x = true -> SFleb float32_1 x = true ->
  x = S754_infinity false
  \/ exists m e,
       x = S754_finite false m e /\ -23 <= e /\ 2 ^ 23 <= Zpos m.
Proof.
  intros V L.
  destruct x as [s | s | | s m e];
    cbv beta iota delta [SFleb SFcompare float32_1] in L; try discriminate.
  - destruct s; [discriminate | now left].
  - destruct s; [discriminate |]. right. exists m, e.
    split; [reflexivity |].
    destruct (Z.compare_spec (-23) e) as [E | Lt | Gt]; try discriminate.
    + subst e. split; [lia |].
      change (Pos.compare_cont Eq 8388608 m) with (8388608 ?= m)%positive
        in L.
      destruct (Pos.compare_spec 8388608 m) as [C | C | C];
        try discriminate; change (2 ^ 23) with 8388608; lia.
    + split; [lia |].
      unfold float32_valid, SpecFloat.valid_binary, SpecFloat.bounded,
        SpecFloat.canonical_mantissa in V.
      apply andb_prop in V. destruct V as [V _]. apply Z.eqb_eq in V.
      unfold SpecFloat.fexp, SpecFloat.emin in V.
      change (3 - 128 - 24) with (-149) in V.
      pose proof (digits2_pos_bounds m) as [Lo _].
      replace (Zpos (SpecFloat.digits2_pos m) - 1) with 23 in Lo by lia.
      exact Lo.
Qed.

(** The heart of the back-off: a wait below 2^24 ms times a valid factor
    that is at least 1.0f, rounded to binary32 and cut to an integer, is not
    below the wait. *)
Lemma float32_scale_above (c : Z) (x : float32) (z : Z) :
  0 <= c < 2 ^ 24 ->
  float32_valid x = true -> SFleb float32_1 x = true ->
  float32_trunc (float32_mul (float32_of_uint32 c) x) = Some z ->
  c <= z.
Proof.
  intros Hc V L T.
  destruct (Z.eq_dec c 0) as [-> | N0].
  { destruct (float32_at_least_1 x V L) as [-> | (m & e & -> & _)];
      simpl in T; [discriminate |]. injection T as <-. lia. }
  destruct (float32_of_uint32_exact c ltac:(lia)) as (mc & ec & Ec & Hec & Vc).
  rewrite Ec in T. clear Ec.
  destruct (float32_at_least_1 x V L) as [-> | (mx & ex & -> & Hex & Hmx)];
    [simpl in T; discriminate |].
  unfold float32_mul, SpecFloat.SFmul in T. cbn [xorb] in T.
  pose proof (binary_round_aux_above false (mc * mx) (ec + ex)
                SpecFloat.loc_Exact c 0 46) as B.
  assert (Le : c * 2 ^ (0 + 46) <= Zpos (mc * mx) * 2 ^ (ec + ex + 46)).
  { assert (Px : 2 ^ 23 <= Zpos mx * 2 ^ (ex + 23)).
    { assert (1 <= 2 ^ (ex + 23))
        by (assert (0 < 2 ^ (ex + 23)) by (apply Z.pow_pos_nonneg; lia); lia).
      nia. }
    assert (E : Zpos (mc * mx) * 2 ^ (ec + ex + 46)
                = (c * 2 ^ 23) * (Zpos mx * 2 ^ (ex + 23))).
    { rewrite <- Vc, Pos2Z.inj_mul.
      replace (ec + ex + 46) with ((ec + 23) + (ex + 23)) by lia.
      rewrite Z.pow_add_r by lia. ring. }
    rewrite E. change (2 ^ (0 + 46)) with (2 ^ 23 * 2 ^ 23).
    rewrite Z.mul_assoc.
    apply Z.mul_le_mono_nonneg_l; [lia | exact Px]. }
  specialize (B ltac:(lia) ltac:(lia) ltac:(lia) ltac:(lia) Le).
  destruct (SpecFloat.binary_round_aux 24 128 false (Zpos (mc * mx))
              (ec + ex) SpecFloat.loc_Exact) as [s | s | | s m e];
    try contradiction; simpl in T; [discriminate |].
  destruct B as (-> & He & Ge). injection T as <-. cbn [SpecFloat.cond_Zopp].
  destruct (Z_le_gt_dec 0 e) as [P | Ng].
  - rewrite Z.shiftl_mul_pow2 by lia.
    change (0 + 46) with 46 in Ge. rewrite Z.pow_add_r in Ge by lia.
    apply (Z.mul_le_mono_pos_r _ _ (2 ^ 46)); [reflexivity |].
    rewrite <- Z.mul_assoc. exact Ge.
  - rewrite Z.shiftl_div_pow2 by lia.
    apply Z.div_le_lower_bound; [apply Z.pow_pos_nonneg; lia |].
    change (0 + 46) with 46 in Ge.
    replace 46 with (- e + (e + 46)) in Ge at 1 by lia.
    rewrite Z.pow_add_r in Ge by lia.
    apply (Z.mul_le_mono_pos_r _ _ (2 ^ (e + 46)));
      [apply Z.pow_pos_nonneg; lia |].
    rewrite <- Ge. ring_simplify. lia.
Qed.

(** X16.  While retries remain after the first one, the wait before the next
    retry is the binary32 product of the current wait and the back-off
    factor, cut to an integer and capped at [RECONNECT_RETRY_MAX_MSEC]; with
    a valid factor of at least 1.0f and a product that fits [uint32_t]
    (otherwise the conversion is undefined) the wait never gets shorter. *)
Theorem output_reconnect_backoff_monotone :
  forall (cleanup : Z -> Z -> Z * Z) (end_thread_ret ret : Z)
         (output : obs_output) (next : Z),
    reconnecting output = true ->
    0 < reconnect_retries output < reconnect_retry_max output ->
    float32_valid (reconnect_retry_exp output) = true ->
    SFleb float32_1 (reconnect_retry_exp output) = true ->
    0 <= reconnect_retry_cur_msec output <= RECONNECT_RETRY_MAX_MSEC ->
    float32_trunc
      (float32_mul (float32_of_uint32 (reconnect_retry_cur_msec output))
         (reconnect_retry_exp output)) = Some next ->
    next < 2 ^ 32 ->
    let output' := output_reconnect cleanup end_thread_ret ret output in
    reconnect_retry_cur_msec output' = Z.min RECONNECT_RETRY_MAX_MSEC next
    /\ reconnect_retry_cur_msec output
       <= reconnect_retry_cur_msec output' <= RECONNECT_RETRY_MAX_MSEC.
Proof.
  intros cleanup end_thread_ret ret output next R Hr V He Hc T Hq. cbv zeta.
  assert (Ge : reconnect_retry_cur_msec output <= next).
  { apply (float32_scale_above _ (reconnect_retry_exp output));
      try assumption.
    unfold RECONNECT_RETRY_MAX_MSEC in Hc.
    change (2 ^ 24) with 16777216. lia. }
  assert (E : reconnect_retry_cur_msec
                (output_reconnect cleanup end_thread_ret ret output)
              = if next >? RECONNECT_RETRY_MAX_MSEC
                then RECONNECT_RETRY_MAX_MSEC else next).
  { unfold output_reconnect. rewrite R. cbn [negb].
    assert (G : (reconnect_retries output >=? reconnect_retry_max output)
                = false) by (rewrite Z.geb_leb; apply Z.leb_gt; lia).
    rewrite G, R. cbn [negb].
    assert (N : (reconnect_retries output =? 0) = false)
      by (apply Z.eqb_neq; lia).
    rewrite N. cbn [negb]. unfold uint32_of_float32. rewrite T.
    assert (W : wrap_u32 next = next)
      by (unfold wrap_u32; apply Z.mod_small; lia).
    rewrite !W.
    destruct (ret =? 0); destruct (ret <? 0); reflexivity. }
  rewrite E.
  destruct (next >? RECONNECT_RETRY_MAX_MSEC) eqn:C.
  - apply Z.gtb_lt in C. lia.
  - rewrite Z.gtb_ltb in C. apply Z.ltb_ge in C. lia.
Qed.

(** X17.  [output_reconnect] never counts more retries than the configured
    maximum: it counts one more retry while retries remain and none once
    they are used up. *)
Theorem output_reconnect_retry_bound :
  forall (cleanup : Z -> Z -> Z * Z) (end_thread_ret ret : Z)
         (output : obs_output),
    0 <= reconnect_retry_max output ->
    let output' := output_reconnect cleanup end_thread_ret ret output in
    reconnect_retry_max output' = reconnect_retry_max output
    /\ reconnect_retries output'
       = (if retries_made output <? reconnect_retry_max output
          then retries_made output + 1 else retries_made output)
    /\ (retries_made output <= reconnect_retry_max output ->
        reconnect_retries output' <= reconnect_retry_max output).
Proof.
  intros cleanup end_thread_ret ret output Hm. cbv zeta.
  assert (E : reconnect_retry_max (output_reconnect cleanup end_thread_ret ret output)
              = reconnect_retry_max output
              /\ reconnect_retries (output_reconnect cleanup end_thread_ret ret output)
                 = (if retries_made output <? reconnect_retry_max output
                    then retries_made output + 1 else retries_made output)).
  { unfold output_reconnect, retries_made.
    destruct (reconnecting output) eqn:R; cbn [negb].
    - destruct (reconnect_retries output >=? reconnect_retry_max output)
        eqn:G.
      + assert (L : (reconnect_retries output <? reconnect_retry_max output)
                    = false)
          by (apply Z.ltb_ge; apply Z.geb_le in G; lia).
        rewrite L. unfold obs_output_end_data_capture.
        match goal with
        | |- context [obs_output_end_data_capture_internal _ _ ?o true] =>
            destruct (end_data_capture_effects cleanup end_thread_ret o true)
              as (evs & _ & _ & _ & Er & Em & _)
        end.
        cbv zeta in Er, Em. rewrite Er, Em.
        match goal with
        | |- context [if ?c then _ else _] => destruct c
        end; split; reflexivity.
      + assert (L : (reconnect_retries output <? reconnect_retry_max output)
                    = true)
          by (apply Z.ltb_lt; rewrite Z.geb_leb in G;
              apply Z.leb_gt in G; lia).
        rewrite L, R. cbn [negb].
        destruct (reconnect_retries output =? 0);
          destruct (ret =? 0); destruct (ret <? 0); split; reflexivity.
    - cbn [reconnect_retries reconnect_retry_max set_reconnect_retries
             set_reconnect_retry_cur_msec].
      change (reconnect_retries
                (set_reconnect_retries 0
                   (set_reconnect_retry_cur_msec
                      (wrap_u32 (reconnect_retry_sec output * 1000)) output)))
        with 0.
      change (reconnect_retry_max
                (set_reconnect_retries 0
                   (set_reconnect_retry_cur_msec
                      (wrap_u32 (reconnect_retry_sec output * 1000)) output)))
        with (reconnect_retry_max output).
      destruct (0 >=? reconnect_retry_max output) eqn:G.
      + assert (L : (0 <? reconnect_retry_max output) = false)
          by (apply Z.ltb_ge; apply Z.geb_le in G; lia).
        rewrite L. unfold obs_output_end_data_capture.
        match goal with
        | |- context [obs_output_end_data_capture_internal _ _ ?o true] =>
            destruct (end_data_capture_effects cleanup end_thread_ret o true)
              as (evs & _ & _ & _ & Er & Em & _)
        end.
        cbv zeta in Er, Em. rewrite Er, Em.
        match goal with
        | |- context [if ?c then _ else _] => destruct c
        end; split; reflexivity.
      + assert (L : (0 <? reconnect_retry_max output) = true)
          by (apply Z.ltb_lt; rewrite Z.geb_leb in G;
              apply Z.leb_gt in G; lia).
        rewrite L. cbn. rewrite R. cbn.
        destruct (ret =? 0); destruct (ret <? 0); split; reflexivity. }
  destruct E as [Em Er]. split; [exact Em |]. split; [exact Er |].
  intros Le. rewrite Er.
  destruct (retries_made output <? reconnect_retry_max output) eqn:L;
    [apply Z.ltb_lt in L |]; lia.
Qed.

(** X18.  What [output_reconnect] does when [pthread_create] does not return 0,
    with retries remaining.  A negative value clears the reconnecting flag
    and raises no signal at all; a positive value (an error number) is taken
    for success: the reconnect signal is raised and the output stays
    reconnecting, although no thread was created to restart it.  In both
    cases the retry is counted and no stop signal is raised. *)
Theorem output_reconnect_thread_not_created :
  forall (cleanup : Z -> Z -> Z * Z) (end_thread_ret ret : Z)
         (output : obs_output),
    ret <> 0 ->
    retries_made output < reconnect_retry_max output ->
    let output' := output_reconnect cleanup end_thread_ret ret output in
    reconnect_retries output' = retries_made output + 1
    /\ stop_code output' = OBS_OUTPUT_DISCONNECTED
    /\ (ret < 0 ->
        reconnecting output' = false /\ signals output' = signals output)
    /\ (0 < ret ->
        reconnecting output' = true
        /\ signals output'
           = signals output
             ++ [signal_reconnect_timeout
                   (reconnect_retry_cur_msec output' / 1000)]).
Proof.
  intros cleanup end_thread_ret ret output Hret Left. cbv zeta.
  unfold retries_made in *.
  assert (C0 : (ret =? 0) = false) by (apply Z.eqb_neq; exact Hret).
  destruct (reconnecting output) eqn:R; unfold output_reconnect;
    rewrite R; cbn [negb].
  - assert (G : (reconnect_retries output >=? reconnect_retry_max output)
                = false) by (rewrite Z.geb_leb; apply Z.leb_gt; lia).
    rewrite G, R, C0. cbn [negb].
    destruct (ret <? 0) eqn:Neg;
      [apply Z.ltb_lt in Neg | apply Z.ltb_ge in Neg];
      destruct (reconnect_retries output =? 0); cbn;
      (split; [reflexivity |]); (split; [reflexivity |]);
      (split; intros H; [| try lia]); try lia;
      split; first [reflexivity | exact R].
  - cbn. rewrite ?R. cbn.
    assert (G : (0 >=? reconnect_retry_max output) = false)
      by (rewrite Z.geb_leb; apply Z.leb_gt; lia).
    rewrite G, C0. cbn. rewrite ?R. cbn.
    destruct (ret <? 0) eqn:Neg;
      [apply Z.ltb_lt in Neg | apply Z.ltb_ge in Neg]; cbn;
      (split; [reflexivity |]); (split; [reflexivity |]);
      (split; intros H; [| try lia]); try lia;
      split; reflexivity.
Qed.


(** X20.  A disconnect of an output whose delay is active, with retries left:
    [obs_output_signal_stop] takes one more delay restart reference and does
    not end the data capture; the reconnect thread, once its wait is over,
    gives the reference back when it restarts the output, which is still
    reconnecting. *)
Theorem reconnect_cycle_balances_delay_refs :
  forall (cleanup : Z -> Z -> Z * Z) (end_thread_ret : Z)
         (info_start : bool) (output : obs_output) (code : Z),
    delay_active output = true ->
    0 <= delay_restart_refs output ->
    reconnecting output = false ->
    code = OBS_OUTPUT_DISCONNECTED ->
    0 < reconnect_retry_max output ->
    exists output',
      obs_output_signal_stop cleanup end_thread_ret 0 (Some output) code = Some output'
      /\ delay_restart_refs output' = delay_restart_refs output + 1
      /\ active output' = active output
      /\ data_active output' = data_active output
      /\ (exists msec,
            signals output'
            = signals output
              ++ [reconnect_thread_created msec;
                  signal_reconnect_timeout (msec / 1000)])
      /\ delay_restart_refs (reconnect_thread info_start output')
         = delay_restart_refs output
      /\ reconnecting (reconnect_thread info_start output') = true.
Proof.
  intros cleanup end_thread_ret info_start output code Da Refs Rc Can Max.
  unfold obs_output_signal_stop.
  assert (C : can_reconnect (set_stop_code code output) code = true)
    by (apply can_reconnect_spec; right; split; [lia | exact Can]).
  rewrite C.
  change (delay_active (set_stop_code code output)) with (delay_active output).
  rewrite Da.
  set (o1 := set_delay_restart_refs
               (delay_restart_refs (set_stop_code code output) + 1)
               (set_stop_code code output)).
  assert (E : obs_output_end_data_capture_internal cleanup end_thread_ret o1 false = o1
              \/ obs_output_end_data_capture_internal cleanup end_thread_ret o1 false
                 = set_stopping_event true (set_delay_capturing false o1)).
  { destruct (active output) eqn:A; destruct (data_active output) eqn:D.
    - right. apply end_data_capture_delay_restarting;
        try assumption. unfold o1. cbn. lia.
    - left. apply (end_data_capture_not_capturing cleanup end_thread_ret o1 false).
      now right.
    - left. apply (end_data_capture_not_capturing cleanup end_thread_ret o1 false).
      now left.
    - left. apply (end_data_capture_not_capturing cleanup end_thread_ret o1 false).
      now left. }
  set (o2 := obs_output_end_data_capture_internal cleanup end_thread_ret o1 false) in *.
  assert (F : delay_restart_refs o2 = delay_restart_refs output + 1
              /\ active o2 = active output
              /\ data_active o2 = data_active output
              /\ signals o2 = signals output
              /\ reconnecting o2 = false
              /\ reconnect_retry_max o2 = reconnect_retry_max output).
  { destruct E as [-> | ->]; unfold o1; cbn; auto 10. }
  clearbody o2. clear E o1.
  destruct F as (F1 & F2 & F3 & F4 & F5 & F6).
  assert (Left : retries_made o2 < reconnect_retry_max o2)
    by (unfold retries_made; rewrite F5, F6; lia).
  destruct (output_reconnect_schedules cleanup end_thread_ret o2 Left)
    as (msec & S1 & S2 & S3 & S4 & S5).
  cbv zeta in *.
  assert (G : active (output_reconnect cleanup end_thread_ret 0 o2) = active o2
              /\ data_active (output_reconnect cleanup end_thread_ret 0 o2) = data_active o2
              /\ reconnect_stop_event (output_reconnect cleanup end_thread_ret 0 o2)
                 = false).
  { unfold output_reconnect. rewrite F5. cbn [negb].
    change (reconnect_retries
              (set_reconnect_retries 0
                 (set_reconnect_retry_cur_msec
                    (wrap_u32 (reconnect_retry_sec o2 * 1000)) o2)))
      with 0.
    change (reconnect_retry_max
              (set_reconnect_retries 0
                 (set_reconnect_retry_cur_msec
                    (wrap_u32 (reconnect_retry_sec o2 * 1000)) o2)))
      with (reconnect_retry_max o2).
    assert (G0 : (0 >=? reconnect_retry_max o2) = false)
      by (rewrite Z.geb_leb; apply Z.leb_gt; lia).
    rewrite G0. cbn. rewrite F5. cbn. auto. }
  destruct G as (G1 & G2 & G3).
  set (o3 := output_reconnect cleanup end_thread_ret 0 o2) in *. clearbody o3.
  exists o3. split; [reflexivity |].
  split; [congruence |]. split; [congruence |]. split; [congruence |].
  split.
  { exists msec. now rewrite S1, F4. }
  unfold reconnect_thread, obs_output_actual_start. cbn.
  rewrite G3. cbn. rewrite S3, F1.
  destruct (delay_restart_refs output + 1 =? 0) eqn:Z0;
    [apply Z.eqb_eq in Z0; lia |].
  cbn. rewrite G3. cbn. split; [lia | exact S2].
Qed.

(** ** Captions *)

(** X21.  The words the drain loop of [add_caption] passes on are CEA-608 words
    only: their type bits are 0, and the 16-bit word is neither 0 nor the
    padding 0x8080 and has valid parity; the loop passes on no more words
    than the queue held. *)
Theorem drain_caption_data_words :
  forall (eia608_parity_varify : Z -> bool) (queue : list (Z * Z * Z)),
    Forall
      (fun cc =>
         fst cc = 0
         /\ 0 < snd cc < 2 ^ 16 /\ snd cc <> 32896
         /\ eia608_parity_varify (snd cc) = true)
      (drain_caption_data eia608_parity_varify queue)
    /\ (length (drain_caption_data eia608_parity_varify queue)
        <= length queue)%nat.
Proof.
  intros parity queue.
  induction queue as [| [[b0 b1] b2] rest [IHf IHl]];
    [split; [constructor | reflexivity] |].
  cbn [drain_caption_data].
  destruct (Z.land b0 3 =? 0) eqn:T; cbn [negb];
    [| split; [exact IHf | simpl; lia]].
  set (w := (Z.shiftl b1 8 + b2) mod 2 ^ 16).
  destruct (w =? 32896) eqn:P; [split; [exact IHf | simpl; lia] |].
  destruct (w =? 0) eqn:Z0; [split; [exact IHf | simpl; lia] |].
  destruct (parity w) eqn:Par; cbn [negb];
    [| split; [exact IHf | simpl; lia]].
  split; [| simpl; lia].
  constructor; [| exact IHf]. cbn [fst snd].
  apply Z.eqb_eq in T. apply Z.eqb_neq in P. apply Z.eqb_neq in Z0.
  pose proof (Z.mod_pos_bound (Z.shiftl b1 8 + b2) (2 ^ 16) ltac:(lia)).
  fold w in H. repeat split; try assumption; lia.
Qed.

(** X22.  [add_caption] leaves a packet of priority above 1 and the output alone.
    Otherwise it appends one start code and one SEI to the packet data and
    changes nothing else of the packet.  Raw CEA-608 data has precedence:
    when the raw queue is not empty it is emptied into the SEI and the text
    captions wait; when it is empty the SEI carries the first text caption,
    which leaves the queue, or no message when no text is queued. *)
Theorem add_caption_effects :
  forall (eia608_parity_varify : Z -> bool) (output : obs_output)
         (out : encoder_packet),
    let r := add_caption eia608_parity_varify output out in
    let output' := fst (fst r) in
    let out' := snd (fst r) in
    (priority out > 1 -> r = (output, out, false))
    /\ (priority out <= 1 ->
        snd r = true
        /\ caption_data output' = []
        /\ set_packet_data (data out) out' = out
        /\ exists messages,
             data out' = data out ++ [nal_start; sei messages]
             /\ match caption_data output, caption_head output with
                | _ :: _, _ =>
                    messages
                    = [sei_cea708
                         (drain_caption_data eia608_parity_varify
                            (caption_data output))]
                    /\ caption_head output' = caption_head output
                | [], head :: next =>
                    messages = [sei_caption_frame (text head)]
                    /\ caption_head output' = next
                | [], [] => messages = [] /\ output' = output
                end).
Proof.
  intros parity output out. cbv zeta. unfold add_caption.
  destruct (priority out >? 1) eqn:P.
  - split; [reflexivity |]. apply Z.gtb_lt in P. lia.
  - split; [rewrite Z.gtb_ltb in P; apply Z.ltb_ge in P; lia |].
    intros _.
    assert (Same : forall d,
               set_packet_data (data out) (set_packet_data d out) = out)
      by (intros d; destruct out; reflexivity).
    destruct (caption_data output) as [| c rest] eqn:Cd.
    + destruct (caption_head output) as [| head next] eqn:Ch; cbn.
      * repeat split; try assumption; try apply Same.
        eexists. split; [reflexivity |]. split; reflexivity.
      * repeat split; try assumption; try apply Same.
        eexists. split; [reflexivity |]. split; reflexivity.
    + cbn. repeat split; try apply Same.
      eexists. split; [reflexivity |]. split; reflexivity.
Qed.

Lemma substring_length (n : nat) (s : string) :
  String.length (substring 0 n s) = Nat.min n (String.length s).
Proof.
  revert s. induction n as [| n IH]; intros s.
  - destruct s; reflexivity.
  - destruct s as [| c s]; [reflexivity |]. simpl. now rewrite IH.
Qed.

(** X23.  A text caption given to an active output joins the end of the queue,
    cut to at most [CAPTION_LINE_BYTES] characters, and the queue is served
    from its head: with no raw caption data pending, the caption the next
    eligible packet carries is the oldest queued one.  An output that is
    not active ignores the text. *)
Theorem caption_text_queue_order :
  forall (CAPTION_LINE_BYTES : nat) (eia608_parity_varify : Z -> bool)
         (output : obs_output) (text' : string) (duration : float)
         (out : encoder_packet),
    let queued :=
      {| text := substring 0 CAPTION_LINE_BYTES text';
         display_duration := duration |} in
    (active output = false ->
     obs_output_output_caption_text2 CAPTION_LINE_BYTES (Some output) text'
       duration = Some output)
    /\ (active output = true ->
        exists output',
          obs_output_output_caption_text2 CAPTION_LINE_BYTES (Some output)
            text' duration = Some output'
          /\ caption_head output' = caption_head output ++ [queued]
          /\ String.length (text queued)
             = Nat.min CAPTION_LINE_BYTES (String.length text')
          /\ (caption_data output = [] -> priority out <= 1 ->
              let r := add_caption eia608_parity_varify output' out in
              data (snd (fst r))
              = data out
                ++ [nal_start;
                    sei [sei_caption_frame
                           (text (hd queued (caption_head output)))]]
              /\ caption_head (fst (fst r))
                 = tl (caption_head output ++ [queued]))).
Proof.
  intros N parity output text' duration out. cbv zeta.
  unfold obs_output_output_caption_text2.
  split; intros A; rewrite A; cbn [negb]; [reflexivity |].
  eexists. split; [reflexivity |].
  split; [reflexivity |]. split; [apply substring_length |].
  intros Cd P. unfold add_caption.
  assert (Pb : (priority out >? 1) = false)
    by (rewrite Z.gtb_ltb; apply Z.ltb_ge; lia).
  rewrite Pb. unfold caption_text_new. cbn. rewrite Cd.
  destruct (caption_head output) as [| head next]; cbn;
    split; reflexivity.
Qed.

(** ** Mixers and encoders *)

Lemma land_pow2_eq_0 (i m : Z) :
  0 <= i -> (Z.land (2 ^ i) m =? 0) = negb (Z.testbit m i).
Proof.
  intros Hi. destruct (Z.testbit m i) eqn:B; simpl.
  - apply Z.eqb_neq. intros E.
    assert (T : Z.testbit (Z.land (2 ^ i) m) i = true)
      by (rewrite Z.land_spec, Z.pow2_bits_true, B; [reflexivity | lia]).
    rewrite E, Z.bits_0 in T. discriminate.
  - apply Z.eqb_eq. apply Z.bits_inj'. intros n Hn.
    rewrite Z.land_spec, Z.bits_0, Z.pow2_bits_eqb by lia.
    destruct (Z.eqb_spec i n) as [-> | N]; [now rewrite B | reflexivity].
Qed.

Lemma wrap_u64_bit (i : Z) :
  0 <= i < 64 -> wrap_u64 (Z.shiftl 1 i) = 2 ^ i.
Proof.
  intros Hi. unfold wrap_u64. rewrite Z.shiftl_1_l.
  apply Z.mod_small. split; [lia |]. apply Z.pow_lt_mono_r; lia.
Qed.

Lemma get_first_mixer_from_spec (mask : Z) :
  forall (n s : nat),
    (s + n <= 64)%nat ->
    let r := get_first_mixer_from mask (seq s n) in
    (r = 0
     /\ forall i, Z.of_nat s <= i < Z.of_nat (s + n) ->
          Z.testbit mask i = false)
    \/ (Z.of_nat s <= r < Z.of_nat (s + n)
        /\ Z.testbit mask r = true
        /\ forall i, Z.of_nat s <= i < r -> Z.testbit mask i = false).
Proof.
  induction n as [| n IH]; intros s L; simpl.
  - left. split; [reflexivity | intros i Hi; lia].
  - rewrite wrap_u64_bit, land_pow2_eq_0 by lia.
    destruct (Z.testbit mask (Z.of_nat s)) eqn:B; simpl.
    + right. split; [lia |]. split; [exact B | intros i Hi; lia].
    + destruct (IH (S s) ltac:(lia)) as [[E F] | (R & T & F)].
      * left. split; [exact E |]. intros i Hi.
        destruct (Z.eq_dec i (Z.of_nat s)) as [-> | N]; [exact B |].
        apply F. lia.
      * right. split; [lia |]. split; [exact T |]. intros i Hi.
        destruct (Z.eq_dec i (Z.of_nat s)) as [-> | N]; [exact B |].
        apply F. lia.
Qed.

Lemma MAX_AUDIO_MIXES_fits : (0 + MAX_AUDIO_MIXES <= 64)%nat.
Proof. unfold MAX_AUDIO_MIXES. lia. Qed.

(** X24.  [obs_output_get_mixer] returns the lowest mixer of the mask among the
    first [MAX_AUDIO_MIXES]; when the mask has none of them it returns 0,
    the answer it also gives for mixer 0. *)
Theorem obs_output_get_mixer_lowest :
  forall (output : obs_output),
    let r := obs_output_get_mixer (Some output) in
    (r = 0
     /\ forall i, 0 <= i < Z.of_nat MAX_AUDIO_MIXES ->
          Z.testbit (mixer_mask output) i = false)
    \/ (0 <= r < Z.of_nat MAX_AUDIO_MIXES
        /\ Z.testbit (mixer_mask output) r = true
        /\ forall i, 0 <= i < r -> Z.testbit (mixer_mask output) i = false).
Proof.
  intros output.
  exact (get_first_mixer_from_spec (mixer_mask output) MAX_AUDIO_MIXES 0
           MAX_AUDIO_MIXES_fits).
Qed.

(** X25.  On an output that is not active, the mixer set with
    [obs_output_set_mixer] is the one [obs_output_get_mixer] returns as long
    as its index is below [MAX_AUDIO_MIXES]; an index from there up to 63 is
    stored in the mask without complaint and reads back as mixer 0.  (From
    64 on the shift that builds the mask is undefined.) *)
Theorem obs_output_set_mixer_round_trip :
  forall (output : obs_output) (mixer_idx : Z),
    active output = false -> 0 <= mixer_idx < 64 ->
    obs_output_get_mixer (obs_output_set_mixer (Some output) mixer_idx)
    = if mixer_idx <? Z.of_nat MAX_AUDIO_MIXES then mixer_idx else 0.
Proof.
  intros output mixer_idx A Hi. unfold obs_output_set_mixer. rewrite A.
  cbn [negb obs_output_get_mixer]. unfold get_first_mixer.
  change (mixer_mask (set_mixer_mask (shl_size_t 1 mixer_idx) output))
    with (shl_size_t 1 mixer_idx).
  unfold shl_size_t. rewrite (Z.mod_small mixer_idx 64) by lia.
  assert (Bits : forall i, 0 <= i < 64 ->
             Z.testbit (wrap_u64 (Z.shiftl 1 mixer_idx)) i
             = (mixer_idx =? i)).
  { intros i Hr. unfold wrap_u64.
    rewrite Z.mod_pow2_bits_low, Z.shiftl_1_l, Z.pow2_bits_eqb by lia.
    reflexivity. }
  pose proof MAX_AUDIO_MIXES_fits as Fit.
  destruct (get_first_mixer_from_spec (wrap_u64 (Z.shiftl 1 mixer_idx))
              MAX_AUDIO_MIXES 0 Fit) as [[E F] | (R & T & _)];
    cbv zeta in *.
  - rewrite E. destruct (mixer_idx <? Z.of_nat MAX_AUDIO_MIXES) eqn:C;
      [| reflexivity].
    apply Z.ltb_lt in C. specialize (F mixer_idx ltac:(lia)).
    rewrite Bits, Z.eqb_refl in F by lia. discriminate.
  - rewrite Bits in T by lia. apply Z.eqb_eq in T. rewrite <- T.
    destruct (mixer_idx <? Z.of_nat MAX_AUDIO_MIXES) eqn:C;
      [reflexivity |].
    apply Z.ltb_ge in C. lia.
Qed.

Lemma count_bound_encoders_spec :
  forall (fuel : nat) (encoders : list (option obs_encoder.t)),
    let n := count_bound_encoders encoders fuel in
    (n <= fuel)%nat
    /\ (forall i, (i < n)%nat -> nth i encoders None <> None)
    /\ ((n < fuel)%nat -> nth n encoders None = None).
Proof.
  induction fuel as [| fuel IH]; intros encoders; simpl.
  - destruct encoders as [| [e |] rest]; simpl;
      (split; [lia |]); (split; [intros i Hi; lia | intros Hn; lia]).
  - destruct encoders as [| [e |] rest]; simpl.
    + split; [lia |]. split; [intros i Hi; lia | reflexivity].
    + destruct (IH rest) as (L & B & E). cbv zeta in *.
      split; [lia |]. split.
      * intros [| i] Hi; [discriminate | apply B; lia].
      * intros Hn. apply E. lia.
    + split; [lia |]. split; [intros i Hi; lia | reflexivity].
Qed.

(* The mix count, by the multi-track flag. *)
Lemma num_audio_mixes_spec :
  forall (output : obs_output),
    let n := num_audio_mixes output in
    (has_flag (info_flags output) OBS_OUTPUT_MULTI_TRACK = false ->
     n = 1%nat)
    /\ (has_flag (info_flags output) OBS_OUTPUT_MULTI_TRACK = true ->
        (n <= MAX_AUDIO_MIXES)%nat
        /\ (forall i, (i < n)%nat -> audio_encoder_at output i <> None)
        /\ ((n < MAX_AUDIO_MIXES)%nat -> audio_encoder_at output n = None)).
Proof.
  intros output. cbv zeta. unfold num_audio_mixes, audio_encoder_at.
  destruct (has_flag (info_flags output) OBS_OUTPUT_MULTI_TRACK).
  - split; [discriminate |]. intros _.
    apply (count_bound_encoders_spec MAX_AUDIO_MIXES (audio_encoders output)).
  - split; [reflexivity | discriminate].
Qed.

(** X26.  [num_audio_mixes] is 1 for an output that is not multi-track; for a
    multi-track output it is the number of bound audio encoders in front of
    the first empty slot, at most [MAX_AUDIO_MIXES]: an encoder behind an
    empty slot is not counted. *)
Theorem num_audio_mixes_counts_leading :
  forall (output : obs_output),
    let n := num_audio_mixes output in
    (has_flag (info_flags output) OBS_OUTPUT_MULTI_TRACK = false ->
     n = 1%nat)
    /\ (has_flag (info_flags output) OBS_OUTPUT_MULTI_TRACK = true ->
        (n <= MAX_AUDIO_MIXES)%nat
        /\ (forall i, (i < n)%nat -> audio_encoder_at output i <> None)
        /\ ((n < MAX_AUDIO_MIXES)%nat -> audio_encoder_at output n = None)).
Proof. exact num_audio_mixes_spec. Qed.

(** X27.  For an encoded output [audio_valid] comes down to one test: the first
    audio encoder slot is bound.  The mixes [num_audio_mixes] counts are
    bound by construction, so the loop over them never fails. *)
Theorem audio_valid_encoded_first_slot :
  forall (output : obs_output) (has_audio : bool),
    audio_valid output has_audio true = true
    <-> audio_encoder_at output 0 <> None.
Proof.
  intros output has_audio. unfold audio_valid.
  destruct (num_audio_mixes_spec output) as [Single Multi].
  cbv zeta in *.
  destruct (has_flag (info_flags output) OBS_OUTPUT_MULTI_TRACK) eqn:M.
  - destruct (Multi eq_refl) as (L & B & E).
    destruct (num_audio_mixes output) as [| n] eqn:N.
    + simpl. split; [discriminate |]. intros H. exfalso. apply H, E.
      unfold MAX_AUDIO_MIXES. lia.
    + cbn [Nat.eqb]. split.
      * intros _. apply B. lia.
      * intros _. apply forallb_forall. intros i Hi.
        apply in_seq in Hi. specialize (B i ltac:(lia)).
        destruct (audio_encoder_at output i); [reflexivity | congruence].
  - rewrite (Single eq_refl). simpl.
    destruct (audio_encoder_at output 0); simpl.
    + split; [discriminate | reflexivity].
    + split; [discriminate | congruence].
Qed.

Lemma pointer_eqb_eq (a b : option nat) : pointer_eqb a b = true <-> a = b.
Proof.
  destruct a as [x |], b as [y |]; simpl;
    try (split; [discriminate | discriminate]);
    try (split; reflexivity).
  rewrite Nat.eqb_eq. split; [now intros -> | now intros [= ->]].
Qed.

Lemma get_track_index_from_spec (pkt_encoder : option nat) :
  forall (encoders : list (option obs_encoder.t)) (i0 : nat),
    let slot j := option_map obs_encoder.addr (nth j encoders None) in
    (get_track_index_from encoders pkt_encoder i0 = None
     /\ forall j, (j < length encoders)%nat -> slot j <> pkt_encoder)
    \/ (exists r,
          get_track_index_from encoders pkt_encoder i0 = Some (i0 + r)%nat
          /\ (r < length encoders)%nat
          /\ slot r = pkt_encoder
          /\ forall j, (j < r)%nat -> slot j <> pkt_encoder).
Proof.
  induction encoders as [| e rest IH]; intros i0; simpl.
  - left. split; [reflexivity | intros j Hj; lia].
  - destruct (pointer_eqb pkt_encoder (option_map obs_encoder.addr e)) eqn:P.
    + right. apply pointer_eqb_eq in P. exists 0%nat.
      rewrite Nat.add_0_r. split; [reflexivity |].
      split; [lia |]. split; [now symmetry | intros j Hj; lia].
    + assert (N : option_map obs_encoder.addr e <> pkt_encoder).
      { intros E. symmetry in E. apply pointer_eqb_eq in E. congruence. }
      destruct (IH (S i0)) as [[E F] | (r & E & R & T & F)]; cbv zeta in *.
      * left. split; [exact E |].
        intros [| j] Hj; [exact N | apply F; lia].
      * right. exists (S r). rewrite E.
        split; [f_equal; lia |]. split; [lia |]. split; [exact T |].
        intros [| j] Hj; [exact N | apply F; lia].
Qed.

Lemma nth_firstn_lt {A : Type} (d : A) :
  forall (n j : nat) (l : list A), (j < n)%nat -> nth j (firstn n l) d = nth j l d.
Proof.
  induction n as [| n IH]; intros j l L; [lia |].
  destruct l as [| a l]; [now destruct j |].
  destruct j as [| j]; [reflexivity |]. simpl. apply IH. lia.
Qed.

(** X28.  [get_track_index] returns the first of the audio encoder slots that
    holds the encoder of the packet.  When no slot holds it the function
    reaches its [assert(false)]: there is no index to return, and the 0 that
    a build without assertions returns is also the index of the first
    slot. *)
Theorem get_track_index_first_slot :
  forall (output : obs_output) (pkt : encoder_packet),
    let slot j := option_map obs_encoder.addr (audio_encoder_at output j) in
    let slots := Nat.min MAX_AUDIO_MIXES (length (audio_encoders output)) in
    (get_track_index_checked output pkt = None
     /\ get_track_index output pkt = 0%nat
     /\ forall j, (j < slots)%nat -> slot j <> encoder pkt)
    \/ (exists r,
          get_track_index_checked output pkt = Some r
          /\ get_track_index output pkt = r
          /\ (r < slots)%nat /\ slot r = encoder pkt
          /\ forall j, (j < r)%nat -> slot j <> encoder pkt).
Proof.
  intros output pkt. cbv zeta.
  unfold get_track_index, get_track_index_checked, audio_encoder_at.
  pose proof (get_track_index_from_spec (encoder pkt)
                (firstn MAX_AUDIO_MIXES (audio_encoders output)) 0) as H.
  cbv zeta in H. rewrite length_firstn in H.
  destruct H as [[E F] | (r & E & R & T & F)]; rewrite E.
  - left. split; [reflexivity |]. split; [reflexivity |]. intros j Hj.
    rewrite <- (nth_firstn_lt None MAX_AUDIO_MIXES j) by lia.
    now apply F.
  - right. exists r. split; [reflexivity |]. split; [reflexivity |].
    split; [exact R |]. split.
    + rewrite <- (nth_firstn_lt None MAX_AUDIO_MIXES) by lia. exact T.
    + intros j Hj.
      rewrite <- (nth_firstn_lt None MAX_AUDIO_MIXES j) by lia.
      now apply F.
Qed.

Lemma da_set_nth {A : Type} (d x : A) (l : list A) (idx : nat) :
  (idx < length l)%nat ->
  length (da_set l idx x) = length l
  /\ nth idx (da_set l idx x) d = x
  /\ forall j, j <> idx -> nth j (da_set l idx x) d = nth j l d.
Proof.
  revert idx. induction l as [| a l IH]; intros idx L; simpl in L; [lia |].
  destruct idx as [| idx].
  - unfold da_set. simpl. split; [reflexivity |]. split; [reflexivity |].
    intros [| j] Hj; [congruence | reflexivity].
  - destruct (IH idx ltac:(lia)) as (Len & Here & Else).
    change (da_set (a :: l) (S idx) x) with (a :: da_set l idx x).
    cbn [length nth].
    split; [now rewrite Len |]. split; [exact Here |].
    intros [| j] Hj; [reflexivity | apply Else; congruence].
Qed.

(** X29.  [obs_output_set_audio_encoder] and [obs_output_get_audio_encoder] agree.
    The setter acts only on an output that is not active, for an encoder
    that is NULL or an audio encoder, and for a valid index (below
    [MAX_AUDIO_MIXES] on a multi-track output, 0 otherwise); then the getter
    returns the encoder set at that index and what it returned before at
    every other index.  In every other case the output is as it was.  The
    getter returns NULL for an index that is not valid. *)
Theorem obs_output_set_audio_encoder_round_trip :
  forall (output : obs_output) (encoder : option obs_encoder.t)
         (encoder_type : obs_encoder_type) (idx : nat),
    length (audio_encoders output) = MAX_AUDIO_MIXES ->
    let accepted :=
      match encoder with
      | Some _ => obs_encoder_type_eqb encoder_type OBS_ENCODER_AUDIO
      | None => true
      end
      && negb (active output) && audio_encoder_idx_valid output idx in
    (accepted = false ->
     obs_output_set_audio_encoder (Some output) encoder encoder_type idx
     = Some output)
    /\ (accepted = true ->
        exists output',
          obs_output_set_audio_encoder (Some output) encoder encoder_type idx
          = Some output'
          /\ option_map obs_encoder.addr
               (obs_output_get_audio_encoder (Some output') idx)
             = option_map obs_encoder.addr encoder
          /\ forall j, j <> idx ->
               obs_output_get_audio_encoder (Some output') j
               = obs_output_get_audio_encoder (Some output) j)
    /\ (audio_encoder_idx_valid output idx = false ->
        obs_output_get_audio_encoder (Some output) idx = None).
Proof.
  intros output encoder encoder_type idx Len. cbv zeta.
  unfold obs_output_set_audio_encoder.
  split; [| split].
  - destruct encoder as [e |];
      [destruct (obs_encoder_type_eqb encoder_type OBS_ENCODER_AUDIO) |];
      cbn [negb andb]; try reflexivity;
      destruct (active output); cbn [negb andb]; try reflexivity;
      intros ->; reflexivity.
  - intros Acc.
    apply andb_prop in Acc. destruct Acc as [Acc V].
    apply andb_prop in Acc. destruct Acc as [Ty A].
    assert (T' : match encoder with
                 | Some _ =>
                     negb (obs_encoder_type_eqb encoder_type OBS_ENCODER_AUDIO)
                 | None => false
                 end = false)
      by (destruct encoder; [now rewrite Ty | reflexivity]).
    rewrite T'. apply negb_true_iff in A. rewrite A, V. cbn [negb].
    assert (In_range : (idx < length (audio_encoders output))%nat).
    { rewrite Len. unfold audio_encoder_idx_valid in V.
      destruct (has_flag (info_flags output) OBS_OUTPUT_MULTI_TRACK).
      - now apply Nat.ltb_lt.
      - apply Nat.eqb_eq in V. unfold MAX_AUDIO_MIXES. lia. }
    destruct (pointer_eqb
                (option_map obs_encoder.addr (audio_encoder_at output idx))
                (option_map obs_encoder.addr encoder)) eqn:P.
    + exists output. split; [reflexivity |].
      apply pointer_eqb_eq in P.
      unfold obs_output_get_audio_encoder. rewrite V. cbn [negb].
      split; [exact P | reflexivity].
    + eexists. split; [reflexivity |].
      destruct (da_set_nth None encoder (audio_encoders output) idx In_range)
        as (_ & Here & Else).
      unfold obs_output_get_audio_encoder, audio_encoder_at.
      change (audio_encoder_idx_valid
                (set_audio_encoders
                   (da_set (audio_encoders output) idx encoder) output))
        with (audio_encoder_idx_valid output).
      change (audio_encoders
                (set_audio_encoders
                   (da_set (audio_encoders output) idx encoder) output))
        with (da_set (audio_encoders output) idx encoder).
      rewrite V. cbn [negb]. rewrite Here. split; [reflexivity |].
      intros j Hj. rewrite (Else j Hj). reflexivity.
  - intros V. unfold obs_output_get_audio_encoder. now rewrite V.
Qed.

(** X30.  The callback of an output that does not interleave hands every packet
    to the sink at once: while data capture is active the sink receives the
    packets in their order of arrival, the same packets but for the track
    index, and [total_frames] counts the video packets; an output whose
    data capture is not active forwards nothing. *)
Theorem default_encoded_callback_passes_through :
  forall (arrivals : list encoder_packet) (output : obs_output),
    let output' := fold_left default_encoded_callback arrivals output in
    (data_active output = false -> output' = output)
    /\ (data_active output = true ->
        map (set_packet_track_idx 0) (sink output')
        = map (set_packet_track_idx 0) (sink output ++ arrivals)
        /\ total_frames output'
           = total_frames output + count_video arrivals).
Proof.
  induction arrivals as [| p rest IH]; intros output; cbv zeta.
  - simpl. split; [reflexivity |]. intros _.
    rewrite app_nil_r. unfold count_video. simpl. split; [reflexivity | lia].
  - cbn [fold_left]. split.
    + intros D. unfold default_encoded_callback at 2. rewrite D.
      now apply IH.
    + intros D.
      assert (Step : data_active (default_encoded_callback output p) = true
                     /\ map (set_packet_track_idx 0)
                          (sink (default_encoded_callback output p))
                        = map (set_packet_track_idx 0) (sink output ++ [p])
                     /\ total_frames (default_encoded_callback output p)
                        = total_frames output
                          + (if is_video p then 1 else 0)).
      { unfold default_encoded_callback, is_video. rewrite D.
        destruct (type p) eqn:T; cbn; rewrite ?T; cbn;
          rewrite !map_app; cbn; repeat split; try exact D; try lia. }
      destruct Step as (D1 & S1 & F1).
      destruct (IH (default_encoded_callback output p)) as [_ Run].
      destruct (Run D1) as [S2 F2]. cbv zeta in *.
      rewrite S2, F2, F1, map_app, S1, <- map_app, <- app_assoc.
      split; [reflexivity |].
      unfold count_video. cbn [filter].
      destruct (is_video p); cbn [length]; lia.
Qed.

(** ** The properties at concrete inputs *)

(** Decides the closed inequalities and conjunctions a computed statement
    about a scenario consists of. *)
Ltac decide_computed :=
  vm_compute;
  repeat first
    [ exact I | reflexivity | split
    | apply Forall_nil | apply Forall_cons
    | apply SSorted_nil | apply SSorted_cons
    | let H := fresh in intros H; discriminate H ].

Lemma interleave_run_ordered_witness :
  ordered (interleaved_packets s2_output)
  /\ ordered (interleaved_packets
                (interleave_run parity_ok s2_output timely_arrivals)).
Proof.
  assert (H : ordered (interleaved_packets s2_output))
    by (apply orderedb_sound; vm_compute; reflexivity).
  split; [exact H |].
  exact (interleave_run_ordered parity_ok timely_arrivals s2_output H).
Defined.

Lemma keyframe_gate_witness :
  (active audio_only_output = true
   /\ received_video audio_only_output = false
   /\ type (delta_frame 1 1) = OBS_ENCODER_VIDEO
   /\ keyframe (delta_frame 1 1) = false)
  /\ exists dropped,
       interleaved_packets audio_only_output
       = dropped
         ++ interleaved_packets
              (interleave_packets parity_ok audio_only_output
                 (delta_frame 1 1))
       /\ Forall (fun q => dts_usec q < dts_usec (delta_frame 1 1)) dropped.
Proof.
  assert (A : active audio_only_output = true) by (vm_compute; reflexivity).
  assert (R : received_video audio_only_output = false)
    by (vm_compute; reflexivity).
  assert (T : type (delta_frame 1 1) = OBS_ENCODER_VIDEO) by reflexivity.
  assert (K : keyframe (delta_frame 1 1) = false) by reflexivity.
  split; [split_all; assumption |].
  destruct (keyframe_gate parity_ok audio_only_output (delta_frame 1 1)
              A R T K) as (dropped & E & F & _).
  exists dropped. split; [exact E | exact F].
Defined.

Lemma timely_arrivals_monotone_emission_witness :
  emission_invariant aligned_output
  /\ arrivals_in_time parity_ok aligned_output timely_arrivals
  /\ StronglySorted Z.le
       (map dts_usec
          (sink (interleave_run parity_ok aligned_output timely_arrivals)))
  /\ timeline (sink (interleave_run parity_ok aligned_output timely_arrivals))
     = [(OBS_ENCODER_VIDEO, 0); (OBS_ENCODER_AUDIO, 0);
        (OBS_ENCODER_AUDIO, 23000); (OBS_ENCODER_VIDEO, 33333);
        (OBS_ENCODER_AUDIO, 46000)].
Proof.
  assert (Inv : emission_invariant aligned_output).
  { unfold emission_invariant. split_all; try (vm_compute; reflexivity).
    - apply orderedb_sound. vm_compute. reflexivity.
    - decide_computed.
    - decide_computed.
    - decide_computed.
    - decide_computed. }
  assert (Fresh : arrivals_in_time parity_ok aligned_output timely_arrivals)
    by decide_computed.
  split; [exact Inv |]. split; [exact Fresh |].
  split; [| vm_compute; reflexivity].
  apply (timely_arrivals_monotone_emission parity_ok timely_arrivals
           aligned_output Inv Fresh).
Defined.

Lemma get_interleaved_start_idx_keeps_first_video_witness :
  find_first_packet_type s2_output OBS_ENCODER_VIDEO 0
  = Some (video_packet 0 0)
  /\ find_first_packet_type
       (discard_to_idx s2_output (get_interleaved_start_idx s2_output))
       OBS_ENCODER_VIDEO 0
     = Some (video_packet 0 0).
Proof.
  assert (H : find_first_packet_type s2_output OBS_ENCODER_VIDEO 0
              = Some (video_packet 0 0)) by (vm_compute; reflexivity).
  split; [exact H |].
  exact (proj2 (proj2 (get_interleaved_start_idx_keeps_first_video
                         s2_output (video_packet 0 0) H))).
Defined.

Lemma initialize_interleaved_packets_zero_rebase_witness :
  initialize_interleaved_packets s2_output
  = (fst (initialize_interleaved_packets s2_output), true)
  /\ (num_audio_mixes s2_output <= length (audio_offsets s2_output))%nat
  /\ exists video,
       find_first_packet_type (fst (initialize_interleaved_packets s2_output))
         OBS_ENCODER_VIDEO 0 = Some video
       /\ pts video = 0.
Proof.
  assert (H : initialize_interleaved_packets s2_output
              = (fst (initialize_interleaved_packets s2_output), true))
    by (vm_compute; reflexivity).
  assert (L : (num_audio_mixes s2_output
               <= length (audio_offsets s2_output))%nat)
    by (apply Nat.leb_le; vm_compute; reflexivity).
  split; [exact H |]. split; [exact L |].
  exact (proj1 (initialize_interleaved_packets_zero_rebase s2_output _ H L)).
Defined.

Lemma get_closest_v_ts_window_witness :
  (0 < s4_interval
   /\ 0 <= last_video_ts (pause s4_output) <= s4_now
   /\ s4_now + 2 * s4_interval < 2 ^ 64)
  /\ s4_now + s4_interval
     < get_closest_v_ts s4_interval s4_now (pause s4_output)
     <= s4_now + 2 * s4_interval.
Proof.
  assert (Hi : 0 < s4_interval) by reflexivity.
  assert (Hl : 0 <= last_video_ts (pause s4_output) <= s4_now)
    by (split; vm_compute; discriminate).
  assert (Hn : s4_now + 2 * s4_interval < 2 ^ 64) by reflexivity.
  split; [split_all; first [exact Hi | apply Hl | exact Hn] |].
  exact (proj1 (get_closest_v_ts_window s4_interval s4_now (pause s4_output)
                  Hi Hl Hn)).
Defined.

Lemma obs_raw_output_pause_cycle_witness :
  (pause_can_start (pause s4_output) = true
   /\ s4_now <= s4_now + 10 * s4_interval)
  /\ ts_offset
       (pause
          (fst (obs_raw_output_pause s4_interval (s4_now + 10 * s4_interval)
                  (fst (obs_raw_output_pause s4_interval s4_now s4_output
                          true))
                  false)))
     = wrap_u64
         (ts_offset (pause s4_output)
          + (get_closest_v_ts s4_interval (s4_now + 10 * s4_interval)
               (pause s4_output)
             - get_closest_v_ts s4_interval s4_now (pause s4_output))).
Proof.
  assert (Start : pause_can_start (pause s4_output) = true) by reflexivity.
  assert (Hi : 0 < s4_interval) by reflexivity.
  assert (Hl : 0 <= last_video_ts (pause s4_output) <= s4_now)
    by (split; vm_compute; discriminate).
  assert (H12 : s4_now <= s4_now + 10 * s4_interval)
    by (vm_compute; discriminate).
  assert (Hn : s4_now + 10 * s4_interval + 2 * s4_interval < 2 ^ 64)
    by reflexivity.
  split; [split; [exact Start | exact H12] |].
  destruct (obs_raw_output_pause_cycle s4_interval s4_now
              (s4_now + 10 * s4_interval) 0 s4_output Start Hi Hl H12 Hn)
    as (_ & _ & _ & _ & _ & _ & Off & _).
  exact Off.
Defined.

Lemma obs_encoded_output_pause_all_or_nothing_witness :
  obs_encoded_output_pause s4_interval s4_now started_output true
  = Some (paused_encoded_output, true)
  /\ map obs_encoder.addr (bound_encoders paused_encoded_output)
     = map obs_encoder.addr (bound_encoders started_output).
Proof.
  assert (H : obs_encoded_output_pause s4_interval s4_now started_output true
              = Some (paused_encoded_output, true))
    by (vm_compute; reflexivity).
  split; [exact H |].
  destruct (obs_encoded_output_pause_all_or_nothing s4_interval s4_now
              started_output paused_encoded_output true true H)
    as (_ & _ & Ok).
  exact (proj1 (Ok eq_refl)).
Defined.

Lemma obs_output_pause_outcome_witness :
  obs_output_pause s4_interval s4_now (Some s4_output) true
  = Some (Some s4_paused_output, true)
  /\ paused s4_paused_output = true
  /\ signals s4_paused_output = signals s4_output ++ [signal "pause"].
Proof.
  assert (H : obs_output_pause s4_interval s4_now (Some s4_output) true
              = Some (Some s4_paused_output, true))
    by (vm_compute; reflexivity).
  split; [exact H |].
  destruct (obs_output_pause_outcome s4_interval s4_now s4_output
              s4_paused_output true true H) as (_ & Ok & Sig).
  split; [exact (proj1 (Ok eq_refl)) | exact Sig].
Defined.

Lemma output_reconnect_backoff_monotone_witness :
  (reconnecting s5_waiting_1_51 = true
   /\ 0 < reconnect_retries s5_waiting_1_51
       < reconnect_retry_max s5_waiting_1_51
   /\ float32_valid (reconnect_retry_exp s5_waiting_1_51) = true
   /\ SFleb float32_1 (reconnect_retry_exp s5_waiting_1_51) = true
   /\ float32_trunc
        (float32_mul
           (float32_of_uint32 (reconnect_retry_cur_msec s5_waiting_1_51))
           (reconnect_retry_exp s5_waiting_1_51)) = Some 3020)
  /\ reconnect_retry_cur_msec s5_waiting_1_51 = 2000
  /\ reconnect_retry_cur_msec
       (output_reconnect delay_cleared 0 0 s5_waiting_1_51)
     = Z.min RECONNECT_RETRY_MAX_MSEC 3020
  /\ reconnect_retry_cur_msec
       (output_reconnect delay_cleared 0 0 s5_waiting_1_51) = 3020.
Proof.
  assert (R : reconnecting s5_waiting_1_51 = true) by reflexivity.
  assert (Hr : 0 < reconnect_retries s5_waiting_1_51
               < reconnect_retry_max s5_waiting_1_51)
    by (split; vm_compute; reflexivity).
  assert (V : float32_valid (reconnect_retry_exp s5_waiting_1_51) = true)
    by (vm_compute; reflexivity).
  assert (He : SFleb float32_1 (reconnect_retry_exp s5_waiting_1_51) = true)
    by (vm_compute; reflexivity).
  assert (Hc : 0 <= reconnect_retry_cur_msec s5_waiting_1_51
               <= RECONNECT_RETRY_MAX_MSEC)
    by (split; vm_compute; discriminate).
  assert (T : float32_trunc
                (float32_mul
                   (float32_of_uint32
                      (reconnect_retry_cur_msec s5_waiting_1_51))
                   (reconnect_retry_exp s5_waiting_1_51)) = Some 3020)
    by (vm_compute; reflexivity).
  assert (Hq : 3020 < 2 ^ 32) by reflexivity.
  split; [split_all; first [exact R | apply Hr | exact V | exact He
                           | exact T] |].
  split; [reflexivity |].
  split; [| vm_compute; reflexivity].
  exact (proj1 (output_reconnect_backoff_monotone delay_cleared 0 0
                  s5_waiting_1_51 3020 R Hr V He Hc T Hq)).
Defined.

Lemma output_reconnect_retry_bound_witness :
  0 <= reconnect_retry_max s5_output
  /\ reconnect_retry_max (output_reconnect delay_cleared 0 0 s5_output)
     = reconnect_retry_max s5_output.
Proof.
  assert (H : 0 <= reconnect_retry_max s5_output)
    by (vm_compute; discriminate).
  split; [exact H |].
  exact (proj1 (output_reconnect_retry_bound delay_cleared 0 0 s5_output H)).
Defined.

Lemma output_reconnect_thread_not_created_witness :
  (11 <> 0 /\ retries_made s5_output < reconnect_retry_max s5_output)
  /\ reconnect_retries (output_reconnect delay_cleared 0 11 s5_output)
     = retries_made s5_output + 1.
Proof.
  assert (N : 11 <> 0) by discriminate.
  assert (L : retries_made s5_output < reconnect_retry_max s5_output)
    by (vm_compute; reflexivity).
  split; [split; [exact N | exact L] |].
  exact (proj1 (output_reconnect_thread_not_created delay_cleared 0 11
                  s5_output N L)).
Defined.

Lemma reconnect_cycle_balances_delay_refs_witness :
  (delay_active s5_delayed = true /\ 0 <= delay_restart_refs s5_delayed
   /\ reconnecting s5_delayed = false
   /\ 0 < reconnect_retry_max s5_delayed)
  /\ exists output',
       obs_output_signal_stop delay_cleared 0 0 (Some s5_delayed)
         OBS_OUTPUT_DISCONNECTED = Some output'
       /\ delay_restart_refs output' = delay_restart_refs s5_delayed + 1
       /\ delay_restart_refs (reconnect_thread true output')
          = delay_restart_refs s5_delayed.
Proof.
  assert (Da : delay_active s5_delayed = true) by reflexivity.
  assert (Refs : 0 <= delay_restart_refs s5_delayed)
    by (vm_compute; discriminate).
  assert (Rc : reconnecting s5_delayed = false) by reflexivity.
  assert (Max : 0 < reconnect_retry_max s5_delayed) by reflexivity.
  split; [split_all; assumption |].
  destruct (reconnect_cycle_balances_delay_refs delay_cleared 0 true s5_delayed
              OBS_OUTPUT_DISCONNECTED Da Refs Rc eq_refl Max)
    as (output' & E & R1 & _ & _ & _ & R2 & _).
  exists output'. split; [exact E |]. split; [exact R1 | exact R2].
Defined.

Lemma obs_output_set_mixer_round_trip_witness :
  active (set_active false raw_output) = false
  /\ obs_output_get_mixer
       (obs_output_set_mixer (Some (set_active false raw_output)) 3)
     = (if 3 <? Z.of_nat MAX_AUDIO_MIXES then 3 else 0).
Proof.
  assert (A : active (set_active false raw_output) = false) by reflexivity.
  assert (P : 0 <= 3 < 64) by (split; [discriminate | reflexivity]).
  split; [exact A |].
  exact (obs_output_set_mixer_round_trip (set_active false raw_output) 3 A P).
Defined.

Lemma obs_output_set_audio_encoder_round_trip_witness :
  length (audio_encoders (set_active false two_track_output))
  = MAX_AUDIO_MIXES
  /\ exists output',
       obs_output_set_audio_encoder (Some (set_active false two_track_output))
         (Some (encoder_at 7)) OBS_ENCODER_AUDIO 2
       = Some output'
       /\ option_map obs_encoder.addr
            (obs_output_get_audio_encoder (Some output') 2)
          = Some 7%nat.
Proof.
  assert (L : length (audio_encoders (set_active false two_track_output))
              = MAX_AUDIO_MIXES) by reflexivity.
  split; [exact L |].
  destruct (obs_output_set_audio_encoder_round_trip
              (set_active false two_track_output) (Some (encoder_at 7))
              OBS_ENCODER_AUDIO 2 L) as (_ & Ok & _).
  destruct (Ok ltac:(vm_compute; reflexivity)) as (output' & E & G & _).
  exists output'. split; [exact E | exact G].
Defined.
